(** * HR data analysis: the merge/reindex pipeline and the analytical queries

    A shallow embedding of [HR Data Analysis/explore.py] (class
    [DataAnalysis]).  The pandas operations the class calls are modelled by
    their documented behaviour on a small row-major data frame; the methods
    of the class are then written as the same chains of calls as in the
    Python source.

    Conventions of the model:
    - a cell is an integer, a float, a string or NaN; a float64 cell is
      represented by the rational it denotes; the float64 operations of the
      aggregates and of the rounding, and the float-to-string conversion,
      are parameters;
    - a data frame has a list of column names and a list of rows, each row
      carrying its index label;
    - a raised exception is a value of [exn]; the [try/except] blocks of the
      source only log and re-raise, so they do not appear. *)

From Stdlib Require Import QArith Qround Qabs.
From stdpp Require Import base list strings gmap sorting pretty.

Local Open Scope Z_scope.
Local Open Scope string_scope.
Local Open Scope list_scope.

(** ** Cells *)

Inductive value :=
  | VInt (z : Z)
  | VFloat (q : Q)
  | VStr (s : string)
  | VNaN.

Global Instance Q_eq_dec : EqDecision Q.
Proof. solve_decision. Defined.

Global Instance value_eq_dec : EqDecision value.
Proof. solve_decision. Defined.

Global Instance value_inhabited : Inhabited value := populate VNaN.

Global Instance Q_countable : Countable Q.
Proof.
  apply (inj_countable' (λ q, (Qnum q, Qden q)) (λ p, Qmake p.1 p.2)).
  by intros [].
Defined.

Global Instance value_countable : Countable value.
Proof.
  apply (inj_countable'
    (λ v, match v with
          | VInt z => inl (inl z) | VFloat q => inl (inr q)
          | VStr s => inr (inl s) | VNaN => inr (inr ())
          end)
    (λ x, match x with
          | inl (inl z) => VInt z | inl (inr q) => VFloat q
          | inr (inl s) => VStr s | inr (inr _) => VNaN
          end)).
  by intros [].
Defined.

(** Python's [==] on scalars: numbers compare by value across [int] and
    [float], strings by content, and NaN equals nothing. *)
Definition value_eqb (a b : value) : bool :=
  match a, b with
  | VInt x, VInt y => bool_decide (x = y)
  | VInt x, VFloat q | VFloat q, VInt x => Qeq_bool (inject_Z x) q
  | VFloat p, VFloat q => Qeq_bool p q
  | VStr s, VStr t => bool_decide (s = t)
  | _, _ => false
  end.

Definition numeric (v : value) : Prop :=
  match v with VInt _ | VFloat _ => True | _ => False end.

Definition is_int (v : value) : bool :=
  match v with VInt _ => true | _ => false end.

Definition is_str (v : value) : Prop := ∃ s, v = VStr s.

Global Instance Qlt_decision (x y : Q) : Decision (x < y)%Q.
Proof.
  destruct (Qlt_le_dec x y) as [?|?]; [by left|right]. by apply Qle_not_lt.
Defined.

(** ** Exceptions *)

Inductive exn :=
  | KeyError
  | TypeError
  | ValueError (msg : string).

Inductive result (A : Type) :=
  | Ok (a : A)
  | Raise (e : exn).
Arguments Ok {A} a.
Arguments Raise {A} e.

Global Instance result_ret : MRet result := @Ok.
Global Instance result_bind : MBind result := λ A B f m,
  match m with Ok a => f a | Raise e => Raise e end.

(** ** Data frames *)

Record DataFrame := mkDF {
  columns : list string;
  rows : list (value * list value)
}.

Definition index (df : DataFrame) : list value := (rows df).*1.

(** Position of the first column called [c]. *)
Fixpoint col_pos (c : string) (cols : list string) : option nat :=
  match cols with
  | [] => None
  | c' :: cols => if decide (c = c') then Some 0%nat else S <$> col_pos c cols
  end.

Definition cell (i : nat) (r : list value) : value := default VNaN (r !! i).

(** [df[c]]: the cells of column [c], [KeyError] when there is none. *)
Definition get_column (c : string) (df : DataFrame) : result (list value) :=
  match col_pos c (columns df) with
  | Some i => Ok (cell i ∘ snd <$> rows df)
  | None => Raise KeyError
  end.

(** [df.index = labels] (the labels are as many as the rows). *)
Definition set_axis (labels : list value) (df : DataFrame) : DataFrame :=
  mkDF (columns df) (zip labels (rows df).*2).

(** Removing the cells at the positions of the columns named in [cs]. *)
Fixpoint drop_cells (cs cols : list string) (r : list value) : list value :=
  match cols, r with
  | c :: cols, v :: r =>
      if decide (c ∈ cs) then drop_cells cs cols r else v :: drop_cells cs cols r
  | _, _ => []
  end.

Definition drop_columns (cs : list string) (df : DataFrame) : DataFrame :=
  mkDF (filter (λ c, c ∉ cs) (columns df))
       (prod_map id (drop_cells cs (columns df)) <$> rows df).

(** [df.set_index(c)]: column [c] becomes the index and leaves the columns. *)
Definition set_index (c : string) (df : DataFrame) : result DataFrame :=
  labels ← get_column c df;
  mret (drop_columns [c] (set_axis labels df)).

(** ** Ordering of labels and group keys

    Numbers are ordered by value, strings lexically by character code (the
    order of Python's [str]); numbers sort before strings and NaN last. *)

Definition value_rank (v : value) : nat :=
  match v with VInt _ | VFloat _ => 0 | VStr _ => 1 | VNaN => 2 end%nat.

Definition value_num (v : value) : Q :=
  match v with VInt z => inject_Z z | VFloat q => q | _ => 0%Q end.

Definition value_leb (a b : value) : bool :=
  match a, b with
  | VStr s, VStr t => String.leb s t
  | (VInt _ | VFloat _), (VInt _ | VFloat _) => Qle_bool (value_num a) (value_num b)
  | _, _ => bool_decide (value_rank a ≤ value_rank b)%nat
  end.

(** A stable insertion sort: [x] goes in front of the first element it is
    not greater than, so equal elements keep their order. *)
Fixpoint insert_by {A} (leb : A → A → bool) (x : A) (l : list A) : list A :=
  match l with
  | [] => [x]
  | y :: l' => if leb x y then x :: l else y :: insert_by leb x l'
  end.

Definition sort_by {A} (leb : A → A → bool) (l : list A) : list A :=
  foldr (insert_by leb) [] l.

(** [df.sort_index()]; rows with equal labels keep their order here, which
    pandas leaves open. *)
Definition sort_index (df : DataFrame) : DataFrame :=
  mkDF (columns df) (sort_by (λ r1 r2, value_leb r1.1 r2.1) (rows df)).

(** [pd.concat(dfs, ignore_index=False)]: rows one after the other with
    their labels; the columns are the union in order of first appearance and
    a cell a frame does not have is NaN. *)
Definition union_columns (dfs : list DataFrame) : list string :=
  foldl (λ acc df, acc ++ filter (λ c, c ∉ acc) (columns df)) [] dfs.

Definition reproject (src dst : list string) (r : list value) : list value :=
  (λ c, match col_pos c src with Some i => cell i r | None => VNaN end) <$> dst.

Definition concat (dfs : list DataFrame) : DataFrame :=
  let cols := union_columns dfs in
  mkDF cols (dfs ≫= λ df, prod_map id (reproject (columns df) cols) <$> rows df).

(** [left.merge(right, left_index=True, right_index=True, how='inner')]:
    one row per pair of a left row and a right row with equal labels, in the
    order of the left rows; columns the two frames share get the suffixes
    [_x] and [_y]. *)
Definition suffixed (sfx : string) (others cols : list string) : list string :=
  (λ c, if decide (c ∈ others) then c +:+ sfx else c) <$> cols.

Definition merge (left right : DataFrame) : DataFrame :=
  mkDF (suffixed "_x" (columns right) (columns left) ++
        suffixed "_y" (columns left) (columns right))
       (rows left ≫= λ l,
          (λ r, (l.1, l.2 ++ r.2)) <$> filter (λ r, value_eqb l.1 r.1) (rows right)).

(** * The class [DataAnalysis] *)

(** [self.project_dataframes] once [create_dataframes] has loaded the three
    sources. *)
Record project_dataframes := mkPD {
  a_office_data : DataFrame;
  b_office_data : DataFrame;
  hr_data : DataFrame
}.

Section pipeline.

(** [str] of a float64 cell. *)
Variable float_str : Q → string.

(** [f'{x}'] *)
Definition py_str (x : value) : string :=
  match x with
  | VInt z => pretty z
  | VFloat q => float_str q
  | VStr s => s
  | VNaN => "nan"
  end.

(** The keys derived for an office table whose raw ids are [ids]. *)
Definition office_keys (prefix : string) (ids : list value) : list value :=
  (λ x, VStr (prefix +:+ py_str x)) <$> ids.

Definition reindex_dataframes (p : project_dataframes) : result project_dataframes :=
  a_ids ← get_column "employee_office_id" (a_office_data p);
  let a := set_axis ((λ x, VStr ("A" +:+ py_str x)) <$> a_ids) (a_office_data p) in
  b_ids ← get_column "employee_office_id" (b_office_data p);
  let b := set_axis ((λ x, VStr ("B" +:+ py_str x)) <$> b_ids) (b_office_data p) in
  hr ← set_index "employee_id" (hr_data p);
  mret (mkPD a b hr).

Definition generate_unified_dataset (p : project_dataframes) : result DataFrame :=
  let office_dfs := [a_office_data p; b_office_data p] in
  let unified_dataset := concat office_dfs in
  let unified_dataset := merge unified_dataset (hr_data p) in
  let columns_to_drop := ["employee_office_id"; "employee_id"] in
  let unified_dataset :=
    drop_columns (filter (λ col, col ∈ columns unified_dataset) columns_to_drop)
                 unified_dataset in
  let unified_dataset := sort_index unified_dataset in
  mret unified_dataset.

End pipeline.

(** ** Numeric columns and aggregates *)

(** A numeric cell as a number, [None] for NaN; a string cell makes the
    column of dtype [object], on which the numeric operations raise. *)
Definition to_numeric (v : value) : result (option Q) :=
  match v with
  | VInt z => Ok (Some (inject_Z z))
  | VFloat q => Ok (Some q)
  | VNaN => Ok None
  | VStr _ => Raise TypeError
  end.

Definition numeric_column (c : string) (df : DataFrame) : result (list (option Q)) :=
  vs ← get_column c df; mapM to_numeric vs.

Definition of_float (o : option Q) : value :=
  match o with Some q => VFloat q | None => VNaN end.

(** The non-NaN entries of a series. *)
Definition dropna (s : list (option Q)) : list Q := omap id s.

(** ** Float arithmetic

    pandas computes the aggregates and the rounding in float64.  What such
    an operation returns is not computed here: the operations are the fields
    of a class, and a property of a query holds for whatever float64 makes
    of them.
    - [fmean l]: the mean of the values [l], at least one, in the order of
      the rows;
    - [fmidpoint a b]: [(a + b) / 2];
    - [fstd l]: the standard deviation of the values [l], at least two, with
      one delta degree of freedom;
    - [round2 x]: [x] after [round(2)]. *)
Class Float64 := {
  fmean : list Q → Q;
  fmidpoint : Q → Q → Q;
  fstd : list Q → Q;
  round2 : Q → Q
}.

(** The aggregate [mean]: NaN on a group without values. *)
Definition mean {fl : Float64} (s : list (option Q)) : option Q :=
  let l := dropna s in
  if decide (l = []) then None else Some (fmean l).

(** The aggregate [median]: the middle of the values in ascending order, and
    of evenly many the mid-point of the two in the middle. *)
Definition median {fl : Float64} (s : list (option Q)) : option Q :=
  let l := sort_by Qle_bool (dropna s) in
  let n := length l in
  if Nat.even n then
    lo ← l !! (n / 2 - 1)%nat; hi ← l !! (n / 2)%nat; Some (fmidpoint lo hi)
  else l !! (n / 2)%nat.

(** The aggregate [std], with pandas' default [ddof=1]: NaN unless two
    values are present. *)
Definition std {fl : Float64} (s : list (option Q)) : option Q :=
  let l := dropna s in
  if decide (length l ≤ 1)%nat then None else Some (fstd l).

(** [round(2)] of a cell: integers stay as they are. *)
Definition round_value {fl : Float64} (v : value) : value :=
  match v with VFloat q => VFloat (round2 q) | _ => v end.

(** ** Aggregated frames

    The result of [groupby(...).agg(...)] and of [pivot_table]: an index of
    group keys and, per column key, the cells in the order of the index. *)

Record AggFrame (K : Type) := mkAgg {
  agg_index : list value;
  agg_columns : list (K * list value)
}.
Arguments mkAgg {K} _ _.
Arguments agg_index {K} _.
Arguments agg_columns {K} _.

Definition agg_round {fl : Float64} {K} (t : AggFrame K) : AggFrame K :=
  mkAgg (agg_index t)
        ((λ c : K * list value, (c.1, round_value <$> c.2)) <$> agg_columns t).

(** [t[key]] *)
Definition agg_get {K} (eqb : K → K → bool) (key : K) (t : AggFrame K)
    : result (list value) :=
  match filter (λ c : K * list value, eqb key c.1) (agg_columns t) with
  | c :: _ => Ok c.2
  | [] => Raise KeyError
  end.

(** [a < b] on two series: false where either side is NaN. *)
Definition value_ltb (a b : value) : bool :=
  match a, b with
  | (VInt _ | VFloat _), (VInt _ | VFloat _) =>
      negb (Qle_bool (value_num b) (value_num a))
  | VStr s, VStr t => String.ltb s t
  | _, _ => false
  end.

Definition series_lt (a b : list value) : list bool := zip_with value_ltb a b.
Definition series_or (a b : list bool) : list bool := zip_with orb a b.

(** Keeping the entries of [l] at the positions where [mask] is true. *)
Definition select {A} (mask : list bool) (l : list A) : list A :=
  (filter (λ p, p.1 = true) (zip mask l)).*2.

(** [t.loc[mask]] *)
Definition agg_loc {K} (mask : list bool) (t : AggFrame K) : AggFrame K :=
  mkAgg (select mask (agg_index t))
        ((λ c : K * list value, (c.1, select mask c.2)) <$> agg_columns t).

(** [t.to_dict()]: column key, then index key, then cell. *)
Definition to_dict {K} (t : AggFrame K) : list (K * list (value * value)) :=
  (λ c : K * list value, (c.1, zip (agg_index t) c.2)) <$> agg_columns t.

(** The first element of every class of equal elements. *)
Fixpoint unique_by {A} (eqb : A → A → bool) (l : list A) : list A :=
  match l with
  | [] => []
  | x :: l => x :: filter (λ y, eqb x y = false) (unique_by eqb l)
  end.

(** Group keys: the distinct non-NaN keys in ascending order. *)
Definition group_keys (keys : list value) : list value :=
  sort_by value_leb (unique_by value_eqb (filter (λ k, value_eqb k k = true) keys)).

(** The entries of [vals] on the rows whose key equals [g]. *)
Definition group_of {A} (keys : list value) (vals : list A) (g : value) : list A :=
  select (value_eqb g <$> keys) vals.

(** [df.groupby([by]).agg(spec)]: per column of [spec] and per named
    aggregate, one cell per group. *)
Definition agg_fun : Type := list (option Q) → value.

Definition groupby_agg (by_ : string) (spec : list (string * list (string * agg_fun)))
    (df : DataFrame) : result (AggFrame (string * string)) :=
  keys ← get_column by_ df;
  let gs := group_keys keys in
  cols ← mapM (λ cs : string * list (string * agg_fun),
                 vals ← numeric_column cs.1 df;
                 mret ((λ nf : string * agg_fun,
                          ((cs.1, nf.1), (λ g, nf.2 (group_of keys vals g)) <$> gs))
                       <$> cs.2)) spec;
  mret (mkAgg gs (mjoin cols)).

(** [df.pivot_table(index=i, columns=[c1, c2], values=v, aggfunc=f)]: the
    cell of an index key and a column key aggregates the values of the rows
    carrying both; keys and column keys are those of the groups with a
    non-NaN aggregate, in ascending order, and the other cells are NaN. *)
Definition pair_eqb (a b : value * value) : bool :=
  value_eqb a.1 b.1 && value_eqb a.2 b.2.

Definition pair_leb (a b : value * value) : bool :=
  if value_eqb a.1 b.1 then value_leb a.2 b.2 else value_leb a.1 b.1.

Definition pivot_cell (ik : list value) (ck : list (value * value))
    (vals : list (option Q)) (aggfunc : list (option Q) → option Q)
    (d : value) (c : value * value) : option Q :=
  aggfunc (select (zip_with (λ i k, value_eqb d i && pair_eqb c k) ik ck) vals).

Definition pivot_present (ik : list value) (ck : list (value * value))
    (vals : list (option Q)) (aggfunc : list (option Q) → option Q)
    : list (value * (value * value)) :=
  filter (λ k : value * (value * value), is_Some (pivot_cell ik ck vals aggfunc k.1 k.2))
         (zip ik ck).

Definition pivot_index (ik : list value) (ck : list (value * value))
    (vals : list (option Q)) (aggfunc : list (option Q) → option Q) : list value :=
  sort_by value_leb (unique_by value_eqb (pivot_present ik ck vals aggfunc).*1).

Definition pivot_columns (ik : list value) (ck : list (value * value))
    (vals : list (option Q)) (aggfunc : list (option Q) → option Q)
    : list (value * value) :=
  sort_by pair_leb (unique_by pair_eqb (pivot_present ik ck vals aggfunc).*2).

Definition pivot_table (index_ : string) (columns_ : string * string) (values_ : string)
    (aggfunc : list (option Q) → option Q) (df : DataFrame)
    : result (AggFrame (value * value)) :=
  vs ← get_column values_ df;
  ik ← get_column index_ df;
  c1 ← get_column columns_.1 df;
  c2 ← get_column columns_.2 df;
  vals ← mapM to_numeric vs;
  let ck := zip c1 c2 in
  let idx := pivot_index ik ck vals aggfunc in
  let cols := pivot_columns ik ck vals aggfunc in
  mret (mkAgg idx
          ((λ c, (c, (λ d, of_float (pivot_cell ik ck vals aggfunc d c)) <$> idx)) <$> cols)).

(** [df.nlargest(n, c)] with the default [keep='first']: the rows in
    descending order of column [c], rows with equal values in their
    original order, NaN rows last; the first [n] of them. *)
Definition take_rows (indexer : list nat) (df : DataFrame) : DataFrame :=
  mkDF (columns df) (omap (λ i, rows df !! i) indexer).

Definition nlargest_indexer (n : nat) (vals : list (option Q)) : list nat :=
  let tagged := zip (seq 0 (length vals)) vals in
  let dropped := omap (λ iv : nat * option Q, pair iv.1 <$> iv.2) tagged in
  let nan_index := (filter (λ iv : nat * option Q, iv.2 = None) tagged).*1 in
  let sorted := sort_by (λ x y : nat * Q, Qle_bool y.2 x.2) dropped in
  take n (sorted.*1 ++ nan_index).

Definition nlargest (n : nat) (c : string) (df : DataFrame) : result DataFrame :=
  vals ← numeric_column c df;
  mret (take_rows (nlargest_indexer n vals) df).

(** * The queries of [DataAnalysis] *)

Definition required_columns : list string :=
  ["number_project"; "average_monthly_hours"; "time_spend_company";
   "Work_accident"; "promotion_last_5years"; "Department"; "salary";
   "satisfaction_level"; "last_evaluation"; "left"].

Definition missing_columns (dataset : DataFrame) : list string :=
  filter (λ col, col ∉ columns dataset) required_columns.

Definition validate_dataset (dataset : DataFrame) : bool :=
  if decide (missing_columns dataset = []) then true else false.

(** [(series > 5).sum()] *)
Definition count_bigger_5 (series : list (option Q)) : Z :=
  foldr Z.add 0
    ((λ x, match x with Some q => if Qle_bool q 5 then 0 else 1 | None => 0 end) <$> series).

Definition employees_metrics {fl : Float64} (dataset : DataFrame)
    : result (list ((string * string) * list (value * value))) :=
  if negb (validate_dataset dataset) then Raise (ValueError "Dataset validation failed")
  else
    result_df ← groupby_agg "left"
      [("number_project", [("median", of_float ∘ median);
                           ("count_bigger_5", VInt ∘ count_bigger_5)]);
       ("time_spend_company", [("mean", of_float ∘ mean); ("median", of_float ∘ median)]);
       ("Work_accident", [("mean", of_float ∘ mean)]);
       ("last_evaluation", [("mean", of_float ∘ mean); ("std", of_float ∘ std)])]
      dataset;
    mret (to_dict (agg_round result_df)).

Definition median_salaries_by_department {fl : Float64} (dataset : DataFrame)
    : result (list ((value * value) * list (value * value))) :=
  table ← pivot_table "Department" ("left", "salary") "average_monthly_hours"
                      median dataset;
  let table := agg_round table in
  stayed_high ← agg_get pair_eqb (VInt 0, VStr "high") table;
  stayed_medium ← agg_get pair_eqb (VInt 0, VStr "medium") table;
  let condition1 := series_lt stayed_high stayed_medium in
  left_low ← agg_get pair_eqb (VInt 1, VStr "low") table;
  left_high ← agg_get pair_eqb (VInt 1, VStr "high") table;
  let condition2 := series_lt left_low left_high in
  let filtered_result := agg_loc (series_or condition1 condition2) table in
  mret (to_dict filtered_result).

Definition top_10_departments_by_hours (dataset : DataFrame) : result (list value) :=
  top_10 ← nlargest 10 "average_monthly_hours" dataset;
  get_column "Department" top_10.

(** ** Reading a result dictionary *)




(** One pivot cell is less than another: both are present and in this order. *)
Definition cell_lt (a b : option Q) : Prop :=
  ∃ x y, a = Some x ∧ b = Some y ∧ (x < y)%Q.

Global Instance cell_lt_dec a b : Decision (cell_lt a b).
Proof.
  destruct a as [x|]; [|right; by intros (? & ? & ? & _)].
  destruct b as [y|]; [|right; by intros (? & ? & _ & ? & _)].
  destruct (decide (x < y)%Q) as [Hlt|Hnlt].
  - left. by exists x, y.
  - right. intros (? & ? & [= <-] & [= <-] & ?). done.
Defined.

(** ** Reading an aggregate *)

(** The numbers of a column are within the range in which float64 holds
    every integer: an integer cell then is its float, and no operation on
    the column overflows. *)
Definition float_exact (q : Q) : bool := Qle_bool (Qabs q) (inject_Z (2 ^ 53)).

Definition in_float_range (s : list (option Q)) : Prop :=
  Forall (λ q, float_exact q = true) (dropna s).

(** [m] is the median of the values [vs]: with the values in ascending
    order, the one in the middle, and of evenly many the float mid-point of
    the two in the middle. *)
Definition is_median {fl : Float64} (vs : list Q) (m : Q) : Prop :=
  ∃ l, l ≡ₚ vs ∧ StronglySorted Qle l ∧
    ((Nat.even (length l) = false ∧ l !! (length l / 2)%nat = Some m) ∨
     (Nat.even (length l) = true ∧
      ∃ lo hi, l !! (length l / 2 - 1)%nat = Some lo ∧
               l !! (length l / 2)%nat = Some hi ∧ m = fmidpoint lo hi)).

(** The cell [o] holds the rounded median of [vs]: NaN without a value. *)
Definition rounded_median {fl : Float64} (vs : list Q) (o : option Q) : Prop :=
  match o with
  | None => vs = []
  | Some x => ∃ m, is_median vs m ∧ x = round2 m
  end.


(** Some row of the table counts for the pivot cell of [d] and [c]: its
    index key equals [d], its column key equals [c] and its value is not
    NaN. *)
Definition pivot_row (ik : list value) (ck : list (value * value))
    (vals : list (option Q)) (d : value) (c : value * value) : Prop :=
  ∃ j dj cj h, ik !! j = Some dj ∧ ck !! j = Some cj ∧ vals !! j = Some (Some h) ∧
               value_eqb d dj = true ∧ pair_eqb c cj = true.

(** The values of the rows with index key [d] and column key [c]. *)
Definition pivot_rows_of (ik : list value) (ck : list (value * value))
    (vals : list (option Q)) (d : value) (c : value * value) : list (option Q) :=
  (filter (λ r : value * (value * value) * option Q,
             value_eqb d r.1.1 && pair_eqb c r.1.2)
          (zip (zip ik ck) vals)).*2.

(** [df] without its column [c]. *)
Definition without_column (c : string) (df : DataFrame) : DataFrame :=
  drop_columns [c] df.

(** ** Ranking of rows

    Row [i] ranks before row [j] when it has more hours, or as many and an
    earlier position in the table. *)
Definition ranks_before (hs : list Q) (i j : nat) : Prop :=
  ∃ x y, hs !! i = Some x ∧ hs !! j = Some y ∧
         (y < x ∨ (x == y ∧ (i < j)%nat))%Q.

Definition pair_before (a b : nat * Q) : Prop :=
  (b.2 < a.2 ∨ (a.2 == b.2 ∧ (a.1 < b.1)%nat))%Q.

(** The positions of the rows of a table with hours [hs], best first. *)
Definition hours_ranking (hs : list Q) : list nat :=
  (sort_by (λ x y : nat * Q, Qle_bool y.2 x.2) (zip (seq 0 (length hs)) hs)).*1.

(** ** Sample data *)

(** A stand-in for the float conversion where no float is converted. *)
Definition no_float : Q → string := λ _, "nan".

(** An instance of the float operations for the examples: exact rational
    arithmetic, rounding to hundredths with a tie to the even one, and the
    integer square root of the variance.  It stands in for float64 where an
    example needs numbers. *)
Definition exact_sum (l : list Q) : Q := foldr Qplus 0%Q l.

Definition exact_nat (n : nat) : Q := inject_Z (Z.of_nat n).

Definition exact_mean (l : list Q) : Q := Qred (exact_sum l / exact_nat (length l)).

Definition exact_midpoint (a b : Q) : Q := Qred ((a + b) / 2).

Definition exact_std (l : list Q) : Q :=
  let m := exact_mean l in
  let v := Qred (exact_sum ((λ x, (x - m) * (x - m))%Q <$> l) / exact_nat (length l - 1)) in
  Qred (inject_Z (Z.sqrt (Qnum v * Zpos (Qden v))) / inject_Z (Zpos (Qden v))).

Definition exact_rint (x : Q) : Z :=
  let f := Qfloor x in
  match (x - inject_Z f ?= 1 # 2)%Q with
  | Lt => f
  | Gt => f + 1
  | Eq => if Z.even f then f else f + 1
  end.

Definition exact_round2 (x : Q) : Q := Qred (inject_Z (exact_rint (x * 100)) / 100).

Definition exact_arithmetic : Float64 :=
  {| fmean := exact_mean; fmidpoint := exact_midpoint; fstd := exact_std;
     round2 := exact_round2 |}.

Definition ex_a_dup : DataFrame :=
  mkDF ["employee_office_id"; "x"]
    [(VInt 0, [VInt 7; VStr "p"]); (VInt 1, [VInt 7; VStr "q"])].

Definition ex_a : DataFrame :=
  mkDF ["employee_office_id"; "x"]
    [(VInt 0, [VInt 2; VStr "p"]); (VInt 1, [VInt 10; VStr "q"]);
     (VInt 2, [VInt 1; VStr "r"])].

Definition ex_b : DataFrame :=
  mkDF ["employee_office_id"; "x"]
    [(VInt 0, [VInt 2; VStr "s"])].

Definition ex_hr : DataFrame :=
  mkDF ["employee_id"; "left"]
    [(VInt 0, [VStr "A1"; VInt 0]); (VInt 1, [VStr "B2"; VInt 1]);
     (VInt 2, [VStr "A10"; VInt 0]); (VInt 3, [VStr "A2"; VInt 0]);
     (VInt 4, [VStr "B7"; VInt 0])].

Definition ex_reindexed : project_dataframes :=
  mkPD (mkDF ["employee_office_id"; "x"]
          [(VStr "A2", [VInt 2; VStr "p"]); (VStr "A10", [VInt 10; VStr "q"]);
           (VStr "A1", [VInt 1; VStr "r"])])
       (mkDF ["employee_office_id"; "x"] [(VStr "B2", [VInt 2; VStr "s"])])
       (mkDF ["left"]
          [(VStr "A1", [VInt 0]); (VStr "B2", [VInt 1]); (VStr "A10", [VInt 0]);
           (VStr "A2", [VInt 0]); (VStr "B7", [VInt 0])]).

Definition ex_empty_hr : project_dataframes :=
  mkPD (a_office_data ex_reindexed) (b_office_data ex_reindexed) (mkDF ["left"] []).

Definition mk_row (k : string) (np h t wa pr : Z) (d s : string) (sl le : Q) (l : Z)
    : value * list value :=
  (VStr k, [VInt np; VInt h; VInt t; VInt wa; VInt pr; VStr d; VStr s;
            VFloat sl; VFloat le; VInt l]).

Definition ex_15 : DataFrame :=
  mkDF ["average_monthly_hours"; "Department"]
    ((λ hd : Z * string, (VStr ("A" +:+ pretty hd.1), [VInt hd.1; VStr hd.2])) <$>
     [(107, "IT"); (100, "hr"); (114, "sales"); (103, "IT"); (110, "hr");
      (101, "sales"); (113, "IT"); (105, "support"); (112, "hr"); (102, "IT");
      (109, "sales"); (104, "hr"); (111, "support"); (106, "IT"); (108, "sales")]).

Definition ex_15_hours : list Z :=
  [107; 100; 114; 103; 110; 101; 113; 105; 112; 102; 109; 104; 111; 106; 108].

Definition ex_15_departments : list string :=
  ["IT"; "hr"; "sales"; "IT"; "hr"; "sales"; "IT"; "support"; "hr"; "IT";
   "sales"; "hr"; "support"; "IT"; "sales"].

Definition ex_stayed : DataFrame :=
  mkDF required_columns
    [mk_row "A1" 3 150 3 0 0 "IT" "high" 0.5 0.6 0;
     mk_row "A2" 6 160 4 1 0 "IT" "medium" 0.4 0.7 0;
     mk_row "A3" 7 170 5 0 0 "IT" "medium" 0.3 0.8 0].


Definition ex_u : DataFrame :=
  mkDF required_columns
    [mk_row "A1" 3 150 3 0 0 "IT" "high" 0.5 0.6 0;
     mk_row "A2" 6 160 4 1 0 "IT" "medium" 0.4 0.7 0;
     mk_row "A3" 7 170 5 0 0 "IT" "medium" 0.3 0.8 0;
     mk_row "A4" 2 200 2 0 0 "sales" "low" 0.2 0.9 1;
     mk_row "B1" 4 210 3 0 1 "sales" "high" 0.6 0.5 1;
     mk_row "B2" 5 120 6 1 0 "hr" "high" 0.7 0.4 0;
     mk_row "B3" 5 110 6 1 0 "hr" "medium" 0.7 0.4 0].

(** * The other queries of [DataAnalysis] *)

(** [series == x], [a & b] and [a > b] on series *)
Definition series_eq (s : list value) (x : value) : list bool :=
  (λ v, value_eqb v x) <$> s.

Definition series_and (a b : list bool) : list bool := zip_with andb a b.

Definition series_gt (a b : list value) : list bool := zip_with (flip value_ltb) a b.

(** [df[mask]]: the rows at the positions where [mask] is true. *)
Definition loc_rows (mask : list bool) (df : DataFrame) : DataFrame :=
  mkDF (columns df) (select mask (rows df)).

Definition is_strb (v : value) : bool :=
  match v with VStr _ => true | _ => false end.

(** The aggregates [min] and [max]: NaN on a group without values. *)
Definition agg_min (s : list (option Q)) : option Q :=
  match dropna s with
  | [] => None
  | x :: l => Some (foldl (λ a b, if Qle_bool b a then b else a) x l)
  end.

Definition agg_max (s : list (option Q)) : option Q :=
  match dropna s with
  | [] => None
  | x :: l => Some (foldl (λ a b, if Qle_bool a b then b else a) x l)
  end.

(** [df.pivot_table(index=i, columns=c, values=vs, aggfunc=fs)] with a list
    of value columns and a list of aggregates, each of which is NaN exactly
    on a group without values (as [min], [max] and [mean] are).  A group is
    a pair of an index key and a column key that some row carries; it is
    kept when one of the value columns has a value in it.  The column keys
    are the triples of an aggregate, a value column (in alphabetical order)
    and a column key for which that value column has a value. *)
Definition group_mask (ik pk : list value) (t p : value) : list bool :=
  zip_with (λ i k, value_eqb t i && value_eqb p k) ik pk.

Definition group_cell (ik pk : list value) (vals : list (option Q))
    (f : list (option Q) → option Q) (t p : value) : option Q :=
  f (select (group_mask ik pk t p) vals).

Definition has_value (ik pk : list value) (vals : list (option Q)) (g : value * value)
    : bool :=
  bool_decide (dropna (select (group_mask ik pk g.1 g.2) vals) ≠ []).

Definition multi_index (ik pk : list value) (valss : list (list (option Q)))
    : list value :=
  sort_by value_leb
    (unique_by value_eqb
       (filter (λ g : value * value, existsb (λ vals, has_value ik pk vals g) valss)
               (zip ik pk)).*1).

Definition multi_columns (ik pk : list value) (vals : list (option Q)) : list value :=
  sort_by value_leb
    (unique_by value_eqb
       (filter (λ g : value * value, has_value ik pk vals g) (zip ik pk)).*2).

Definition pivot_table_multi (index_ columns_ : string) (values_ : list string)
    (aggfuncs : list (string * (list (option Q) → option Q))) (df : DataFrame)
    : result (AggFrame (string * string * value)) :=
  vss ← mapM (λ v, get_column v df) values_;
  ik ← get_column index_ df;
  pk ← get_column columns_ df;
  valss ← mapM (mapM to_numeric) vss;
  let idx := multi_index ik pk valss in
  let named := sort_by (λ a b : string * list (option Q), String.leb a.1 b.1)
                       (zip values_ valss) in
  mret (mkAgg idx
          (aggfuncs ≫= λ nf : string * (list (option Q) → option Q),
           named ≫= λ nv : string * list (option Q),
           (λ p, ((nf.1, nv.1, p),
                  (λ t, of_float (group_cell ik pk nv.2 nf.2 t p)) <$> idx))
           <$> multi_columns ik pk nv.2)).

Definition triple_eqb (a b : string * string * value) : bool :=
  bool_decide (a.1 = b.1) && value_eqb a.2 b.2.

Definition employees_time_spend_company {fl : Float64} (dataset : DataFrame)
    : result (list ((string * string * value) * list (value * value))) :=
  table ← pivot_table_multi "time_spend_company" "promotion_last_5years"
             ["satisfaction_level"; "last_evaluation"]
             [("min", agg_min); ("max", agg_max); ("mean", mean)] dataset;
  let table := agg_round table in
  not_promoted ← agg_get triple_eqb ("mean", "last_evaluation", VInt 0) table;
  promoted ← agg_get triple_eqb ("mean", "last_evaluation", VInt 1) table;
  let condition := series_gt not_promoted promoted in
  let filtered_result := agg_loc condition table in
  mret (to_dict filtered_result).

Definition employee_ids : list string := ["A4"; "B7064"; "A3033"].

(** A column is of dtype [int64] when all its cells are integers of 64
    bits; filtering rows keeps the dtype. *)
Definition is_int64 (v : value) : bool :=
  match v with VInt z => bool_decide (- 2 ^ 63 ≤ z < 2 ^ 63) | _ => false end.

Definition is_int64_column (c : string) (df : DataFrame) : bool :=
  match get_column c df with Ok vs => forallb is_int64 vs | Raise _ => false end.

Definition ints (s : list value) : list Z :=
  omap (λ v, match v with VInt z => Some z | _ => None end) s.

Definition Zsum (l : list Z) : Z := foldr Z.add 0%Z l.

(** The value of a sum that is held in 64 bits. *)
Definition wrap64 (z : Z) : Z := (z + 2 ^ 63) `mod` 2 ^ 64 - 2 ^ 63.

Section queries.

(** [int(s.sum())] for cells [s] of a column that is not of dtype [int64]:
    a float64 sum, or Python's [+] on the cells of an object column. *)
Variable int_of_other_sum : list value → result Z.

(** [float(s)] of a string. *)
Variable float_of_str : string → result value.

(** The float operations. *)
Context {fl : Float64}.

(** [int(series.sum())], for a series taken from a column of dtype [int64]
    or not: a sum of [int64] wraps around. *)
Definition int_sum (int64 : bool) (series : list value) : result Z :=
  if int64 then Ok (wrap64 (Zsum (ints series))) else int_of_other_sum series.

Definition total_projects_it_low_salary (dataset : DataFrame) : result Z :=
  department ← get_column "Department" dataset;
  salary ← get_column "salary" dataset;
  let filtered_data :=
    loc_rows (series_and (series_eq department (VStr "IT"))
                         (series_eq salary (VStr "low"))) dataset in
  number_project ← get_column "number_project" filtered_data;
  int_sum (is_int64_column "number_project" dataset) number_project.

(** [float(x)] of a cell. *)
Definition py_float (x : value) : result value :=
  match x with
  | VInt z => Ok (VFloat (inject_Z z))
  | VFloat q => Ok (VFloat q)
  | VNaN => Ok VNaN
  | VStr s => float_of_str s
  end.

(** One turn of the loop of [specific_employees_data]: [None] stands for
    Python's [None].  [dataset.loc[emp_id, cols]] is one row when the label
    occurs once; when it occurs several times it is a frame, on whose
    columns [float] raises [TypeError]. *)
Definition specific_employee (dataset : DataFrame) (emp_id : string)
    : result (list (option value)) :=
  match filter (λ r : value * list value, value_eqb (VStr emp_id) r.1) (rows dataset) with
  | [] => Ok [None; None]
  | r :: others =>
      match col_pos "last_evaluation" (columns dataset),
            col_pos "satisfaction_level" (columns dataset) with
      | Some i, Some j =>
          match others with
          | [] =>
              last_evaluation ← py_float (cell i r.2);
              satisfaction_level ← py_float (cell j r.2);
              Ok [Some last_evaluation; Some satisfaction_level]
          | _ :: _ => Raise TypeError
          end
      | _, _ => Raise KeyError
      end
  end.

Definition specific_employees_data (dataset : DataFrame)
    : result (list (list (option value))) :=
  mapM (specific_employee dataset) employee_ids.

(** ** The report *)

Record DatasetInfo := mkInfo {
  shape : nat * nat;
  info_columns : list string;
  index_sample : list value
}.

Record Report := mkReport {
  dataset_info : DatasetInfo;
  employee_metrics : list ((string * string) * list (value * value));
  department_analysis : list ((value * value) * list (value * value));
  time_analysis : list ((string * string * value) * list (value * value));
  top_departments : list value;
  it_projects_total : Z;
  specific_employees : list (list (option value))
}.

(** [unified_dataset] is [self.project_dataframes.get('unified_dataset')]:
    [None] until [prepare_project_structure] has stored the table. *)
Definition generate_comprehensive_report (unified_dataset : option DataFrame)
    : result Report :=
  match unified_dataset with
  | None => Raise (ValueError "Unified dataset not available")
  | Some dataset =>
      let info := mkInfo (length (rows dataset), length (columns dataset))
                         (columns dataset) (take 10 (index dataset)) in
      employee_metrics ← employees_metrics dataset;
      department_analysis ← median_salaries_by_department dataset;
      time_analysis ← employees_time_spend_company dataset;
      top_departments ← top_10_departments_by_hours dataset;
      it_projects_total ← total_projects_it_low_salary dataset;
      specific_employees ← specific_employees_data dataset;
      mret (mkReport info employee_metrics department_analysis time_analysis
                     top_departments it_projects_total specific_employees)
  end.

(** ** Preparing the data *)

(** The conversion of a float to a string, as in [reindex_dataframes]. *)
Variable float_str : Q → string.

(** The steps of [prepare_project_structure] on files and the network
    ([check_directory], [check_necessary_files], [create_dataframes]): they
    raise, or leave the three loaded sources. *)
Variable load_sources : result project_dataframes.

(** The state of a [DataAnalysis] object after [prepare_project_structure]. *)
Record prepared := mkPrepared {
  dataframes : project_dataframes;
  unified_dataset : option DataFrame
}.

Definition prepare_project_structure : result prepared :=
  sources ← load_sources;
  reindexed ← reindex_dataframes float_str sources;
  unified_dataset ← generate_unified_dataset reindexed;
  mret (mkPrepared reindexed (Some unified_dataset)).

End queries.

(** ** More sample data *)

Definition no_other_sum : list value → result Z := λ _, Raise TypeError.
Definition no_float_of_str : string → result value := λ _, Raise (ValueError "float").

(** Two rows of the IT department with a low salary and 2^62 projects each. *)
Definition ex_it_big : DataFrame :=
  mkDF required_columns
    [mk_row "A1" (2 ^ 62) 150 3 0 0 "IT" "low" 0.5 0.8 0;
     mk_row "A2" (2 ^ 62) 160 4 1 0 "IT" "low" 0.4 0.7 0].

Definition ex_it : DataFrame :=
  mkDF required_columns
    [mk_row "A4" 2 150 3 0 0 "IT" "low" 0.5 0.8 0;
     mk_row "A7" 3 160 4 1 0 "IT" "low" 0.4 0.7 0;
     mk_row "B2" 5 170 4 0 1 "IT" "low" 0.3 0.9 1;
     mk_row "B9" 100 200 2 0 0 "sales" "low" 0.2 0.9 1].

(** ** Rows by column name *)

(** The cell of row [r] of [df] in the column called [c]. *)
Definition field (c : string) (df : DataFrame) (r : value * list value) : option value :=
  i ← col_pos c (columns df); Some (cell i r.2).

Definition int_cells (s : list (option value)) : list Z :=
  omap (λ v, match v with Some (VInt z) => Some z | _ => None end) s.

(** The rows of the IT department with a low salary. *)
Definition it_low_salary (df : DataFrame) : list (value * list value) :=
  filter (λ r, field "Department" df r = Some (VStr "IT") ∧
               field "salary" df r = Some (VStr "low")) (rows df).

(** [float(x)] of a cell that is not a string. *)
Definition as_float (v : value) : value :=
  match v with VInt z => VFloat (inject_Z z) | _ => v end.

(** Row [r] of the unified table [u] joins the office row [ro] of [office]
    and the HR row [rh]: it has the label of [ro], the cells of [ro] in the
    office columns (NaN in a column the office does not have) and those of
    [rh] in the HR columns. *)
Definition joins (p : project_dataframes) (u office : DataFrame)
    (ro rh r : value * list value) : Prop :=
  r.1 = ro.1 ∧
  ∀ c, c ∉ ["employee_office_id"; "employee_id"] →
    (c ∈ columns (a_office_data p) ∨ c ∈ columns (b_office_data p) →
     field c u r = Some (default VNaN (field c office ro))) ∧
    (c ∈ columns (hr_data p) → field c u r = field c (hr_data p) rh).

(** ** Reading the time analysis *)

(** Some row counts for the cell of time [t] and promotion [p]: its time
    equals [t], its promotion equals [p] and its value is not NaN. *)
Definition time_row (ts ps : list value) (vals : list (option Q)) (t p : value) : Prop :=
  ∃ j tj pj h, ts !! j = Some tj ∧ ps !! j = Some pj ∧ vals !! j = Some (Some h) ∧
               value_eqb t tj = true ∧ value_eqb p pj = true.

(** The values of the rows with time [t] and promotion [p]. *)
Definition time_rows_of (ts ps : list value) (vals : list (option Q)) (t p : value)
    : list (option Q) :=
  (filter (λ r : value * value * option Q, value_eqb t r.1.1 && value_eqb p r.1.2)
          (zip (zip ts ps) vals)).*2.

(** The aggregate of a name. *)
Definition aggregate {fl : Float64} (name : string) : list (option Q) → option Q :=
  if decide (name = "min") then agg_min
  else if decide (name = "max") then agg_max else mean.

(** The cell [o] of the aggregate called [name] over the values [vs]: NaN
    without a value; otherwise the smallest value, the largest value or the
    float mean of the values, after [round(2)]. *)
Definition time_cell {fl : Float64} (name : string) (vs : list Q) (o : option Q) : Prop :=
  match o with
  | None => vs = []
  | Some x =>
      ∃ a, x = round2 a ∧
        ((name = "min" ∧ a ∈ vs ∧ Forall (λ y, (a <= y)%Q) vs) ∨
         (name = "max" ∧ a ∈ vs ∧ Forall (λ y, (y <= a)%Q) vs) ∨
         (name = "mean" ∧ a = fmean vs))
  end.

(** The column [c] holds floats: no cell of it is an integer. *)
Definition float_column (c : string) (df : DataFrame) : Prop :=
  ∃ vs, get_column c df = Ok vs ∧ Forall (λ v, is_int v = false) vs.
(** * Properties *)

(** Closing a decidable goal on closed data by evaluation. *)
Ltac by_compute := apply (bool_decide_unpack _); by vm_compute.

(** ** The insertion sort *)

Section sort_by_facts.
Context {A : Type} (leb : A → A → bool).

Lemma insert_by_perm x l : insert_by leb x l ≡ₚ x :: l.
Proof.
  induction l as [|y l IH]; simpl; [done|].
  destruct (leb x y); [done|]. by rewrite IH, Permutation_swap.
Qed.

Lemma sort_by_perm l : sort_by leb l ≡ₚ l.
Proof.
  induction l as [|x l IH]; simpl; [done|].
  by rewrite insert_by_perm, IH.
Qed.

Lemma sort_by_length l : length (sort_by leb l) = length l.
Proof. by rewrite sort_by_perm. Qed.

Lemma elem_of_sort_by x l : x ∈ sort_by leb l ↔ x ∈ l.
Proof. by rewrite sort_by_perm. Qed.

Hypothesis leb_total : ∀ x y, leb x y = true ∨ leb y x = true.
Hypothesis leb_trans : ∀ x y z, leb x y = true → leb y z = true → leb x z = true.

Lemma insert_by_sorted x l :
  StronglySorted (λ a b, leb a b = true) l →
  StronglySorted (λ a b, leb a b = true) (insert_by leb x l).
Proof.
  induction 1 as [|y l Hs IH Hy]; simpl; [repeat constructor|].
  destruct (leb x y) eqn:Hxy.
  - constructor; [by constructor|].
    constructor; [done|]. eapply Forall_impl; [exact Hy|]. eauto.
  - constructor; [done|].
    rewrite insert_by_perm. constructor; [|done].
    by destruct (leb_total x y) as [?|?]; [congruence|].
Qed.

Lemma sort_by_sorted l : StronglySorted (λ a b, leb a b = true) (sort_by leb l).
Proof.
  induction l; simpl; [constructor|]. by apply insert_by_sorted.
Qed.
End sort_by_facts.

Lemma insert_by_fmap {A B} (f : A → B) (leb : B → B → bool) x l :
  f <$> insert_by (λ a b, leb (f a) (f b)) x l = insert_by leb (f x) (f <$> l).
Proof.
  induction l as [|y l IH]; csimpl; [done|].
  destruct (leb (f x) (f y)); csimpl; [done|]. by rewrite IH.
Qed.

Lemma sort_by_fmap {A B} (f : A → B) (leb : B → B → bool) l :
  f <$> sort_by (λ a b, leb (f a) (f b)) l = sort_by leb (f <$> l).
Proof.
  unfold sort_by. induction l as [|x l IH]; csimpl; [done|].
  by rewrite insert_by_fmap, IH.
Qed.

(** ** Lexical order of strings *)

Lemma ascii_compare_lt_trans a b c :
  Ascii.compare a b = Lt → Ascii.compare b c = Lt → Ascii.compare a c = Lt.
Proof.
  unfold Ascii.compare. rewrite !N.compare_lt_iff. apply N.lt_trans.
Qed.

Lemma string_leb_trans x y z :
  String.leb x y = true → String.leb y z = true → String.leb x z = true.
Proof.
  unfold String.leb. revert y z.
  induction x as [|a x IH]; intros [|b y] [|c z]; simpl; try done.
  destruct (Ascii.compare a b) eqn:Hab; [| |done];
    (destruct (Ascii.compare b c) eqn:Hbc; [| |done]).
  - apply Ascii.compare_eq_iff in Hab as ->. rewrite Hbc. apply IH.
  - apply Ascii.compare_eq_iff in Hab as ->. by rewrite Hbc.
  - apply Ascii.compare_eq_iff in Hbc as <-. by rewrite Hab.
  - by rewrite (ascii_compare_lt_trans a b c).
Qed.

Lemma sort_by_value_leb_strings (keys : list string) :
  sort_by value_leb (VStr <$> keys) = VStr <$> sort_by String.leb keys.
Proof. symmetry. apply (sort_by_fmap VStr value_leb). Qed.

(** ** Equality of labels *)

Lemma value_eqb_str s v : value_eqb (VStr s) v = true ↔ v = VStr s.
Proof.
  destruct v; simpl; try (split; [done|congruence]).
  rewrite bool_decide_eq_true. split; congruence.
Qed.

(** ** How the frame operations act on the index *)

Lemma get_column_length c df vs :
  get_column c df = Ok vs → length vs = length (rows df).
Proof.
  unfold get_column. destruct (col_pos c (columns df)); [|done].
  intros [= <-]. by rewrite length_fmap.
Qed.

Lemma col_pos_Some c cols : c ∈ cols → is_Some (col_pos c cols).
Proof.
  induction cols as [|c' cols IH]; [by intros ?%elem_of_nil|].
  simpl. destruct (decide (c = c')); [by eexists|].
  intros [?|Hin]%elem_of_cons; [done|].
  destruct (IH Hin) as [i ->]. by eexists.
Qed.

Lemma col_pos_None c cols : c ∉ cols → col_pos c cols = None.
Proof.
  induction cols as [|c' cols IH]; [done|].
  rewrite not_elem_of_cons. intros [? ?]. simpl.
  destruct (decide (c = c')); [done|]. by rewrite IH.
Qed.

Lemma get_column_is_Ok c df : c ∈ columns df → ∃ vs, get_column c df = Ok vs.
Proof.
  intros [i Hi]%col_pos_Some. unfold get_column. rewrite Hi. by eexists.
Qed.

Lemma index_set_axis labels df :
  length labels = length (rows df) → index (set_axis labels df) = labels.
Proof.
  intros Hl. unfold index, set_axis; simpl.
  apply fst_zip. rewrite length_fmap. lia.
Qed.

Lemma cells_set_axis labels df :
  length labels = length (rows df) → (rows (set_axis labels df)).*2 = (rows df).*2.
Proof.
  intros Hl. unfold set_axis; simpl.
  apply snd_zip. rewrite length_fmap. lia.
Qed.

Lemma rows_set_axis_length labels df :
  length labels = length (rows df) →
  length (rows (set_axis labels df)) = length (rows df).
Proof.
  intros Hl. unfold set_axis; simpl.
  rewrite length_zip_with, length_fmap. lia.
Qed.

Lemma index_drop_columns cs df : index (drop_columns cs df) = index df.
Proof.
  unfold index, drop_columns; simpl.
  rewrite <-list_fmap_compose. by apply list_fmap_ext; intros ? [].
Qed.

Lemma columns_drop_columns cs df c :
  c ∈ columns (drop_columns cs df) ↔ c ∈ columns df ∧ c ∉ cs.
Proof. unfold drop_columns; simpl. rewrite list_elem_of_filter. tauto. Qed.

Lemma index_sort_index df : index (sort_index df) = sort_by value_leb (index df).
Proof. unfold index, sort_index; simpl. apply (sort_by_fmap fst value_leb). Qed.

Lemma index_concat2 a b : index (concat [a; b]) = index a ++ index b.
Proof.
  unfold index, concat; simpl.
  rewrite app_nil_r, fmap_app, <-!list_fmap_compose.
  f_equal; by apply list_fmap_ext; intros ? [].
Qed.

Lemma index_merge l r :
  index (merge l r) =
  index l ≫= λ k, filter (λ k', value_eqb k k') (index r) ≫= λ _, [k].
Proof.
  unfold index, merge; simpl.
  induction (rows l) as [|[k cs] ls IH]; csimpl; [done|].
  rewrite fmap_app, IH. f_equal. clear IH.
  induction (rows r) as [|[k' cs'] rs IH]; csimpl; [done|].
  rewrite !filter_cons; simpl.
  destruct (value_eqb k k') eqn:E; csimpl; [|done].
  by f_equal.
Qed.

(** ** The inner join on the index *)

Lemma filter_value_eqb_str s ks :
  NoDup ks →
  filter (λ k', value_eqb (VStr s) k') ks = if decide (VStr s ∈ ks) then [VStr s] else [].
Proof.
  induction 1 as [|k ks Hk Hnd IH]; [done|].
  rewrite filter_cons, IH.
  destruct (decide (value_eqb (VStr s) k)) as [E|E].
  - apply Is_true_true, value_eqb_str in E as ->.
    destruct (decide (VStr s ∈ ks)); [done|].
    destruct (decide (VStr s ∈ VStr s :: ks)) as [|[]]; [done|set_solver].
  - destruct (decide (VStr s ∈ ks)) as [Hin|Hin];
      destruct (decide (VStr s ∈ k :: ks)) as [Hin'|Hin']; try done; [set_solver|].
    apply elem_of_cons in Hin' as [<-|?]; [|done].
    destruct E. by apply Is_true_true, value_eqb_str.
Qed.

Lemma index_merge_filter l r :
  Forall is_str (index l) → NoDup (index r) →
  index (merge l r) = filter (λ k, k ∈ index r) (index l).
Proof.
  intros Hstr Hnd. rewrite index_merge.
  induction Hstr as [|k ks [s ->] _ IH]; [done|].
  rewrite bind_cons, IH, filter_cons, filter_value_eqb_str by done.
  by destruct (decide (VStr s ∈ index r)).
Qed.

Lemma index_merge_Forall (P : value → Prop) l r :
  Forall P (index l) → Forall P (index (merge l r)).
Proof.
  intros HP. rewrite index_merge.
  induction HP as [|k ks Hk _ IH]; csimpl; [done|].
  apply Forall_app; split; [|done].
  induction (filter _ (index r)); csimpl; by constructor.
Qed.

Lemma index_merge_nil_l l r : rows l = [] → rows (merge l r) = [].
Proof. unfold merge; simpl. by intros ->. Qed.

Lemma index_merge_nil_r l r : rows r = [] → rows (merge l r) = [].
Proof.
  unfold merge; simpl. intros ->.
  by induction (rows l).
Qed.

Lemma rows_index_length df : length (index df) = length (rows df).
Proof. apply length_fmap. Qed.

Lemma strings_of_is_str (l : list value) :
  Forall is_str l → ∃ keys : list string, l = VStr <$> keys.
Proof.
  induction 1 as [|k l [s ->] _ [keys ->]]; [by exists []|].
  by exists (s :: keys).
Qed.

(** ** The unified dataset *)

Lemma drop_present_absent c cs df :
  c ∈ cs → c ∉ columns (drop_columns (filter (λ col, col ∈ columns df) cs) df).
Proof.
  intros Hc [Hin Hnot]%columns_drop_columns. by apply Hnot, list_elem_of_filter.
Qed.

Lemma generate_unified_dataset_Ok p :
  ∃ u, generate_unified_dataset p = Ok u ∧
    index u = sort_by value_leb
                (index (merge (concat [a_office_data p; b_office_data p]) (hr_data p))) ∧
    ("employee_office_id" ∉ columns u) ∧ ("employee_id" ∉ columns u).
Proof.
  eexists. split; [reflexivity|].
  split; [by rewrite index_sort_index, index_drop_columns|].
  split; apply (drop_present_absent _ ["employee_office_id"; "employee_id"]);
    set_solver.
Qed.

(** ** The reindexing *)

Section pipeline_facts.

Variable float_str : Q → string.

Lemma reindex_dataframes_Ok p a_ids b_ids hr_ids :
  get_column "employee_office_id" (a_office_data p) = Ok a_ids →
  get_column "employee_office_id" (b_office_data p) = Ok b_ids →
  get_column "employee_id" (hr_data p) = Ok hr_ids →
  reindex_dataframes float_str p =
    Ok (mkPD (set_axis (office_keys float_str "A" a_ids) (a_office_data p))
             (set_axis (office_keys float_str "B" b_ids) (b_office_data p))
             (drop_columns ["employee_id"] (set_axis hr_ids (hr_data p)))).
Proof.
  intros Ha Hb Hhr. unfold reindex_dataframes, set_index.
  by rewrite Ha, Hb, Hhr.
Qed.

Lemma reindex_dataframes_inv p p' :
  reindex_dataframes float_str p = Ok p' →
  ∃ a_ids b_ids hr_ids,
    get_column "employee_office_id" (a_office_data p) = Ok a_ids ∧
    get_column "employee_office_id" (b_office_data p) = Ok b_ids ∧
    get_column "employee_id" (hr_data p) = Ok hr_ids ∧
    p' = mkPD (set_axis (office_keys float_str "A" a_ids) (a_office_data p))
              (set_axis (office_keys float_str "B" b_ids) (b_office_data p))
              (drop_columns ["employee_id"] (set_axis hr_ids (hr_data p))).
Proof.
  unfold reindex_dataframes, set_index.
  destruct (get_column _ (a_office_data p)) as [a_ids|] eqn:Ha; [|done].
  destruct (get_column _ (b_office_data p)) as [b_ids|] eqn:Hb; [|done].
  destruct (get_column _ (hr_data p)) as [hr_ids|] eqn:Hhr; [|done].
  intros [= <-]. by exists a_ids, b_ids, hr_ids.
Qed.

Lemma office_keys_length prefix ids :
  length (office_keys float_str prefix ids) = length ids.
Proof. apply length_fmap. Qed.

Lemma office_keys_NoDup prefix ids :
  Forall is_int ids → NoDup ids → NoDup (office_keys float_str prefix ids).
Proof.
  intros Hint Hnd. apply NoDup_fmap_2_strong; [|done].
  intros x y Hx Hy [= Heq].
  rewrite Forall_forall in Hint.
  pose proof (Hint x Hx) as Hix. pose proof (Hint y Hy) as Hiy.
  destruct x, y; try done. simpl in Heq.
  apply (inj (String.app prefix)) in Heq.
  by apply (inj pretty) in Heq as ->.
Qed.

Lemma index_reindexed_office prefix ids df :
  get_column "employee_office_id" df = Ok ids →
  index (set_axis (office_keys float_str prefix ids) df) =
    office_keys float_str prefix ids.
Proof.
  intros Hids%get_column_length. apply index_set_axis.
  by rewrite office_keys_length.
Qed.

(** C7. An office table whose raw ids are integers without repetition keeps
    its rows, in their order, and receives as many distinct keys, each the
    office letter followed by the decimal form of the row's raw id. *)
Theorem reindex_dataframes_office_keys p a_ids b_ids :
  get_column "employee_office_id" (a_office_data p) = Ok a_ids →
  get_column "employee_office_id" (b_office_data p) = Ok b_ids →
  "employee_id" ∈ columns (hr_data p) →
  ∃ p', reindex_dataframes float_str p = Ok p' ∧
    (length (rows (a_office_data p')) = length (rows (a_office_data p)) ∧
     columns (a_office_data p') = columns (a_office_data p) ∧
     (rows (a_office_data p')).*2 = (rows (a_office_data p)).*2 ∧
     index (a_office_data p') = (λ x, VStr ("A" +:+ py_str float_str x)) <$> a_ids ∧
     (Forall is_int a_ids → NoDup a_ids →
      NoDup (index (a_office_data p')) ∧
      length (index (a_office_data p')) = length (rows (a_office_data p)))) ∧
    (length (rows (b_office_data p')) = length (rows (b_office_data p)) ∧
     columns (b_office_data p') = columns (b_office_data p) ∧
     (rows (b_office_data p')).*2 = (rows (b_office_data p)).*2 ∧
     index (b_office_data p') = (λ x, VStr ("B" +:+ py_str float_str x)) <$> b_ids ∧
     (Forall is_int b_ids → NoDup b_ids →
      NoDup (index (b_office_data p')) ∧
      length (index (b_office_data p')) = length (rows (b_office_data p)))).
Proof.
  intros Ha Hb [hr_ids Hhr]%get_column_is_Ok.
  eexists. split; [by apply reindex_dataframes_Ok|]. simpl.
  pose proof (get_column_length _ _ _ Ha) as Hla.
  pose proof (get_column_length _ _ _ Hb) as Hlb.
  split.
  - split; [apply rows_set_axis_length; by rewrite office_keys_length|].
    split; [done|].
    split; [apply cells_set_axis; by rewrite office_keys_length|].
    split; [by apply index_reindexed_office|].
    intros Hint Hnd. rewrite (index_reindexed_office _ _ _ Ha).
    split; [by apply office_keys_NoDup|]. by rewrite office_keys_length.
  - split; [apply rows_set_axis_length; by rewrite office_keys_length|].
    split; [done|].
    split; [apply cells_set_axis; by rewrite office_keys_length|].
    split; [by apply index_reindexed_office|].
    intros Hint Hnd. rewrite (index_reindexed_office _ _ _ Hb).
    split; [by apply office_keys_NoDup|]. by rewrite office_keys_length.
Qed.

(** C4 (as the code behaves). When the identifier columns are present the
    reindexing never fails: each table is indexed by its derived keys as
    they are, so repeated raw ids give repeated keys. *)
Theorem reindex_dataframes_keeps_duplicates p a_ids b_ids hr_ids :
  get_column "employee_office_id" (a_office_data p) = Ok a_ids →
  get_column "employee_office_id" (b_office_data p) = Ok b_ids →
  get_column "employee_id" (hr_data p) = Ok hr_ids →
  ∃ p', reindex_dataframes float_str p = Ok p' ∧
    index (a_office_data p') = office_keys float_str "A" a_ids ∧
    index (b_office_data p') = office_keys float_str "B" b_ids ∧
    index (hr_data p') = hr_ids ∧
    (¬ NoDup a_ids → ¬ NoDup (index (a_office_data p'))) ∧
    (¬ NoDup b_ids → ¬ NoDup (index (b_office_data p'))) ∧
    (¬ NoDup hr_ids → ¬ NoDup (index (hr_data p'))).
Proof.
  intros Ha Hb Hhr.
  eexists. split; [by apply reindex_dataframes_Ok|]. simpl.
  rewrite (index_reindexed_office _ _ _ Ha), (index_reindexed_office _ _ _ Hb).
  rewrite index_drop_columns, index_set_axis by by eapply get_column_length.
  repeat split; try done.
  - intros Hd Hnd. by apply Hd, (NoDup_fmap_1 _ _ Hnd).
  - intros Hd Hnd. by apply Hd, (NoDup_fmap_1 _ _ Hnd).
Qed.

Lemma reindexed_office_index p p' :
  reindex_dataframes float_str p = Ok p' →
  ∃ a_ids b_ids,
    index (a_office_data p') = office_keys float_str "A" a_ids ∧
    index (b_office_data p') = office_keys float_str "B" b_ids.
Proof.
  intros (a_ids & b_ids & hr_ids & Ha & Hb & _ & ->)%reindex_dataframes_inv.
  exists a_ids, b_ids. simpl.
  by rewrite (index_reindexed_office _ _ _ Ha), (index_reindexed_office _ _ _ Hb).
Qed.

Lemma office_keys_is_str prefix ids : Forall is_str (office_keys float_str prefix ids).
Proof. apply Forall_fmap, Forall_true. intros x. by eexists. Qed.

Lemma office_keys_disjoint a_ids b_ids k :
  k ∈ office_keys float_str "A" a_ids → k ∉ office_keys float_str "B" b_ids.
Proof.
  intros (x & -> & _)%list_elem_of_fmap (y & [=] & _)%list_elem_of_fmap.
Qed.

(** C1. With keys unique within each reindexed table, the unified table has
    one row for each key that is both an office key and an HR key, and no
    other row: its row count is the cardinality of the intersection of the
    two key sets, and at most the smaller of the two row counts. *)
Theorem unified_row_count p p' :
  reindex_dataframes float_str p = Ok p' →
  NoDup (index (a_office_data p')) →
  NoDup (index (b_office_data p')) →
  NoDup (index (hr_data p')) →
  let office := index (a_office_data p') ++ index (b_office_data p') in
  let hr := index (hr_data p') in
  ∃ u, generate_unified_dataset p' = Ok u ∧
    NoDup (index u) ∧
    (∀ k, k ∈ index u ↔ k ∈ office ∧ k ∈ hr) ∧
    length (rows u) = size (list_to_set office ∩ list_to_set hr : gset value) ∧
    (length (rows u) ≤
       (length (rows (a_office_data p')) + length (rows (b_office_data p')))
       `min` length (rows (hr_data p')))%nat.
Proof.
  intros Hre Hnda Hndb Hndhr office hr.
  destruct (reindexed_office_index _ _ Hre) as (a_ids & b_ids & Hia & Hib).
  destruct (generate_unified_dataset_Ok p') as (u & Hu & Hidx & _).
  exists u. split; [done|].
  assert (NoDup office) as Hndo.
  { apply NoDup_app. split; [done|]. split; [|done].
    intros k. rewrite Hia, Hib. apply office_keys_disjoint. }
  assert (Forall is_str office) as Hstr.
  { apply Forall_app. rewrite Hia, Hib. split; apply office_keys_is_str. }
  assert (index u ≡ₚ filter (λ k, k ∈ hr) office) as Hperm.
  { rewrite Hidx, sort_by_perm, index_merge_filter; [|by rewrite index_concat2|done].
    by rewrite index_concat2. }
  assert (length (rows u) = length (filter (λ k, k ∈ hr) office)) as Hlen.
  { by rewrite <-rows_index_length, Hperm. }
  assert (NoDup (filter (λ k, k ∈ hr) office)) as Hndf by by apply NoDup_filter.
  split; [by rewrite Hperm|].
  split; [intros k; by rewrite Hperm, list_elem_of_filter, (comm (∧))|].
  split.
  - rewrite Hlen, <-(size_list_to_set (C:=gset value)) by done.
    f_equal. apply set_eq. intros k.
    rewrite elem_of_intersection, !elem_of_list_to_set, list_elem_of_filter. tauto.
  - rewrite Hlen. apply Nat.min_glb.
    + rewrite <-!rows_index_length, <-length_app. apply length_filter.
    + rewrite <-rows_index_length. apply submseteq_length, NoDup_submseteq; [done|].
      by intros k [? _]%list_elem_of_filter.
Qed.

(** C8. Every key of the unified table is a string that starts with [A] or
    [B], the rows are in ascending lexical order of these strings (so [A1]
    comes before [A10], which comes before [A2]), and neither raw
    identifier column is a column of the table. *)
Theorem unified_keys_tagged_sorted p p' u :
  reindex_dataframes float_str p = Ok p' →
  generate_unified_dataset p' = Ok u →
  (∃ keys : list string,
     index u = VStr <$> keys ∧
     Forall (λ s, ∃ t, s = "A" +:+ t ∨ s = "B" +:+ t) keys ∧
     StronglySorted (λ s t, String.leb s t = true) keys) ∧
  ("employee_office_id" ∉ columns u) ∧ ("employee_id" ∉ columns u) ∧
  String.ltb "A1" "A10" = true ∧ String.ltb "A10" "A2" = true.
Proof.
  intros Hre Hu.
  destruct (reindexed_office_index _ _ Hre) as (a_ids & b_ids & Hia & Hib).
  destruct (generate_unified_dataset_Ok p') as (u' & Hu' & Hidx & Hc1 & Hc2).
  assert (u' = u) as -> by congruence.
  split; [|done].
  set (m := merge _ _) in Hidx.
  set (tag := λ k, ∃ t, k = VStr ("A" +:+ t) ∨ k = VStr ("B" +:+ t)).
  assert (Forall tag (index m)) as Htag.
  { apply index_merge_Forall. rewrite index_concat2, Hia, Hib.
    apply Forall_app; split; apply Forall_fmap, Forall_true; intros x; eexists; eauto. }
  destruct (strings_of_is_str (index m)) as [keys Hkeys].
  { eapply Forall_impl; [exact Htag|]. intros k [t [->| ->]]; by eexists. }
  exists (sort_by String.leb keys).
  split; [by rewrite Hidx, Hkeys, sort_by_value_leb_strings|].
  split.
  - rewrite Hkeys, Forall_fmap in Htag.
    apply Forall_forall. intros s Hs%elem_of_sort_by.
    rewrite Forall_forall in Htag. destruct (Htag s Hs) as [t [[=]|[=]]]; eauto.
  - apply sort_by_sorted; [apply String.leb_total|apply string_leb_trans].
Qed.

End pipeline_facts.

Lemma reindex_dataframes_office_keys_witness :
  ∃ p', reindex_dataframes no_float (mkPD ex_a ex_b ex_hr) = Ok p' ∧
    index (a_office_data p') = [VStr "A2"; VStr "A10"; VStr "A1"] ∧
    NoDup (index (a_office_data p')).
Proof.
  destruct (reindex_dataframes_office_keys no_float (mkPD ex_a ex_b ex_hr)
              [VInt 2; VInt 10; VInt 1] [VInt 2])
    as (p' & Hp' & (_ & _ & _ & Hidx & Hnd) & _).
  - reflexivity.
  - reflexivity.
  - simpl. set_solver.
  - exists p'. split; [exact Hp'|]. split; [exact Hidx|].
    apply Hnd; [by repeat constructor|].
    by_compute.
Defined.

(** C4, refuted as stated: a table with the raw id 7 twice is reindexed
    without error, and both rows receive the key [A7]. *)
Lemma reindex_dataframes_duplicate_ids :
  get_column "employee_office_id" ex_a_dup = Ok [VInt 7; VInt 7] ∧
  ¬ NoDup (office_keys no_float "A" [VInt 7; VInt 7]) ∧
  reindex_dataframes no_float (mkPD ex_a_dup ex_b ex_hr) =
    Ok (mkPD (mkDF ["employee_office_id"; "x"]
                [(VStr "A7", [VInt 7; VStr "p"]); (VStr "A7", [VInt 7; VStr "q"])])
             (mkDF ["employee_office_id"; "x"] [(VStr "B2", [VInt 2; VStr "s"])])
             (mkDF ["left"]
                [(VStr "A1", [VInt 0]); (VStr "B2", [VInt 1]); (VStr "A10", [VInt 0]);
                 (VStr "A2", [VInt 0]); (VStr "B7", [VInt 0])])).
Proof.
  split; [reflexivity|]. split; [|by vm_compute].
  intros Hnd. apply NoDup_cons_1_1 in Hnd. apply Hnd. vm_compute. by left.
Qed.

Lemma reindex_dataframes_keeps_duplicates_witness :
  ∃ p', reindex_dataframes no_float (mkPD ex_a_dup ex_b ex_hr) = Ok p' ∧
    index (a_office_data p') = [VStr "A7"; VStr "A7"] ∧
    ¬ NoDup (index (a_office_data p')).
Proof.
  destruct (reindex_dataframes_keeps_duplicates no_float (mkPD ex_a_dup ex_b ex_hr)
              [VInt 7; VInt 7] [VInt 2]
              [VStr "A1"; VStr "B2"; VStr "A10"; VStr "A2"; VStr "B7"])
    as (p' & Hp' & Hidx & _ & _ & Hdup & _); [reflexivity..|].
  exists p'. split; [exact Hp'|]. split; [exact Hidx|].
  apply Hdup. by_compute.
Defined.

Lemma unified_row_count_witness :
  ∃ u, generate_unified_dataset ex_reindexed = Ok u ∧ length (rows u) = 4%nat.
Proof.
  destruct (unified_row_count no_float (mkPD ex_a ex_b ex_hr) ex_reindexed)
    as (u & Hu & _ & _ & Hsize & _).
  - reflexivity.
  - by_compute.
  - by_compute.
  - by_compute.
  - exists u. split; [exact Hu|]. rewrite Hsize. by vm_compute.
Defined.

Lemma unified_keys_tagged_sorted_witness :
  ∃ keys : list string,
    [VStr "A1"; VStr "A10"; VStr "A2"; VStr "B2"] = VStr <$> keys ∧
    StronglySorted (λ s t, String.leb s t = true) keys.
Proof.
  destruct (unified_keys_tagged_sorted no_float (mkPD ex_a ex_b ex_hr) ex_reindexed
              (mkDF ["x"; "left"]
                 [(VStr "A1", [VStr "r"; VInt 0]); (VStr "A10", [VStr "q"; VInt 0]);
                  (VStr "A2", [VStr "p"; VInt 0]); (VStr "B2", [VStr "s"; VInt 1])]))
    as [(keys & Hkeys & _ & Hsorted) _].
  - reflexivity.
  - reflexivity.
  - exists keys. split; [exact Hkeys|exact Hsorted].
Defined.

Example unified_dataset_ex :
  (p ← reindex_dataframes no_float (mkPD ex_a ex_b ex_hr); generate_unified_dataset p) =
    Ok (mkDF ["x"; "left"]
          [(VStr "A1", [VStr "r"; VInt 0]); (VStr "A10", [VStr "q"; VInt 0]);
           (VStr "A2", [VStr "p"; VInt 0]); (VStr "B2", [VStr "s"; VInt 1])]).
Proof. by vm_compute. Qed.

(** ** Degenerate inputs of the unifier *)

Lemma generate_unified_dataset_no_rows p u :
  generate_unified_dataset p = Ok u →
  rows (merge (concat [a_office_data p; b_office_data p]) (hr_data p)) = [] →
  rows u = [].
Proof.
  unfold generate_unified_dataset. intros [= <-] Hm.
  unfold sort_index, drop_columns. cbn [rows]. by rewrite Hm.
Qed.

(** C9, refuted as stated: with an empty HR table the unifier raises
    nothing and returns a table without rows. *)
Lemma generate_unified_dataset_empty_hr :
  rows (hr_data ex_empty_hr) = [] ∧
  generate_unified_dataset ex_empty_hr = Ok (mkDF ["x"; "left"] []).
Proof. split; reflexivity. Qed.

(** C9 (as the code behaves). The unifier raises on no input triple, empty
    tables included; when the HR table is empty, or both office tables are,
    the table it returns has no rows. *)
Theorem generate_unified_dataset_never_raises p :
  ∃ u, generate_unified_dataset p = Ok u ∧
    (rows (hr_data p) = [] → rows u = []) ∧
    (rows (a_office_data p) = [] → rows (b_office_data p) = [] → rows u = []).
Proof.
  eexists. split; [reflexivity|]. split.
  - intros Hhr. eapply generate_unified_dataset_no_rows; [reflexivity|].
    by apply index_merge_nil_r.
  - intros Ha Hb. eapply generate_unified_dataset_no_rows; [reflexivity|].
    apply index_merge_nil_l. unfold concat. csimpl. by rewrite Ha, Hb.
Qed.

Lemma generate_unified_dataset_never_raises_witness :
  ∃ u, generate_unified_dataset ex_empty_hr = Ok u ∧ rows u = [].
Proof.
  destruct (generate_unified_dataset_never_raises ex_empty_hr) as (u & Hu & Hhr & _).
  exists u. split; [exact Hu|]. apply Hhr. reflexivity.
Defined.

(** ** Selecting the rows with the largest values *)

Lemma pair_before_of_le (a b : nat * Q) :
  (b.2 <= a.2)%Q → (a.1 < b.1)%nat → pair_before a b.
Proof.
  intros [Hlt|Heq]%Qle_lt_or_eq Hpos; [by left|]. right. by split.
Qed.

Lemma pair_before_le (a b : nat * Q) : pair_before a b → (b.2 <= a.2)%Q.
Proof.
  intros [Hlt|[Heq _]]; [by apply Qlt_le_weak|]. rewrite Heq. apply Qle_refl.
Qed.

Lemma insert_pair_sorted (a : nat * Q) s :
  StronglySorted pair_before s →
  Forall (λ b, a.1 < b.1)%nat s →
  StronglySorted pair_before (insert_by (λ x y, Qle_bool y.2 x.2) a s).
Proof.
  induction 1 as [|b s Hs IH Hb]; intros Hpos; simpl; [repeat constructor|].
  apply Forall_cons in Hpos as [Hab Hpos].
  destruct (Qle_bool b.2 a.2) eqn:Hle.
  - apply Qle_bool_iff in Hle.
    constructor; [by constructor|].
    constructor; [by apply pair_before_of_le|].
    rewrite Forall_forall in Hb, Hpos. apply Forall_forall. intros c Hc.
    apply pair_before_of_le; [|by apply Hpos].
    eapply Qle_trans; [|exact Hle]. by apply pair_before_le, Hb.
  - constructor; [by apply IH|].
    rewrite insert_by_perm. constructor; [|done].
    left. apply Qnot_le_lt. intros Hle'%Qle_bool_iff. congruence.
Qed.

Lemma sort_pairs_sorted (l : list (nat * Q)) :
  StronglySorted (λ a b, a.1 < b.1)%nat l →
  StronglySorted pair_before (sort_by (λ x y, Qle_bool y.2 x.2) l).
Proof.
  induction 1 as [|a l Hl IH Ha]; simpl; [constructor|].
  apply insert_pair_sorted; [done|]. by rewrite sort_by_perm.
Qed.

Lemma zip_seq_increasing {A} (l : list A) k :
  StronglySorted (λ a b : nat * A, a.1 < b.1)%nat (zip (seq k (length l)) l).
Proof.
  revert k. induction l as [|x l IH]; intros k; simpl; constructor; [apply IH|].
  apply Forall_forall. intros [i y] Hin. simpl.
  apply elem_of_zip_l, elem_of_seq in Hin. lia.
Qed.

Lemma elem_of_zip_seq {A} (l : list A) i x :
  (i, x) ∈ zip (seq 0 (length l)) l ↔ l !! i = Some x.
Proof.
  split.
  - intros (j & a & b & [= -> ->] & Ha & Hb)%elem_of_lookup_zip_with_1.
    apply lookup_seq in Ha as [-> _]. done.
  - intros Hx. apply (elem_of_lookup_zip_with_2 pair _ _ i x (i, x) i); [|done].
    apply lookup_seq. split; [done|]. by eapply lookup_lt_Some.
Qed.

Lemma tagged_dropna (hs : list Q) k :
  omap (λ iv : nat * option Q, pair iv.1 <$> iv.2)
       (zip (seq k (length (Some <$> hs))) (Some <$> hs))
  = zip (seq k (length hs)) hs.
Proof.
  revert k. induction hs as [|x hs IH]; intros k; csimpl; [done|].
  by rewrite IH.
Qed.

Lemma tagged_no_nan (hs : list Q) k :
  filter (λ iv : nat * option Q, iv.2 = None)
         (zip (seq k (length (Some <$> hs))) (Some <$> hs)) = [].
Proof.
  revert k. induction hs as [|x hs IH]; intros k; csimpl; [done|].
  rewrite filter_cons_False by done. apply IH.
Qed.

Lemma nlargest_indexer_numeric n (hs : list Q) :
  nlargest_indexer n (Some <$> hs) = take n (hours_ranking hs).
Proof.
  unfold nlargest_indexer. by rewrite tagged_dropna, tagged_no_nan, app_nil_r.
Qed.

Lemma ranking_sorted (hs : list Q) :
  hours_ranking hs ≡ₚ seq 0 (length hs) ∧
  StronglySorted (ranks_before hs) (hours_ranking hs).
Proof.
  unfold hours_ranking.
  set (sorted := sort_by _ _).
  assert (sorted ≡ₚ zip (seq 0 (length hs)) hs) as Hperm by apply sort_by_perm.
  split.
  - rewrite Hperm. rewrite fst_zip; [done|]. by rewrite length_seq.
  - assert (Forall (λ a, hs !! a.1 = Some a.2) sorted) as Hin.
    { rewrite Hperm. apply Forall_forall. intros [i x]. apply elem_of_zip_seq. }
    pose proof (sort_pairs_sorted _ (zip_seq_increasing hs 0)) as Hs.
    fold sorted in Hs. clear Hperm.
    induction Hs as [|a l Hl IH Ha]; csimpl; [constructor|].
    apply Forall_cons in Hin as [Hia Hin].
    constructor; [by apply IH|].
    apply Forall_fmap, Forall_forall. intros b Hb.
    rewrite Forall_forall in Ha, Hin.
    exists a.2, b.2. split; [done|]. split; [by apply Hin|]. by apply Ha.
Qed.

Lemma get_column_take_rows c df vs ix :
  get_column c df = Ok vs →
  get_column c (take_rows ix df) = Ok (omap (λ i, vs !! i) ix).
Proof.
  unfold get_column, take_rows; simpl.
  destruct (col_pos c (columns df)) as [i|]; [|done]. intros [= <-]. f_equal.
  induction ix as [|j ix IH]; csimpl; [done|].
  rewrite list_lookup_fmap. destruct (rows df !! j); csimpl; by rewrite IH.
Qed.

Lemma omap_lookup_Forall2 {A} (l : list A) (ix : list nat) :
  Forall (λ i, i < length l)%nat ix →
  Forall2 (λ i x, l !! i = Some x) ix (omap (λ i, l !! i) ix).
Proof.
  induction 1 as [|i ix Hi _ IH]; csimpl; [constructor|].
  destruct (lookup_lt_is_Some_2 l i Hi) as [x Hx]. rewrite Hx. csimpl.
  by constructor.
Qed.

Lemma ranking_hours (hs : list Q) :
  Forall2 (λ i x, hs !! i = Some x) (hours_ranking hs)
          (sort_by (λ x y, Qle_bool y x) hs).
Proof.
  unfold hours_ranking.
  replace (sort_by (λ x y, Qle_bool y x) hs)
    with (sort_by (λ x y : nat * Q, Qle_bool y.2 x.2) (zip (seq 0 (length hs)) hs)).*2.
  2:{ rewrite (sort_by_fmap snd (λ x y, Qle_bool y x)), snd_zip; [done|].
      by rewrite length_seq. }
  set (sorted := sort_by _ _).
  assert (Forall (λ a, hs !! a.1 = Some a.2) sorted) as Hin.
  { unfold sorted. rewrite sort_by_perm.
    apply Forall_forall. intros [i x]. apply elem_of_zip_seq. }
  induction Hin; csimpl; by constructor.
Qed.

Lemma Qge_bool_total x y : Qle_bool y x = true ∨ Qle_bool x y = true.
Proof.
  destruct (Qlt_le_dec x y) as [Hlt%Qlt_le_weak|Hle]; [right|left];
    by apply Qle_bool_iff.
Qed.

Lemma Qge_bool_trans x y z :
  Qle_bool y x = true → Qle_bool z y = true → Qle_bool z x = true.
Proof. rewrite !Qle_bool_iff. intros. by eapply Qle_trans. Qed.

Lemma mapM_to_numeric_length vs os :
  mapM to_numeric vs = Ok os → length os = length vs.
Proof.
  revert os. induction vs as [|v vs IH]; intros os; csimpl.
  - by intros [= <-].
  - destruct (to_numeric v); csimpl; [|done].
    destruct (mapM to_numeric vs); csimpl; [|done].
    intros [= <-]. simpl. f_equal. by apply IH.
Qed.

Lemma numeric_column_inv c df os :
  numeric_column c df = Ok os →
  ∃ vs, get_column c df = Ok vs ∧ mapM to_numeric vs = Ok os.
Proof.
  unfold numeric_column.
  destruct (get_column c df) as [vs|]; csimpl; [|done]. by exists vs.
Qed.

Lemma numeric_column_length c df os :
  numeric_column c df = Ok os → length os = length (rows df).
Proof.
  unfold numeric_column.
  destruct (get_column c df) as [vs|] eqn:Hvs; csimpl; [|done].
  intros ->%mapM_to_numeric_length. by eapply get_column_length.
Qed.

Lemma elem_of_take_1 {A} (x : A) n l : x ∈ take n l → x ∈ l.
Proof. intros (i & Hi & _)%elem_of_take. by eapply list_elem_of_lookup_2. Qed.

Lemma top_10_selection dataset hs depts :
  numeric_column "average_monthly_hours" dataset = Ok (Some <$> hs) →
  get_column "Department" dataset = Ok depts →
  let sel := take 10 (hours_ranking hs) in
  top_10_departments_by_hours dataset = Ok (omap (λ i, depts !! i) sel) ∧
  Forall2 (λ i d, depts !! i = Some d) sel (omap (λ i, depts !! i) sel) ∧
  length hs = length (rows dataset).
Proof.
  intros Hhs Hd sel.
  assert (length hs = length (rows dataset)) as Hlen.
  { apply numeric_column_length in Hhs. by rewrite length_fmap in Hhs. }
  split; [|split; [|done]].
  - unfold top_10_departments_by_hours, nlargest. rewrite Hhs. csimpl.
    rewrite nlargest_indexer_numeric. by apply get_column_take_rows.
  - apply omap_lookup_Forall2, Forall_forall. intros i Hi.
    apply get_column_length in Hd. rewrite Hd, <-Hlen.
    apply elem_of_take_1 in Hi.
    destruct (ranking_sorted hs) as [Hperm _]. rewrite Hperm in Hi.
    apply elem_of_seq in Hi. lia.
Qed.

(** C6. The ranking answers with the departments of the (at most) ten rows
    that rank first, best first, where a row ranks before another when it
    has more hours or as many and an earlier position in the table; rows
    left out rank after every row taken.  On fifteen rows whose hours are
    100 to 114 in any arrangement, the answer is the departments of the rows
    with 114, 113, ..., 105 hours, in this order. *)
Theorem top_10_departments_by_hours_ranking dataset hs depts :
  numeric_column "average_monthly_hours" dataset = Ok (Some <$> hs) →
  get_column "Department" dataset = Ok depts →
  ∃ sel res,
    top_10_departments_by_hours dataset = Ok res ∧
    Forall2 (λ i d, depts !! i = Some d) sel res ∧
    length sel = (10 `min` length (rows dataset))%nat ∧
    NoDup sel ∧
    StronglySorted (ranks_before hs) sel ∧
    (∀ i j, i ∈ sel → (j < length (rows dataset))%nat → j ∉ sel → ranks_before hs i j) ∧
    (hs ≡ₚ inject_Z <$> seqZ 100 15 →
     Forall2 (λ h d, ∃ i, hs !! i = Some (inject_Z h) ∧ depts !! i = Some d)
             [114; 113; 112; 111; 110; 109; 108; 107; 106; 105] res).
Proof.
  intros Hhs Hd.
  destruct (top_10_selection _ _ _ Hhs Hd) as (Hres & Hsel & Hlen).
  destruct (ranking_sorted hs) as [Hperm Hsorted].
  exists (take 10 (hours_ranking hs)), (omap (λ i, depts !! i) (take 10 (hours_ranking hs))).
  split; [done|]. split; [done|].
  rewrite <-(take_drop 10 (hours_ranking hs)) in Hsorted.
  apply StronglySorted_app in Hsorted as (Hcross & Hs1 & _).
  split; [by rewrite length_take, Hperm, length_seq, Hlen|].
  split.
  { eapply sublist_NoDup; [|apply sublist_take]. rewrite Hperm. apply NoDup_seq. }
  split; [done|]. split.
  - intros i j Hi Hj Hnj. apply Hcross; [done|].
    assert (j ∈ hours_ranking hs) as Hin.
    { rewrite Hperm. apply elem_of_seq. lia. }
    rewrite <-(take_drop 10 (hours_ranking hs)) in Hin.
    by apply elem_of_app in Hin as [?|?].
  - intros Hex.
    assert (sort_by (λ x y, Qle_bool y x) hs =
            inject_Z <$> [114; 113; 112; 111; 110; 109; 108; 107; 106; 105;
                          104; 103; 102; 101; 100]) as Hsort.
    { apply (StronglySorted_unique_strong (λ x y, Qle_bool y x = true)).
      - intros x1 x2 Hx1 Hx2 H12 H21.
        rewrite elem_of_sort_by, Hex in Hx1.
        apply list_elem_of_fmap in Hx1 as (z1 & -> & _).
        apply list_elem_of_fmap in Hx2 as (z2 & -> & _).
        apply Qle_bool_iff in H12, H21. rewrite <-Zle_Qle in H12, H21.
        f_equal. lia.
      - apply sort_by_sorted; [apply Qge_bool_total|].
        intros x y z. apply Qge_bool_trans.
      - by_compute.
      - rewrite sort_by_perm, Hex. by_compute. }
    pose proof (ranking_hours hs) as Hrh. rewrite Hsort in Hrh.
    apply (Forall2_take _ _ _ 10) in Hrh. rewrite <-fmap_take in Hrh.
    cbn [take] in Hrh. apply Forall2_fmap_r in Hrh.
    revert Hrh Hsel. generalize (omap (λ i, depts !! i) (take 10 (hours_ranking hs))).
    generalize (take 10 (hours_ranking hs)). clear.
    intros sel res Hrh. revert res.
    induction Hrh as [|i h sel' hs' Hh _ IH]; intros res Hsel.
    + inversion Hsel. constructor.
    + inversion Hsel as [|? d ? res' Hd' Hrest]; subst. constructor; eauto.
Qed.

(** C10. On a table with fewer than ten rows the ranking does not raise:
    it answers with one department for each row of the table, every row
    being taken once, best first, rows with as many hours in their table
    order. *)
Theorem top_10_departments_by_hours_short dataset hs depts :
  numeric_column "average_monthly_hours" dataset = Ok (Some <$> hs) →
  get_column "Department" dataset = Ok depts →
  (length (rows dataset) < 10)%nat →
  ∃ sel res,
    top_10_departments_by_hours dataset = Ok res ∧
    length res = length (rows dataset) ∧
    sel ≡ₚ seq 0 (length (rows dataset)) ∧
    Forall2 (λ i d, depts !! i = Some d) sel res ∧
    StronglySorted (ranks_before hs) sel.
Proof.
  intros Hhs Hd Hshort.
  destruct (top_10_selection _ _ _ Hhs Hd) as (Hres & Hsel & Hlen).
  destruct (ranking_sorted hs) as [Hperm Hsorted].
  assert (take 10 (hours_ranking hs) = hours_ranking hs) as Htake.
  { apply take_ge. rewrite Hperm, length_seq. lia. }
  rewrite Htake in Hres, Hsel.
  exists (hours_ranking hs), (omap (λ i, depts !! i) (hours_ranking hs)).
  split; [done|]. split.
  { apply Forall2_length in Hsel. by rewrite <-Hsel, Hperm, length_seq. }
  split; [by rewrite Hperm, Hlen|]. done.
Qed.

Lemma top_10_departments_by_hours_ranking_witness :
  ∃ res, top_10_departments_by_hours ex_15 = Ok res ∧
    Forall2 (λ h d, ∃ i, (inject_Z <$> ex_15_hours) !! i = Some (inject_Z h) ∧
                         (VStr <$> ex_15_departments) !! i = Some d)
            [114; 113; 112; 111; 110; 109; 108; 107; 106; 105] res.
Proof.
  destruct (top_10_departments_by_hours_ranking ex_15 (inject_Z <$> ex_15_hours)
              (VStr <$> ex_15_departments))
    as (sel & res & Hres & _ & _ & _ & _ & _ & Hex).
  - reflexivity.
  - reflexivity.
  - exists res. split; [exact Hres|]. apply Hex.
    by_compute.
Defined.

Example top_10_departments_by_hours_ex_15 :
  top_10_departments_by_hours ex_15 =
    Ok (VStr <$> ["sales"; "IT"; "hr"; "support"; "hr"; "sales"; "sales"; "IT"; "IT";
                  "support"]).
Proof. by vm_compute. Qed.

Lemma top_10_departments_by_hours_short_witness :
  ∃ res, top_10_departments_by_hours ex_u = Ok res ∧ length res = 7%nat.
Proof.
  destruct (top_10_departments_by_hours_short ex_u
              (inject_Z <$> [150; 160; 170; 200; 210; 120; 110])
              (VStr <$> ["IT"; "IT"; "IT"; "sales"; "sales"; "hr"; "hr"]))
    as (sel & res & Hres & Hlen & _).
  - reflexivity.
  - reflexivity.
  - simpl. lia.
  - exists res. split; [exact Hres|exact Hlen].
Defined.

(** ** The schema check *)

Lemma elem_of_missing_columns dataset c :
  c ∈ missing_columns dataset ↔ c ∈ required_columns ∧ c ∉ columns dataset.
Proof. unfold missing_columns. rewrite list_elem_of_filter. tauto. Qed.

Lemma validate_dataset_false dataset c :
  c ∈ required_columns → c ∉ columns dataset → validate_dataset dataset = false.
Proof.
  intros Hreq Hmiss. unfold validate_dataset.
  destruct (decide (missing_columns dataset = [])) as [Hnil|]; [|done].
  assert (c ∈ missing_columns dataset) as Hin by by apply elem_of_missing_columns.
  rewrite Hnil in Hin. by apply elem_of_nil in Hin.
Qed.

(** C5 (as the code behaves). The grouped employee metrics check the
    schema against the ten required columns before computing anything: on a
    table that lacks a required column the validator answers false, that
    column is among the missing columns it reports, and the query raises
    [ValueError] with the message of a failed validation. *)
Theorem employees_metrics_schema_gate {fl : Float64} dataset c :
  c ∈ required_columns →
  c ∉ columns dataset →
  length required_columns = 10%nat ∧
  validate_dataset dataset = false ∧
  c ∈ missing_columns dataset ∧
  (∀ c', c' ∈ missing_columns dataset ↔ c' ∈ required_columns ∧ c' ∉ columns dataset) ∧
  employees_metrics dataset = Raise (ValueError "Dataset validation failed").
Proof.
  intros Hreq Hmiss.
  split; [done|].
  split; [by eapply validate_dataset_false|].
  split; [by apply elem_of_missing_columns|].
  split; [apply elem_of_missing_columns|].
  unfold employees_metrics. by rewrite (validate_dataset_false _ c).
Qed.

Lemma employees_metrics_schema_gate_witness :
  validate_dataset (without_column "salary" ex_u) = false ∧
  employees_metrics (fl := exact_arithmetic) (without_column "salary" ex_u) =
    Raise (ValueError "Dataset validation failed").
Proof.
  destruct (employees_metrics_schema_gate (fl := exact_arithmetic) (without_column "salary" ex_u) "salary")
    as (_ & Hv & _ & _ & Hm).
  - unfold required_columns. set_solver.
  - by_compute.
  - split; [exact Hv|exact Hm].
Defined.

(** C5, refuted as stated: on the sample table without its [salary] column
    the validator answers false, yet the ranking by hours runs no check and
    computes its answer. *)
Lemma top_10_departments_by_hours_unchecked :
  "salary" ∈ required_columns ∧
  ("salary" ∉ columns (without_column "salary" ex_u)) ∧
  validate_dataset (without_column "salary" ex_u) = false ∧
  top_10_departments_by_hours (without_column "salary" ex_u) =
    Ok (VStr <$> ["sales"; "sales"; "IT"; "IT"; "IT"; "hr"; "hr"]).
Proof.
  split; [unfold required_columns; set_solver|].
  split; [by_compute|].
  split; by vm_compute.
Qed.

(** ** Equality of group keys *)

Lemma value_eqb_spec a b :
  value_eqb a b = true ↔
  (numeric a ∧ numeric b ∧ (value_num a == value_num b)%Q) ∨
  (∃ s, a = VStr s ∧ b = VStr s).
Proof.
  destruct a as [x|p|s|], b as [y|q|t|]; simpl;
    try (split; [intros [=]|intros [(? & ? & ?)|(? & ? & ?)]; done]).
  - rewrite bool_decide_eq_true. split.
    + intros ->. by left.
    + intros [(_ & _ & H)|(? & ? & ?)]; [|done]. by apply inject_Z_injective.
  - split.
    + intros ?%Qeq_bool_iff. by left.
    + intros [(_ & _ & H)|(? & ? & ?)]; try done. by apply Qeq_bool_iff.
  - split.
    + intros H%Qeq_bool_iff. left. by repeat split.
    + intros [(_ & _ & H)|(? & ? & ?)]; try done. apply Qeq_bool_iff. by symmetry.
  - split.
    + intros ?%Qeq_bool_iff. by left.
    + intros [(_ & _ & H)|(? & ? & ?)]; try done. by apply Qeq_bool_iff.
  - rewrite bool_decide_eq_true. split.
    + intros ->. right. by eexists.
    + intros [(? & _)|(? & [= ->] & [= ->])]; done.
Qed.

Lemma value_eqb_sym a b : value_eqb a b = true → value_eqb b a = true.
Proof.
  rewrite !value_eqb_spec. intros [(? & ? & ?)|(s & -> & ->)]; [left|right; by eexists].
  by repeat split.
Qed.

Lemma value_eqb_trans a b c :
  value_eqb a b = true → value_eqb b c = true → value_eqb a c = true.
Proof.
  rewrite !value_eqb_spec.
  intros [(? & ? & Hab)|(s & -> & ->)] [(? & ? & Hbc)|(t & [= ->] & ->)]; try done.
  - left. repeat split; try done. exact (Qeq_trans _ _ _ Hab Hbc).
  - right. by eexists.
Qed.

Lemma value_eqb_congr g g0 v :
  value_eqb g g0 = true → value_eqb g v = value_eqb g0 v.
Proof.
  intros Hg.
  destruct (value_eqb g v) eqn:E1, (value_eqb g0 v) eqn:E2; try done.
  - rewrite <-E2. symmetry. eapply value_eqb_trans; [by apply value_eqb_sym|done].
  - rewrite <-E1. eapply value_eqb_trans; done.
Qed.

Lemma value_eqb_refl_l a b : value_eqb a b = true → value_eqb a a = true.
Proof. intros H. eapply value_eqb_trans; [done|by apply value_eqb_sym]. Qed.

(** ** Group keys *)

Lemma elem_of_unique_by {A} (eqb : A → A → bool) x l :
  x ∈ unique_by eqb l → x ∈ l.
Proof.
  revert x. induction l as [|y l IH]; intros x; simpl; [done|].
  intros [->|[_ Hin]%list_elem_of_filter]%elem_of_cons; [by left|].
  right. by apply IH.
Qed.

Lemma unique_by_covers {A} (eqb : A → A → bool) (v : A) l :
  (∀ x y z, eqb x y = true → eqb y z = true → eqb x z = true) →
  v ∈ l → eqb v v = true →
  ∃ g, g ∈ unique_by eqb l ∧ eqb g v = true.
Proof.
  intros Htrans Hin Hv. induction l as [|y l IH]; [by apply elem_of_nil in Hin|].
  simpl. apply elem_of_cons in Hin as [->|Hin].
  - exists y. split; [by left|done].
  - destruct (IH Hin) as (g & Hg & Hgv).
    destruct (eqb y g) eqn:Hyg.
    + exists y. split; [by left|]. by eapply Htrans.
    + exists g. split; [|done]. right. by apply list_elem_of_filter.
Qed.









Lemma round_value_of_float {fl : Float64} o :
  round_value (of_float o) = of_float (round2 <$> o).
Proof. by destruct o. Qed.

(** ** The aggregates *)

Lemma Qle_bool_total x y : Qle_bool x y = true ∨ Qle_bool y x = true.
Proof.
  destruct (Qlt_le_dec x y) as [Hlt%Qlt_le_weak|Hle]; [left|right];
    by apply Qle_bool_iff.
Qed.

Lemma Qle_bool_trans x y z :
  Qle_bool x y = true → Qle_bool y z = true → Qle_bool x z = true.
Proof. rewrite !Qle_bool_iff. intros. by eapply Qle_trans. Qed.

Lemma sort_by_Qle_sorted l : StronglySorted Qle (sort_by Qle_bool l).
Proof.
  pose proof (sort_by_sorted Qle_bool Qle_bool_total Qle_bool_trans l) as Hs.
  induction Hs as [|x l' _ IH Hall]; constructor; [done|].
  eapply Forall_impl; [exact Hall|]. intros y. apply Qle_bool_iff.
Qed.

Section aggregates_facts.
Context {fl : Float64}.



Lemma median_rounded s : rounded_median (dropna s) (round2 <$> median s).
Proof.
  unfold median. set (l := sort_by Qle_bool (dropna s)).
  assert (l ≡ₚ dropna s) as Hperm by apply sort_by_perm.
  assert (StronglySorted Qle l) as Hsorted by apply sort_by_Qle_sorted.
  destruct (Nat.even (length l)) eqn:Heven.
  - destruct (decide (length l = 0%nat)) as [Hnil|Hpos].
    + apply nil_length_inv in Hnil. rewrite Hnil in *. cbn.
      by apply Permutation_nil_l in Hperm.
    + assert (2 ≤ length l)%nat as H2.
      { destruct (length l) as [|[|n]]; [lia|done|lia]. }
      destruct (lookup_lt_is_Some_2 l (length l / 2 - 1)) as [lo Hlo].
      { pose proof (Nat.div_lt (length l) 2). lia. }
      destruct (lookup_lt_is_Some_2 l (length l / 2)) as [hi Hhi].
      { apply Nat.div_lt; lia. }
      rewrite Hlo, Hhi. cbn. exists (fmidpoint lo hi). split; [|done].
      exists l. do 2 (split; [done|]). right. split; [done|]. by exists lo, hi.
  - destruct (lookup_lt_is_Some_2 l (length l / 2)) as [mid Hmid].
    { apply Nat.div_lt; [|lia]. destruct (length l); [done|lia]. }
    rewrite Hmid. cbn. exists mid. split; [|done].
    exists l. do 2 (split; [done|]). by left.
Qed.

(** ** The grouped employee metrics *)


End aggregates_facts.



Section metrics_facts.

Context {fl : Float64}.


End metrics_facts.

(** ** Equality of column keys *)

Lemma pair_eqb_true a b :
  pair_eqb a b = true ↔ value_eqb a.1 b.1 = true ∧ value_eqb a.2 b.2 = true.
Proof. unfold pair_eqb. apply andb_true_iff. Qed.

Lemma pair_eqb_sym a b : pair_eqb a b = true → pair_eqb b a = true.
Proof. rewrite !pair_eqb_true. intros [??]. split; by apply value_eqb_sym. Qed.

Lemma pair_eqb_trans a b c :
  pair_eqb a b = true → pair_eqb b c = true → pair_eqb a c = true.
Proof.
  rewrite !pair_eqb_true. intros [??] [??]. split; by eapply value_eqb_trans.
Qed.

Lemma pair_eqb_congr c c' k : pair_eqb c c' = true → pair_eqb c k = pair_eqb c' k.
Proof.
  intros [H1 H2]%pair_eqb_true. unfold pair_eqb.
  by rewrite (value_eqb_congr _ _ _ H1), (value_eqb_congr _ _ _ H2).
Qed.

Lemma pivot_cell_congr ik ck vals f d c c' :
  pair_eqb c c' = true →
  pivot_cell ik ck vals f d c' = pivot_cell ik ck vals f d c.
Proof.
  intros Hc. unfold pivot_cell. do 2 f_equal.
  revert ck. induction ik as [|i ik IH]; intros [|k ck]; simpl; try done.
  by rewrite IH, (pair_eqb_congr _ _ _ Hc).
Qed.

(** ** Series over a common index *)

Lemma zip_with_fmap_diag {A B C D} (f : B → C → D) (g : A → B) (h : A → C) l :
  zip_with f (g <$> l) (h <$> l) = (λ x, f (g x) (h x)) <$> l.
Proof. induction l; csimpl; by f_equal. Qed.

Lemma select_fmap {A B} (b : A → bool) (g : A → B) l :
  select (b <$> l) (g <$> l) = g <$> filter (λ x, b x) l.
Proof.
  unfold select. induction l as [|x l IH]; [done|].
  cbn [fmap list_fmap zip_with]. rewrite !filter_cons. cbn [fst].
  destruct (b x).
  - rewrite !decide_True by done. cbn [fmap list_fmap snd]. f_equal. apply IH.
  - rewrite !decide_False by done. apply IH.
Qed.

Lemma select_self {A} (b : A → bool) l :
  select (b <$> l) l = filter (λ x, b x) l.
Proof.
  rewrite <-(list_fmap_id l) at 2. rewrite (select_fmap b id). apply list_fmap_id.
Qed.

Lemma zip_fmap_self {A B} (g : A → B) (l : list A) :
  zip l (g <$> l) = (λ x, (x, g x)) <$> l.
Proof. induction l; csimpl; by f_equal. Qed.

Lemma value_ltb_of_float a b :
  value_ltb (of_float a) (of_float b) = true ↔ cell_lt a b.
Proof.
  destruct a as [x|], b as [y|]; simpl;
    try (split; [done|by intros (? & ? & ? & ? & ?)]).
  rewrite negb_true_iff. split.
  - intros Hle. exists x, y. repeat split.
    apply Qnot_le_lt. intros ?%Qle_bool_iff. congruence.
  - intros (? & ? & [= <-] & [= <-] & Hlt).
    destruct (Qle_bool y x) eqn:E; [|done].
    apply Qle_bool_iff in E. by apply Qle_not_lt in E.
Qed.

(** ** Columns of a pivot table *)

Lemma agg_get_Ok (G : value * value → list value) key idx cols :
  (∀ c, pair_eqb key c = true → G c = G key) →
  Exists (λ c, pair_eqb key c) cols →
  agg_get pair_eqb key (mkAgg idx ((λ c, (c, G c)) <$> cols)) = Ok (G key).
Proof.
  intros HG. unfold agg_get. cbn [agg_columns].
  induction cols as [|c cols IH]; [by intros ?%Exists_nil|].
  intros Hex. cbn [fmap list_fmap]. rewrite filter_cons. cbn [fst].
  destruct (decide (pair_eqb key c)) as [E|E].
  - cbn [snd]. rewrite HG; [done|]. by apply Is_true_true.
  - apply IH. by apply Exists_cons in Hex as [?|?].
Qed.

Lemma agg_get_KeyError (G : value * value → list value) key idx cols :
  ¬ Exists (λ c, pair_eqb key c) cols →
  agg_get pair_eqb key (mkAgg idx ((λ c, (c, G c)) <$> cols)) = Raise KeyError.
Proof.
  unfold agg_get. cbn [agg_columns].
  induction cols as [|c cols IH]; [done|].
  intros Hex. cbn [fmap list_fmap]. rewrite filter_cons. cbn [fst].
  destruct (decide (pair_eqb key c)) as [E|E].
  - destruct Hex. by left.
  - apply IH. intros ?. apply Hex. by right.
Qed.

Section pivot_facts.

Context {fl : Float64}.

Lemma agg_round_pivot (cellf : value → value * value → option Q) idx cols :
  agg_round (mkAgg idx ((λ c, (c, (λ d, of_float (cellf d c)) <$> idx)) <$> cols)) =
  mkAgg idx ((λ c, (c, (λ d, of_float (round2 <$> cellf d c)) <$> idx)) <$> cols).
Proof.
  unfold agg_round. cbn [agg_index agg_columns]. f_equal.
  rewrite <-list_fmap_compose. apply list_fmap_ext. intros _ c _. simpl. f_equal.
  rewrite <-list_fmap_compose. apply list_fmap_ext. intros _ d _. simpl.
  apply round_value_of_float.
Qed.

Lemma series_keep (cellm : value → value * value → option Q) k1 k2 k3 k4 idx :
  series_or
    (series_lt ((λ d, of_float (cellm d k1)) <$> idx) ((λ d, of_float (cellm d k2)) <$> idx))
    (series_lt ((λ d, of_float (cellm d k3)) <$> idx) ((λ d, of_float (cellm d k4)) <$> idx))
  = (λ d, value_ltb (of_float (cellm d k1)) (of_float (cellm d k2)) ||
          value_ltb (of_float (cellm d k3)) (of_float (cellm d k4))) <$> idx.
Proof.
  unfold series_or, series_lt. by rewrite !zip_with_fmap_diag.
Qed.

Lemma to_dict_loc (G : value * value → value → value) (b : value → bool) idx cols :
  to_dict (agg_loc (b <$> idx) (mkAgg idx ((λ c, (c, G c <$> idx)) <$> cols))) =
  (λ c, (c, (λ d, (d, G c d)) <$> filter (λ d, b d) idx)) <$> cols.
Proof.
  unfold to_dict, agg_loc. cbn [agg_index agg_columns].
  rewrite <-!list_fmap_compose. apply list_fmap_ext. intros _ c _. simpl. f_equal.
  by rewrite select_self, select_fmap, zip_fmap_self.
Qed.

(** ** The department salary pivot *)

Lemma pivot_table_Ok i c1 c2 v f df vs ik k1 k2 vals :
  get_column v df = Ok vs →
  get_column i df = Ok ik →
  get_column c1 df = Ok k1 →
  get_column c2 df = Ok k2 →
  mapM to_numeric vs = Ok vals →
  pivot_table i (c1, c2) v f df =
    Ok (mkAgg (pivot_index ik (zip k1 k2) vals f)
          ((λ c, (c, (λ d, of_float (pivot_cell ik (zip k1 k2) vals f d c))
                       <$> pivot_index ik (zip k1 k2) vals f))
           <$> pivot_columns ik (zip k1 k2) vals f)).
Proof.
  intros Hvs Hik Hk1 Hk2 Hvals. unfold pivot_table. cbn [fst snd].
  rewrite Hvs. unfold mbind at 1, result_bind at 1. cbn beta iota.
  rewrite Hik. unfold mbind at 1, result_bind at 1. cbn beta iota.
  rewrite Hk1. unfold mbind at 1, result_bind at 1. cbn beta iota.
  rewrite Hk2. unfold mbind at 1, result_bind at 1. cbn beta iota.
  rewrite Hvals. reflexivity.
Qed.

Lemma median_salaries_by_department_eq dataset ds ls ss hs :
  get_column "Department" dataset = Ok ds →
  get_column "left" dataset = Ok ls →
  get_column "salary" dataset = Ok ss →
  numeric_column "average_monthly_hours" dataset = Ok hs →
  let ck := zip ls ss in
  let cellm d c := round2 <$> pivot_cell ds ck hs median d c in
  let departments := pivot_index ds ck hs median in
  let combos := pivot_columns ds ck hs median in
  let has c := Exists (λ c', pair_eqb c c') combos in
  let keep d :=
    cell_lt (cellm d (VInt 0, VStr "high")) (cellm d (VInt 0, VStr "medium")) ∨
    cell_lt (cellm d (VInt 1, VStr "low")) (cellm d (VInt 1, VStr "high")) in
  (has (VInt 0, VStr "high") ∧ has (VInt 0, VStr "medium") ∧
   has (VInt 1, VStr "low") ∧ has (VInt 1, VStr "high") →
   median_salaries_by_department dataset =
     Ok ((λ c, (c, (λ d, (d, of_float (cellm d c))) <$> filter keep departments))
         <$> combos)) ∧
  (¬ (has (VInt 0, VStr "high") ∧ has (VInt 0, VStr "medium") ∧
      has (VInt 1, VStr "low") ∧ has (VInt 1, VStr "high")) →
   median_salaries_by_department dataset = Raise KeyError).
Proof.
  intros Hds Hls Hss Hhs ck cellm departments combos has keep.
  set (G := λ c, (λ d, of_float (cellm d c)) <$> departments).
  assert (HG : ∀ key c, pair_eqb key c = true → G c = G key).
  { intros key c Hc. unfold G. apply list_fmap_ext. intros _ d _.
    unfold cellm. by rewrite (pivot_cell_congr _ _ _ _ _ key c). }
  assert (Htable : median_salaries_by_department dataset =
    let table := mkAgg departments ((λ c, (c, G c)) <$> combos) in
    stayed_high ← agg_get pair_eqb (VInt 0, VStr "high") table;
    stayed_medium ← agg_get pair_eqb (VInt 0, VStr "medium") table;
    let condition1 := series_lt stayed_high stayed_medium in
    left_low ← agg_get pair_eqb (VInt 1, VStr "low") table;
    left_high ← agg_get pair_eqb (VInt 1, VStr "high") table;
    let condition2 := series_lt left_low left_high in
    let filtered_result := agg_loc (series_or condition1 condition2) table in
    mret (to_dict filtered_result)).
  { unfold median_salaries_by_department.
    apply numeric_column_inv in Hhs as (vs & Hvs & Hhs).
    rewrite (pivot_table_Ok _ _ _ _ _ _ _ _ _ _ _ Hvs Hds Hls Hss Hhs). csimpl.
    fold ck. fold departments. fold combos.
    by rewrite agg_round_pivot. }
  rewrite Htable. clear Htable. cbv zeta. split.
  - intros (H1 & H2 & H3 & H4).
    rewrite !agg_get_Ok by (done || (intros; by apply HG)). csimpl.
    unfold G. rewrite series_keep, (to_dict_loc (λ c d, of_float (cellm d c))).
    f_equal. apply list_fmap_ext. intros _ c _. do 2 f_equal.
    apply list_filter_iff. intros d. unfold keep.
    rewrite <-!value_ltb_of_float, <-orb_true_iff. apply Is_true_true.
  - intros Hnot.
    destruct (decide (has (VInt 0, VStr "high"))) as [H1|H1];
      [|by rewrite (agg_get_KeyError G (VInt 0, VStr "high")) by exact H1].
    rewrite (agg_get_Ok G (VInt 0, VStr "high")) by (exact H1 || (intros; by apply HG)).
    csimpl.
    destruct (decide (has (VInt 0, VStr "medium"))) as [H2|H2];
      [|by rewrite (agg_get_KeyError G (VInt 0, VStr "medium")) by exact H2].
    rewrite (agg_get_Ok G (VInt 0, VStr "medium")) by (exact H2 || (intros; by apply HG)).
    csimpl.
    destruct (decide (has (VInt 1, VStr "low"))) as [H3|H3];
      [|by rewrite (agg_get_KeyError G (VInt 1, VStr "low")) by exact H3].
    rewrite (agg_get_Ok G (VInt 1, VStr "low")) by (exact H3 || (intros; by apply HG)).
    csimpl.
    destruct (decide (has (VInt 1, VStr "high"))) as [H4|H4];
      [by destruct Hnot|by rewrite (agg_get_KeyError G (VInt 1, VStr "high")) by exact H4].
Qed.

(** ** Which cells of the pivot are present *)

Lemma elem_of_select {A} (x : A) mask l :
  x ∈ select mask l ↔ ∃ j, mask !! j = Some true ∧ l !! j = Some x.
Proof.
  unfold select. rewrite list_elem_of_fmap. split.
  - intros ([b y] & -> & [Hb Hin]%list_elem_of_filter). simpl in *. subst b.
    apply elem_of_lookup_zip_with_1 in Hin as (j & ? & ? & [= <- <-] & ? & ?).
    by exists j.
  - intros (j & Hm & Hl). exists (true, x). split; [done|].
    apply list_elem_of_filter. split; [done|].
    by apply (elem_of_lookup_zip_with_2 pair _ _ true x (true, x) j).
Qed.

Lemma elem_of_dropna (x : Q) s : x ∈ dropna s ↔ Some x ∈ s.
Proof.
  unfold dropna. rewrite list_elem_of_omap. split.
  - intros (o & Hin & Heq). simpl in Heq. by subst.
  - intros ?. by exists (Some x).
Qed.

Lemma median_is_Some s : is_Some (median s) ↔ ∃ h, Some h ∈ s.
Proof.
  unfold median. set (l := sort_by Qle_bool (dropna s)).
  assert (length l = length (dropna s)) as Hlen by apply sort_by_length.
  split.
  - intros Hm. destruct (dropna s) as [|h t] eqn:Hd.
    + destruct l; [|done]. by destruct Hm.
    + exists h. apply elem_of_dropna. rewrite Hd. by left.
  - intros (h & Hh%elem_of_dropna).
    assert (0 < length l)%nat as Hpos.
    { rewrite Hlen. destruct (dropna s); [by apply elem_of_nil in Hh|simpl; lia]. }
    destruct (Nat.even (length l)) eqn:Heven.
    + assert (2 ≤ length l)%nat as H2.
      { destruct (length l) as [|[|n]]; [lia|done|lia]. }
      destruct (lookup_lt_is_Some_2 l (length l / 2 - 1)) as [lo ->].
      { pose proof (Nat.div_lt (length l) 2). lia. }
      destruct (lookup_lt_is_Some_2 l (length l / 2)) as [hi ->].
      { apply Nat.div_lt; lia. }
      by eexists.
    + destruct (lookup_lt_is_Some_2 l (length l / 2)) as [mid ->].
      { apply Nat.div_lt; lia. }
      by eexists.
Qed.

Lemma pivot_cell_is_Some ik ck vals d c :
  is_Some (pivot_cell ik ck vals median d c) ↔ pivot_row ik ck vals d c.
Proof.
  unfold pivot_cell, pivot_row. rewrite median_is_Some. split.
  - intros (h & (j & Hm & Hv)%elem_of_select).
    apply lookup_zip_with_Some in Hm as (dj & cj & Hb & Hd & Hc).
    symmetry in Hb. apply andb_true_iff in Hb as [? ?].
    by exists j, dj, cj, h.
  - intros (j & dj & cj & h & Hd & Hc & Hv & H1 & H2).
    exists h. apply elem_of_select. exists j. split; [|done].
    apply lookup_zip_with_Some. exists dj, cj. by rewrite H1, H2.
Qed.

Lemma pivot_row_self ik ck vals d c :
  pivot_row ik ck vals d c →
  ∃ d' c', (d', c') ∈ pivot_present ik ck vals median ∧
           value_eqb d d' = true ∧ pair_eqb c c' = true.
Proof.
  intros (j & dj & cj & h & Hd & Hc & Hv & H1 & H2).
  exists dj, cj. split; [|done].
  apply list_elem_of_filter. split.
  - apply pivot_cell_is_Some. exists j, dj, cj, h. repeat split; try done.
    + eapply value_eqb_refl_l, value_eqb_sym, H1.
    + eapply pair_eqb_trans; [apply pair_eqb_sym, H2|done].
  - by apply (elem_of_lookup_zip_with_2 pair _ _ dj cj (dj, cj) j).
Qed.

Lemma pivot_columns_has ik ck vals c :
  Exists (λ c', pair_eqb c c') (pivot_columns ik ck vals median) ↔
  ∃ d, pivot_row ik ck vals d c.
Proof.
  unfold pivot_columns. rewrite Exists_exists. split.
  - intros (c' & Hin & Hc%Is_true_true).
    apply elem_of_sort_by, elem_of_unique_by, list_elem_of_fmap in Hin
      as ([d c''] & -> & [Hp _]%list_elem_of_filter).
    apply pivot_cell_is_Some in Hp as (j & dj & cj & h & ? & ? & ? & ? & ?).
    exists d, j, dj, cj, h. repeat split; try done. by eapply pair_eqb_trans.
  - intros (d & (d' & c' & Hp & Hd & Hc)%pivot_row_self).
    destruct (unique_by_covers pair_eqb c' (pivot_present ik ck vals median).*2)
      as (c'' & Hin & Hcc); [apply pair_eqb_trans| |..].
    + apply list_elem_of_fmap. by exists (d', c').
    + eapply pair_eqb_trans; [apply pair_eqb_sym, Hc|done].
    + exists c''. split; [by apply elem_of_sort_by|]. apply Is_true_true.
      eapply pair_eqb_trans; [done|]. by apply pair_eqb_sym.
Qed.

Lemma pivot_index_has ik ck vals d :
  Exists (λ d', value_eqb d d') (pivot_index ik ck vals median) ↔
  ∃ c, pivot_row ik ck vals d c.
Proof.
  unfold pivot_index. rewrite Exists_exists. split.
  - intros (d' & Hin & Hd%Is_true_true).
    apply elem_of_sort_by, elem_of_unique_by, list_elem_of_fmap in Hin
      as ([d'' c] & -> & [Hp _]%list_elem_of_filter).
    apply pivot_cell_is_Some in Hp as (j & dj & cj & h & ? & ? & ? & ? & ?).
    exists c, j, dj, cj, h. repeat split; try done. by eapply value_eqb_trans.
  - intros (c & (d' & c' & Hp & Hd & Hc)%pivot_row_self).
    destruct (unique_by_covers value_eqb d' (pivot_present ik ck vals median).*1)
      as (d'' & Hin & Hdd); [apply value_eqb_trans| |..].
    + apply list_elem_of_fmap. by exists (d', c').
    + eapply value_eqb_refl_l, value_eqb_sym, Hd.
    + exists d''. split; [by apply elem_of_sort_by|]. apply Is_true_true.
      eapply value_eqb_trans; [done|]. by apply value_eqb_sym.
Qed.

Lemma pivot_cell_rows ik ck vals f d c :
  pivot_cell ik ck vals f d c = f (pivot_rows_of ik ck vals d c).
Proof.
  unfold pivot_cell, pivot_rows_of, select. f_equal.
  revert ck vals. induction ik as [|i ik IH]; intros [|k ck] [|v vals]; try done.
  cbn [zip_with]. rewrite !filter_cons. cbn [fst snd].
  destruct (value_eqb d i && pair_eqb c k).
  - rewrite !decide_True by done. cbn [fmap list_fmap snd]. f_equal. apply IH.
  - rewrite !decide_False by done. apply IH.
Qed.

(** C2 (as the code behaves). On hours that float64 holds exactly: each
    cell of the pivot is the median of the hours of the rows of its
    department and combination of [left] and [salary], taken in float64 and
    rounded by [round(2)], NaN where there is no such row.  When each of the
    four compared combinations occurs in some row, the pivot returns, under
    every combination that occurs, exactly the departments for which the
    cell of stayed high earners is less than that of stayed medium earners,
    or that of leavers on a low salary is less than that of leavers on a
    high one; a comparison with an absent cell does not hold.  When one of
    the four combinations occurs in no row, the query raises [KeyError]. *)
Theorem median_salaries_by_department_filter dataset ds ls ss hs :
  get_column "Department" dataset = Ok ds →
  get_column "left" dataset = Ok ls →
  get_column "salary" dataset = Ok ss →
  numeric_column "average_monthly_hours" dataset = Ok hs →
  in_float_range hs →
  let ck := zip ls ss in
  let cellm d c := round2 <$> median (pivot_rows_of ds ck hs d c) in
  let occurs c := ∃ d, pivot_row ds ck hs d c in
  let keep d :=
    cell_lt (cellm d (VInt 0, VStr "high")) (cellm d (VInt 0, VStr "medium")) ∨
    cell_lt (cellm d (VInt 1, VStr "low")) (cellm d (VInt 1, VStr "high")) in
  let compared :=
    occurs (VInt 0, VStr "high") ∧ occurs (VInt 0, VStr "medium") ∧
    occurs (VInt 1, VStr "low") ∧ occurs (VInt 1, VStr "high") in
  (∀ d c, rounded_median (dropna (pivot_rows_of ds ck hs d c)) (cellm d c)) ∧
  (compared →
   ∃ departments combos,
     median_salaries_by_department dataset =
       Ok ((λ c, (c, (λ d, (d, of_float (cellm d c))) <$> filter keep departments))
           <$> combos) ∧
     (∀ d, Exists (λ d', value_eqb d d') departments ↔ ∃ c, pivot_row ds ck hs d c) ∧
     (∀ c, Exists (λ c', pair_eqb c c') combos ↔ occurs c)) ∧
  (¬ compared → median_salaries_by_department dataset = Raise KeyError).
Proof.
  intros Hds Hls Hss Hhs _ ck cellm occurs keep compared.
  destruct (median_salaries_by_department_eq _ _ _ _ _ Hds Hls Hss Hhs) as [Hok Herr].
  fold ck in Hok, Herr. split; [|split].
  - intros d c. apply median_rounded.
  - intros (H1 & H2 & H3 & H4).
    exists (pivot_index ds ck hs median), (pivot_columns ds ck hs median).
    split; [|split; [apply pivot_index_has|apply pivot_columns_has]].
    rewrite Hok by (repeat split; by apply pivot_columns_has).
    f_equal. apply list_fmap_ext. intros _ c _. f_equal.
    assert (∀ d c', round2 <$> pivot_cell ds ck hs median d c' = cellm d c') as Hcell.
    { intros d c'. unfold cellm. by rewrite pivot_cell_rows. }
    rewrite (list_filter_iff _ keep).
    + apply list_fmap_ext. intros _ d _. by rewrite Hcell.
    + intros d. unfold keep. by rewrite !Hcell.
  - intros Hnot. apply Herr. intros (H1 & H2 & H3 & H4). apply Hnot.
    repeat split; by apply pivot_columns_has.
Qed.

End pivot_facts.

Lemma median_salaries_by_department_filter_witness :
  ∃ r, median_salaries_by_department (fl := exact_arithmetic) ex_u = Ok r.
Proof.
  destruct (median_salaries_by_department_filter (fl := exact_arithmetic) ex_u
              (VStr <$> ["IT"; "IT"; "IT"; "sales"; "sales"; "hr"; "hr"])
              (VInt <$> [0; 0; 0; 1; 1; 0; 0])
              (VStr <$> ["high"; "medium"; "medium"; "low"; "high"; "high"; "medium"])
              (Some ∘ inject_Z <$> [150; 160; 170; 200; 210; 120; 110]))
    as (_ & Hok & _); [reflexivity..|by_compute|].
  destruct Hok as (departments & combos & Hr & _).
  - split; [|split; [|split]].
    + exists (VStr "IT"), 0%nat, (VStr "IT"), (VInt 0, VStr "high"), 150%Q.
      by repeat split.
    + exists (VStr "IT"), 1%nat, (VStr "IT"), (VInt 0, VStr "medium"), 160%Q.
      by repeat split.
    + exists (VStr "sales"), 3%nat, (VStr "sales"), (VInt 1, VStr "low"), 200%Q.
      by repeat split.
    + exists (VStr "sales"), 4%nat, (VStr "sales"), (VInt 1, VStr "high"), 210%Q.
      by repeat split.
  - eexists. exact Hr.
Defined.

Example median_salaries_by_department_ex_u :
  median_salaries_by_department (fl := exact_arithmetic) ex_u =
    Ok [((VInt 0, VStr "high"), [(VStr "IT", VFloat 150); (VStr "sales", VNaN)]);
        ((VInt 0, VStr "medium"), [(VStr "IT", VFloat 165); (VStr "sales", VNaN)]);
        ((VInt 1, VStr "high"), [(VStr "IT", VNaN); (VStr "sales", VFloat 210)]);
        ((VInt 1, VStr "low"), [(VStr "IT", VNaN); (VStr "sales", VFloat 200)])].
Proof. by vm_compute. Qed.

(** C2, refuted as stated: on a table in which nobody has left, the
    department [IT] has a stayed-high median of 150 below its stayed-medium
    median of 165, yet the query raises [KeyError] instead of returning
    it. *)
Lemma median_salaries_by_department_no_leavers :
  validate_dataset ex_stayed = true ∧
  median (fl := exact_arithmetic) [Some 150%Q] = Some 150%Q ∧
  median (fl := exact_arithmetic) [Some 160%Q; Some 170%Q] = Some 165%Q ∧
  round2 (Float64 := exact_arithmetic) 150 = 150%Q ∧
  round2 (Float64 := exact_arithmetic) 165 = 165%Q ∧
  cell_lt (Some 150%Q) (Some 165%Q) ∧
  median_salaries_by_department (fl := exact_arithmetic) ex_stayed = Raise KeyError.
Proof.
  repeat split; try by vm_compute.
  by exists 150%Q, 165%Q.
Qed.
(** * Further properties *)

(** ** Columns that are missing *)

Lemma get_column_KeyError c df : c ∉ columns df → get_column c df = Raise KeyError.
Proof. intros Hc. unfold get_column. by rewrite col_pos_None. Qed.

Lemma get_column_cases c df :
  (c ∈ columns df ∧ ∃ vs, get_column c df = Ok vs) ∨
  ((c ∉ columns df) ∧ get_column c df = Raise KeyError).
Proof.
  destruct (decide (c ∈ columns df)) as [Hin|Hin].
  - left. split; [done|]. by apply get_column_is_Ok.
  - right. split; [done|]. by apply get_column_KeyError.
Qed.

(** ** Cells under the frame operations *)

Lemma get_column_set_axis c labels df :
  length labels = length (rows df) →
  get_column c (set_axis labels df) = get_column c df.
Proof.
  intros Hl. unfold get_column, set_axis; simpl.
  destruct (col_pos c (columns df)) as [i|]; [|done]. f_equal.
  rewrite (list_fmap_compose snd (cell i)), snd_zip by (rewrite length_fmap; lia).
  by rewrite <-list_fmap_compose.
Qed.

Lemma col_pos_drop_cells cs c cols r :
  c ∉ cs →
  match col_pos c cols with
  | Some i => ∃ j, col_pos c (filter (λ c', c' ∉ cs) cols) = Some j ∧
                   cell j (drop_cells cs cols r) = cell i r
  | None => col_pos c (filter (λ c', c' ∉ cs) cols) = None
  end.
Proof.
  intros Hc. revert r. induction cols as [|c' cols IH]; intros r; [done|].
  cbn [col_pos]. rewrite filter_cons.
  destruct (decide (c = c')) as [<-|Hne].
  - rewrite decide_True by done. cbn [col_pos]. rewrite decide_True by done.
    exists 0%nat. split; [done|]. destruct r as [|v r]; [done|]. cbn [drop_cells].
    by rewrite decide_False by done.
  - destruct r as [|v r].
    + specialize (IH []). destruct (col_pos c cols) as [i|]; simpl.
      * destruct IH as (j & Hj & _).
        destruct (decide (c' ∉ cs)).
        -- cbn [col_pos]. rewrite decide_False by done. rewrite Hj.
           exists (S j). by destruct cols.
        -- exists j. split; [done|]. by destruct cols, j.
      * destruct (decide (c' ∉ cs)); [|done].
        cbn [col_pos]. rewrite decide_False by done. by rewrite IH.
    + specialize (IH r). cbn [drop_cells].
      destruct (col_pos c cols) as [i|]; simpl.
      * destruct IH as (j & Hj & Hcell).
        destruct (decide (c' ∉ cs)) as [Hk|Hk].
        -- cbn [col_pos]. rewrite decide_False by done. rewrite Hj.
           exists (S j). split; [done|]. by rewrite decide_False by done.
        -- exists j. split; [done|]. by rewrite decide_True by by apply dec_stable.
      * destruct (decide (c' ∉ cs)); [|done].
        cbn [col_pos]. rewrite decide_False by done. by rewrite IH.
Qed.

Lemma get_column_drop_columns cs c df :
  c ∉ cs → get_column c (drop_columns cs df) = get_column c df.
Proof.
  intros Hc. unfold get_column, drop_columns; simpl.
  pose proof (col_pos_drop_cells cs c (columns df)) as Hpos.
  destruct (col_pos c (columns df)) as [i|].
  - destruct (Hpos [] Hc) as (j & Hj & _). rewrite Hj. f_equal.
    rewrite <-list_fmap_compose. apply list_fmap_ext. intros _ [k r] _. simpl.
    destruct (Hpos r Hc) as (j' & Hj' & Hcell). congruence.
  - by rewrite (Hpos [] Hc).
Qed.

Section reindex_facts.

Variable float_str : Q → string.

(** X1. The reindexing raises exactly when an identifier column is
    missing, and then it raises [KeyError]. *)
Theorem reindex_dataframes_errors p :
  (∀ e, reindex_dataframes float_str p = Raise e → e = KeyError) ∧
  ((∃ e, reindex_dataframes float_str p = Raise e) ↔
   ("employee_office_id" ∉ columns (a_office_data p)) ∨
   ("employee_office_id" ∉ columns (b_office_data p)) ∨
   ("employee_id" ∉ columns (hr_data p))).
Proof.
  unfold reindex_dataframes, set_index.
  destruct (get_column_cases "employee_office_id" (a_office_data p))
    as [[Ha [a_ids ->]]|[Ha ->]];
    [|split; [by intros e [= <-]|split; [by left|by eexists]]].
  destruct (get_column_cases "employee_office_id" (b_office_data p))
    as [[Hb [b_ids ->]]|[Hb ->]];
    [|split; [by intros e [= <-]|split; [by right; left|by eexists]]].
  destruct (get_column_cases "employee_id" (hr_data p))
    as [[Hhr [hr_ids ->]]|[Hhr ->]];
    [|split; [by intros e [= <-]|split; [by right; right|by eexists]]].
  split; [done|]. split; [by intros [e ?]|]. by intros [?|[?|?]].
Qed.

(** X2. The reindexing changes labels only: every column of an office
    table, and every column of the HR table but [employee_id], holds the
    same cells afterwards; [employee_id] is no column of the HR table any
    more. *)
Theorem reindex_dataframes_keeps_cells p p' c :
  reindex_dataframes float_str p = Ok p' →
  get_column c (a_office_data p') = get_column c (a_office_data p) ∧
  get_column c (b_office_data p') = get_column c (b_office_data p) ∧
  (c ≠ "employee_id" → get_column c (hr_data p') = get_column c (hr_data p)) ∧
  columns (hr_data p') = filter (λ c', c' ≠ "employee_id") (columns (hr_data p)) ∧
  get_column "employee_id" (hr_data p') = Raise KeyError.
Proof.
  intros (a_ids & b_ids & hr_ids & Ha & Hb & Hhr & ->)%reindex_dataframes_inv. simpl.
  apply get_column_length in Ha, Hb, Hhr.
  split; [apply get_column_set_axis; by rewrite office_keys_length|].
  split; [apply get_column_set_axis; by rewrite office_keys_length|].
  split; [|split].
  - intros Hc. rewrite get_column_drop_columns.
    + by apply get_column_set_axis.
    + apply not_elem_of_cons. split; [done|apply not_elem_of_nil].
  - unfold drop_columns, set_axis; simpl. apply list_filter_iff. intros c'.
    rewrite not_elem_of_cons. split; [by intros [? _]|].
    intros ?. split; [done|apply not_elem_of_nil].
  - apply get_column_KeyError. unfold drop_columns; simpl.
    intros [Hn _]%list_elem_of_filter. apply Hn. by left.
Qed.

End reindex_facts.

Lemma reindex_dataframes_keeps_cells_witness :
  get_column "left" (hr_data ex_reindexed) = get_column "left" ex_hr.
Proof.
  destruct (reindex_dataframes_keeps_cells no_float (mkPD ex_a ex_b ex_hr)
              ex_reindexed "left")
    as (_ & _ & Hhr & _); [reflexivity|].
  apply Hhr. done.
Defined.
(** ** The columns of the unified dataset *)

Lemma filter_ext_elem_of {A} (P Q : A → Prop) `{!∀ x, Decision (P x), !∀ x, Decision (Q x)}
    (l : list A) :
  (∀ x, x ∈ l → P x ↔ Q x) → filter P l = filter Q l.
Proof.
  induction l as [|x l IH]; intros HPQ; [done|].
  rewrite !filter_cons.
  rewrite IH by (intros y Hy; apply HPQ; by right).
  destruct (decide (P x)) as [HP|HP]; destruct (decide (Q x)) as [HQ|HQ]; try done.
  - destruct HQ. apply HPQ; [by left|done].
  - destruct HP. apply HPQ; [by left|done].
Qed.

Lemma filter_all {A} (P : A → Prop) `{!∀ x, Decision (P x)} (l : list A) :
  (∀ x, x ∈ l → P x) → filter P l = l.
Proof.
  induction l as [|x l IH]; intros HP; [done|].
  rewrite filter_cons, decide_True by (apply HP; by left).
  f_equal. apply IH. intros y Hy. apply HP. by right.
Qed.

Lemma suffixed_disjoint sfx others cols :
  (∀ c, c ∈ cols → c ∉ others) → suffixed sfx others cols = cols.
Proof.
  intros Hd. unfold suffixed. rewrite <-(list_fmap_id cols) at 2.
  apply list_fmap_ext. intros _ c Hc%list_elem_of_lookup_2. simpl.
  by rewrite decide_False by by apply Hd.
Qed.

Lemma union_columns2 a b :
  union_columns [a; b] = columns a ++ filter (λ c, c ∉ columns a) (columns b).
Proof.
  unfold union_columns. cbn [foldl app].
  by rewrite (filter_all _ (columns a)) by (intros; apply not_elem_of_nil).
Qed.

Lemma validate_dataset_true dataset :
  validate_dataset dataset = true ↔ ∀ c, c ∈ required_columns → c ∈ columns dataset.
Proof.
  unfold validate_dataset. split.
  - destruct (decide (missing_columns dataset = [])) as [Hnil|]; [|done].
    intros _ c Hc. destruct (decide (c ∈ columns dataset)) as [|Hn]; [done|].
    assert (c ∈ missing_columns dataset) as Hin by by apply elem_of_missing_columns.
    rewrite Hnil in Hin. by apply elem_of_nil in Hin.
  - intros Hall. destruct (decide (missing_columns dataset = [])) as [|Hne]; [done|].
    destruct (missing_columns dataset) as [|c l] eqn:Hm; [done|].
    assert (c ∈ missing_columns dataset) as Hin by (rewrite Hm; by left).
    apply elem_of_missing_columns in Hin as [Hreq Hmiss]. destruct Hmiss. by apply Hall.
Qed.

(** X3. When no office column is also an HR column, the columns of the
    unified table are those of office A, the further ones of office B and
    those of the HR table, in this order and without the two raw
    identifiers; so the table passes the schema check exactly when every
    required column is a column of one of the three sources. *)
Theorem unified_columns p u :
  generate_unified_dataset p = Ok u →
  (∀ c, c ∈ columns (a_office_data p) ∨ c ∈ columns (b_office_data p) →
        c ∉ columns (hr_data p)) →
  columns u =
    filter (λ c, c ∉ ["employee_office_id"; "employee_id"])
      (columns (a_office_data p) ++
       filter (λ c, c ∉ columns (a_office_data p)) (columns (b_office_data p)) ++
       columns (hr_data p)) ∧
  (validate_dataset u = true ↔
   ∀ c, c ∈ required_columns →
        c ∈ columns (a_office_data p) ∨ c ∈ columns (b_office_data p) ∨
        c ∈ columns (hr_data p)).
Proof.
  intros Hgen Hdisj.
  assert (∀ c, c ∈ union_columns [a_office_data p; b_office_data p] →
               c ∉ columns (hr_data p)) as Hd1.
  { intros c. rewrite union_columns2, elem_of_app, list_elem_of_filter.
    intros [?|[_ ?]]; apply Hdisj; eauto. }
  assert (columns (merge (concat [a_office_data p; b_office_data p]) (hr_data p)) =
          columns (a_office_data p) ++
          filter (λ c, c ∉ columns (a_office_data p)) (columns (b_office_data p)) ++
          columns (hr_data p)) as Hm.
  { unfold merge, concat. cbn [columns].
    rewrite !suffixed_disjoint; [by rewrite union_columns2, <-app_assoc| |done].
    intros c Hc Hu. by apply (Hd1 c). }
  assert (Hcols : columns u =
          filter (λ c, c ∉ ["employee_office_id"; "employee_id"])
            (columns (a_office_data p) ++
             filter (λ c, c ∉ columns (a_office_data p)) (columns (b_office_data p)) ++
             columns (hr_data p))).
  { injection Hgen as <-. unfold sort_index, drop_columns. cbn [columns]. rewrite <-Hm.
    apply filter_ext_elem_of. intros c Hc. rewrite list_elem_of_filter. tauto. }
  split; [exact Hcols|].
  rewrite validate_dataset_true. rewrite Hcols.
  split.
  - intros Hall c Hc. specialize (Hall c Hc).
    apply list_elem_of_filter in Hall as [_ Hin].
    rewrite !elem_of_app, list_elem_of_filter in Hin. tauto.
  - intros Hall c Hc. apply list_elem_of_filter. split.
    + revert c Hc. apply Forall_forall. by_compute.
    + rewrite !elem_of_app, list_elem_of_filter.
      destruct (Hall c Hc) as [?|[?|?]]; [by left| |by right; right].
      destruct (decide (c ∈ columns (a_office_data p))); [by left|by right; left].
Qed.

Lemma unified_columns_witness :
  ∃ u, generate_unified_dataset ex_reindexed = Ok u ∧ columns u = ["x"; "left"].
Proof.
  destruct (unified_columns ex_reindexed
              (mkDF ["x"; "left"]
                 [(VStr "A1", [VStr "r"; VInt 0]); (VStr "A10", [VStr "q"; VInt 0]);
                  (VStr "A2", [VStr "p"; VInt 0]); (VStr "B2", [VStr "s"; VInt 1])]))
    as [Hcols _].
  - reflexivity.
  - intros c Hc.
    assert (c ∈ ["employee_office_id"; "x"]) as Hin by (by destruct Hc).
    clear Hc. revert c Hin. apply Forall_forall. by_compute.
  - eexists. split; [reflexivity|]. etrans; [exact Hcols|]. by vm_compute.
Defined.
(** ** Projects of the IT department with low salaries *)

Lemma bind_Ok {A B} (a : A) (f : A → result B) : Ok a ≫= f = f a.
Proof. done. Qed.

Lemma col_pos_is_Some c cols i : col_pos c cols = Some i → c ∈ cols.
Proof.
  intros Hi. destruct (decide (c ∈ cols)) as [|Hn]; [done|].
  by rewrite (col_pos_None _ _ Hn) in Hi.
Qed.

Lemma get_column_field c df :
  c ∈ columns df →
  ∃ i, col_pos c (columns df) = Some i ∧
       get_column c df = Ok (cell i ∘ snd <$> rows df) ∧
       ∀ r, field c df r = Some (cell i r.2).
Proof.
  intros [i Hi]%col_pos_Some. exists i. unfold get_column, field. by rewrite Hi.
Qed.

Lemma get_column_loc_rows c mask df vs :
  get_column c df = Ok vs → get_column c (loc_rows mask df) = Ok (select mask vs).
Proof.
  unfold get_column, loc_rows. cbn [columns rows].
  destruct (col_pos c (columns df)) as [i|]; [|done]. intros [= <-]. f_equal.
  unfold select. generalize (rows df). clear. intros l. revert mask.
  induction l as [|r l IH]; intros [|b mask]; try done.
  cbn [fmap list_fmap zip zip_with]. rewrite !filter_cons. cbn [fst].
  destruct (decide (b = true)); cbn [fmap list_fmap snd]; by rewrite <-IH.
Qed.

Lemma value_eqb_str_r s v : value_eqb v (VStr s) = true ↔ v = VStr s.
Proof.
  destruct v; simpl; try (split; [done|congruence]).
  rewrite bool_decide_eq_true. split; congruence.
Qed.

Lemma wrap64_in_range z : - 2 ^ 63 ≤ z < 2 ^ 63 → wrap64 z = z.
Proof. intros Hz. unfold wrap64. rewrite Z.mod_small; lia. Qed.

Lemma wrap64_range z : - 2 ^ 63 ≤ wrap64 z < 2 ^ 63.
Proof. unfold wrap64. pose proof (Z.mod_pos_bound (z + 2 ^ 63) (2 ^ 64)). lia. Qed.

Section it_projects.
Variable int_of_other_sum : list value → result Z.

(** X4. With the three columns present and a [number_project] column of
    64-bit integers, the result is the sum of the numbers of projects of
    the rows of the IT department with a low salary, held in 64 bits: the
    sum itself when it is within the range of [int64] (so 0 when no row is
    selected), and wrapped around otherwise. *)
Theorem total_projects_it_low_salary_sum dataset :
  "Department" ∈ columns dataset → "salary" ∈ columns dataset →
  "number_project" ∈ columns dataset →
  (∀ r, r ∈ rows dataset →
        ∃ z, field "number_project" dataset r = Some (VInt z) ∧ - 2 ^ 63 ≤ z < 2 ^ 63) →
  let total :=
    Zsum (int_cells (field "number_project" dataset <$> it_low_salary dataset)) in
  total_projects_it_low_salary int_of_other_sum dataset = Ok (wrap64 total) ∧
  (- 2 ^ 63 ≤ total < 2 ^ 63 →
   total_projects_it_low_salary int_of_other_sum dataset = Ok total).
Proof.
  intros (i & _ & Hdep & Fdep)%get_column_field (j & _ & Hsal & Fsal)%get_column_field
         (k & _ & Hnp & Fnp)%get_column_field Hint total.
  assert (total_projects_it_low_salary int_of_other_sum dataset = Ok (wrap64 total))
    as Hsum; [|split; [done|intros Hr; by rewrite Hsum, wrap64_in_range]].
  unfold total_projects_it_low_salary. rewrite Hdep, Hsal, !bind_Ok.
  rewrite (get_column_loc_rows _ _ _ _ Hnp), bind_Ok.
  assert (is_int64_column "number_project" dataset = true) as ->.
  { unfold is_int64_column. rewrite Hnp. apply forallb_forall.
    intros v (r & -> & Hr)%list_elem_of_In%list_elem_of_fmap.
    destruct (Hint r Hr) as (z & Hz & Hrange). rewrite Fnp in Hz. injection Hz as Hz.
    cbn [compose]. rewrite Hz. by apply bool_decide_eq_true. }
  unfold int_sum. do 2 f_equal. unfold total.
  unfold series_and, series_eq. rewrite <-!list_fmap_compose, zip_with_fmap_diag.
  rewrite select_fmap.
  assert (filter (λ r : value * list value,
                    ((λ v, value_eqb v (VStr "IT")) ∘ (cell i ∘ snd)) r &&
                    ((λ v, value_eqb v (VStr "low")) ∘ (cell j ∘ snd)) r) (rows dataset)
          = it_low_salary dataset) as ->.
  { unfold it_low_salary. apply list_filter_iff. intros r.
    rewrite Fdep, Fsal, andb_True, !Is_true_true. cbn [compose].
    rewrite !value_eqb_str_r. split; intros [? ?]; split; congruence. }
  assert (Forall (λ r, ∃ z, field "number_project" dataset r = Some (VInt z))
                 (it_low_salary dataset)) as Hsel.
  { apply Forall_forall. intros r [_ Hr]%list_elem_of_filter.
    destruct (Hint r Hr) as (z & Hz & _). by exists z. }
  revert Hsel. generalize (it_low_salary dataset). intros l Hsel.
  induction Hsel as [|r l [z Hz] _ IH]; [done|].
  pose proof Hz as Hc. rewrite Fnp in Hc. injection Hc as Hc.
  cbn [fmap list_fmap ints int_cells omap list_omap compose]. rewrite Hz, Hc.
  cbn [Zsum foldr]. f_equal. exact IH.
Qed.

End it_projects.

Lemma total_projects_it_low_salary_sum_witness :
  total_projects_it_low_salary no_other_sum ex_it = Ok 10%Z.
Proof.
  apply (total_projects_it_low_salary_sum no_other_sum ex_it); [by_compute..| |by_compute].
  intros r Hr. unfold ex_it in Hr. cbn [rows] in Hr.
  repeat (apply elem_of_cons in Hr as [->|Hr]); [..|by apply elem_of_nil in Hr];
    (eexists; split; [reflexivity|lia]).
Defined.

(** A sum beyond the range of [int64] wraps around. *)
Example total_projects_it_low_salary_wraps :
  total_projects_it_low_salary no_other_sum ex_it_big = Ok (- 2 ^ 63).
Proof. by vm_compute. Qed.

(** ** The listed employees *)

Lemma mapM_Forall2 {A B} (f : A → result B) (P : A → B → Prop) l :
  (∀ x, x ∈ l → ∃ y, f x = Ok y ∧ P x y) →
  ∃ ys, mapM f l = Ok ys ∧ Forall2 P l ys.
Proof.
  induction l as [|x l IH]; intros Hf.
  - exists []. by split; [|constructor].
  - destruct (Hf x) as (y & Hy & HP); [by left|].
    destruct IH as (ys & Hys & HPs); [intros z Hz; apply Hf; by right|].
    exists (y :: ys). split; [|by constructor].
    cbn [mapM]. rewrite Hy, Hys. done.
Qed.

Lemma mapM_Raise {A B} (f : A → result B) l1 x l2 e :
  (∀ z, z ∈ l1 → ∃ y, f z = Ok y) → f x = Raise e →
  mapM f (l1 ++ x :: l2) = Raise e.
Proof.
  intros Hok Hx. induction l1 as [|z l1 IH]; cbn [app mapM].
  - by rewrite Hx.
  - destruct (Hok z) as [y ->]; [by left|].
    rewrite IH by (intros; apply Hok; by right). done.
Qed.

Lemma filter_label_nil (k : value) (l : list (value * list value)) :
  k ∉ l.*1 → filter (λ r : value * list value, r.1 = k) l = [].
Proof.
  intros Hk. induction l as [|r l IH]; [done|].
  rewrite fmap_cons, not_elem_of_cons in Hk. destruct Hk as [? ?].
  rewrite filter_cons, decide_False by congruence. by apply IH.
Qed.

Lemma filter_label_unique (k : value) (l : list (value * list value)) r :
  NoDup l.*1 → r ∈ l → r.1 = k → filter (λ r : value * list value, r.1 = k) l = [r].
Proof.
  intros Hnd Hr Hk. induction l as [|r' l IH]; [by apply elem_of_nil in Hr|].
  rewrite fmap_cons, NoDup_cons in Hnd. destruct Hnd as [Hr' Hnd].
  rewrite filter_cons. apply elem_of_cons in Hr as [<-|Hr].
  - rewrite decide_True by done. f_equal. apply filter_label_nil. by rewrite <-Hk.
  - rewrite decide_False; [by apply IH|].
    intros Heq. apply Hr'. rewrite Heq, <-Hk. apply list_elem_of_fmap. by exists r.
Qed.

Lemma filter_label_eqb s (l : list (value * list value)) :
  filter (λ r : value * list value, value_eqb (VStr s) r.1) l =
  filter (λ r : value * list value, r.1 = VStr s) l.
Proof. apply list_filter_iff. intros r. by rewrite Is_true_true, value_eqb_str. Qed.

Section employees.
Variable float_of_str : string → result value.

Lemma py_float_number v : is_strb v = false → py_float float_of_str v = Ok (as_float v).
Proof. by destruct v. Qed.

Lemma specific_employee_absent dataset emp_id :
  VStr emp_id ∉ index dataset →
  specific_employee float_of_str dataset emp_id = Ok [None; None].
Proof.
  intros Hk. unfold specific_employee.
  by rewrite filter_label_eqb, filter_label_nil.
Qed.

Lemma specific_employee_KeyError dataset emp_id :
  VStr emp_id ∈ index dataset →
  ("last_evaluation" ∉ columns dataset) ∨ ("satisfaction_level" ∉ columns dataset) →
  specific_employee float_of_str dataset emp_id = Raise KeyError.
Proof.
  intros Hk Hcols. unfold specific_employee. rewrite filter_label_eqb.
  destruct (filter _ (rows dataset)) as [|r others] eqn:Hf.
  - apply list_elem_of_fmap in Hk as (r & Hr & Hin).
    assert (r ∈ filter (λ r : value * list value, r.1 = VStr emp_id) (rows dataset)) as Hin'
      by by apply list_elem_of_filter.
    rewrite Hf in Hin'. by apply elem_of_nil in Hin'.
  - destruct Hcols as [Hc|Hc]; rewrite (col_pos_None _ _ Hc); [done|].
    by destruct (col_pos _ _).
Qed.

Lemma specific_employee_found dataset emp_id r :
  NoDup (index dataset) → r ∈ rows dataset → r.1 = VStr emp_id →
  "last_evaluation" ∈ columns dataset → "satisfaction_level" ∈ columns dataset →
  ∀ le sl, field "last_evaluation" dataset r = Some le →
           field "satisfaction_level" dataset r = Some sl →
           is_strb le = false → is_strb sl = false →
  specific_employee float_of_str dataset emp_id =
    Ok [Some (as_float le); Some (as_float sl)].
Proof.
  intros Hnd Hr Hk (i & Hi & _ & Fi)%get_column_field (j & Hj & _ & Fj)%get_column_field
         le sl Hle Hsl Nle Nsl.
  unfold specific_employee. rewrite filter_label_eqb.
  rewrite (filter_label_unique _ _ r) by done. rewrite Hi, Hj.
  rewrite Fi in Hle. rewrite Fj in Hsl. injection Hle as ->. injection Hsl as ->.
  by rewrite !py_float_number.
Qed.

(** X5. On a table with unique labels that has the two score columns, with
    no string in them for the listed employees, the result has one entry
    per listed identifier, in the order of the list: [None, None] when the
    identifier is not a label, and otherwise the last evaluation and the
    satisfaction level of the row with this label, as floats. *)
Theorem specific_employees_data_entries dataset :
  NoDup (index dataset) →
  "last_evaluation" ∈ columns dataset → "satisfaction_level" ∈ columns dataset →
  (∀ r emp_id c v, r ∈ rows dataset → emp_id ∈ employee_ids → r.1 = VStr emp_id →
     c ∈ ["last_evaluation"; "satisfaction_level"] →
     field c dataset r = Some v → is_strb v = false) →
  ∃ result,
    specific_employees_data float_of_str dataset = Ok result ∧
    Forall2 (λ emp_id entry,
               ((VStr emp_id ∉ index dataset) ∧ entry = [None; None]) ∨
               (∃ r, r ∈ rows dataset ∧ r.1 = VStr emp_id ∧
                     entry = [as_float <$> field "last_evaluation" dataset r;
                              as_float <$> field "satisfaction_level" dataset r]))
            employee_ids result.
Proof.
  intros Hnd Hle Hsl Hnum. apply mapM_Forall2. intros emp_id Hid.
  destruct (decide (VStr emp_id ∈ index dataset)) as [Hin|Hout].
  - apply list_elem_of_fmap in Hin as (r & Hk & Hr).
    destruct (get_column_field _ _ Hle) as (i & _ & _ & Fi).
    destruct (get_column_field _ _ Hsl) as (j & _ & _ & Fj).
    eexists. split.
    + eapply (specific_employee_found _ _ r); try done.
      * eapply (Hnum r emp_id "last_evaluation"); try done. by left.
      * eapply (Hnum r emp_id "satisfaction_level"); try done. right; by left.
    + right. exists r. by rewrite Fi, Fj.
  - eexists. split; [by apply specific_employee_absent|]. by left.
Qed.

(** X6. When one of the two score columns is missing, the function raises
    [KeyError] if a listed identifier is a label of the table, and returns
    [None, None] three times if none is: the columns are looked up only for
    an employee that is found. *)
Theorem specific_employees_data_missing_column dataset :
  ("last_evaluation" ∉ columns dataset) ∨ ("satisfaction_level" ∉ columns dataset) →
  specific_employees_data float_of_str dataset =
    if decide (Exists (λ emp_id, VStr emp_id ∈ index dataset) employee_ids)
    then Raise KeyError else Ok (replicate 3 [None; None]).
Proof.
  intros Hcols. unfold specific_employees_data.
  destruct (decide _) as [Hex|Hnone].
  - apply Exists_exists in Hex as (emp_id & Hid & Hin).
    assert (∃ l1 x l2, employee_ids = l1 ++ x :: l2 ∧ VStr x ∈ index dataset ∧
                       Forall (λ z, VStr z ∉ index dataset) l1) as (l1 & x & l2 & -> & Hx & Hl1).
    { clear Hcols. revert Hid. generalize employee_ids. intros l.
      induction l as [|z l IH]; intros Hid; [by apply elem_of_nil in Hid|].
      destruct (decide (VStr z ∈ index dataset)) as [Hz|Hz].
      - exists [], z, l. by repeat split.
      - apply elem_of_cons in Hid as [->|Hid]; [done|].
        destruct (IH Hid) as (l1 & x & l2 & -> & ? & ?).
        exists (z :: l1), x, l2. repeat split; [done|]. by constructor. }
    apply mapM_Raise; [|by apply specific_employee_KeyError].
    intros z Hz. exists [None; None]. apply specific_employee_absent.
    by apply (proj1 (Forall_forall _ _) Hl1).
  - rewrite <-Forall_Exists_neg in Hnone.
    destruct (mapM_Forall2 (specific_employee float_of_str dataset)
                (λ _ entry, entry = [None; None]) employee_ids) as (ys & -> & Hys).
    { intros x Hx. exists [None; None]. split; [|done].
      apply specific_employee_absent. by apply (proj1 (Forall_forall _ _) Hnone). }
    f_equal. unfold employee_ids in Hys.
    repeat (apply Forall2_cons_inv_l in Hys as (? & ? & -> & Hys & ->)).
    by apply Forall2_nil_inv_l in Hys as ->.
Qed.

End employees.

Lemma specific_employees_data_entries_witness :
  ∃ result,
    specific_employees_data no_float_of_str ex_it = Ok result ∧
    Forall2 (λ emp_id entry,
               ((VStr emp_id ∉ index ex_it) ∧ entry = [None; None]) ∨
               (∃ r, r ∈ rows ex_it ∧ r.1 = VStr emp_id ∧
                     entry = [as_float <$> field "last_evaluation" ex_it r;
                              as_float <$> field "satisfaction_level" ex_it r]))
            employee_ids result.
Proof.
  apply (specific_employees_data_entries no_float_of_str ex_it); [by_compute..|].
  intros r emp_id c v Hr _ _ Hc Hf. unfold ex_it in Hr. cbn [rows] in Hr.
  repeat (apply elem_of_cons in Hr as [->|Hr]); [..|by apply elem_of_nil in Hr];
    repeat (apply elem_of_cons in Hc as [->|Hc]); try (by apply elem_of_nil in Hc);
    by injection Hf as <-.
Defined.

Lemma specific_employees_data_missing_column_witness :
  specific_employees_data no_float_of_str (mkDF ["salary"] [(VStr "A4", [VStr "low"])])
  = Raise KeyError.
Proof.
  rewrite specific_employees_data_missing_column; [reflexivity|left; by_compute].
Defined.
(** ** The report and the preparation *)

Section report.
Variable int_of_other_sum : list value → result Z.
Variable float_of_str : string → result value.
Context {fl : Float64}.

(** X7. The report of a table that lacks a required column is never
    computed: the schema check of the first query raises [ValueError], so
    the [KeyError] that a later query would raise for this column is not
    seen. *)
Theorem generate_comprehensive_report_schema dataset c :
  c ∈ required_columns → c ∉ columns dataset →
  generate_comprehensive_report int_of_other_sum float_of_str (Some dataset) =
    Raise (ValueError "Dataset validation failed").
Proof.
  intros Hc Hmiss. unfold generate_comprehensive_report, employees_metrics.
  by rewrite (validate_dataset_false _ c).
Qed.

(** X8. A report that is returned holds the shape, the columns and the
    first ten labels of the table, and the result of each of the six
    queries on that table; the table then has every required column. *)
Theorem generate_comprehensive_report_Ok dataset rep :
  generate_comprehensive_report int_of_other_sum float_of_str (Some dataset) = Ok rep →
  dataset_info rep = mkInfo (length (rows dataset), length (columns dataset))
                            (columns dataset) (take 10 (index dataset)) ∧
  employees_metrics dataset = Ok (employee_metrics rep) ∧
  median_salaries_by_department dataset = Ok (department_analysis rep) ∧
  employees_time_spend_company dataset = Ok (time_analysis rep) ∧
  top_10_departments_by_hours dataset = Ok (top_departments rep) ∧
  total_projects_it_low_salary int_of_other_sum dataset = Ok (it_projects_total rep) ∧
  specific_employees_data float_of_str dataset = Ok (specific_employees rep) ∧
  ∀ c, c ∈ required_columns → c ∈ columns dataset.
Proof.
  unfold generate_comprehensive_report. intros Hrep.
  assert (validate_dataset dataset = true) as Hv.
  { destruct (validate_dataset dataset) eqn:Hv; [done|].
    unfold employees_metrics in Hrep. by rewrite Hv in Hrep. }
  destruct (employees_metrics dataset) as [m|]; [|done].
  destruct (median_salaries_by_department dataset) as [d|]; [|done].
  destruct (employees_time_spend_company dataset) as [t|]; [|done].
  destruct (top_10_departments_by_hours dataset) as [tp|]; [|done].
  destruct (total_projects_it_low_salary _ dataset) as [it|]; [|done].
  destruct (specific_employees_data _ dataset) as [sp|]; [|done].
  injection Hrep as <-. cbn [dataset_info employee_metrics department_analysis
    time_analysis top_departments it_projects_total specific_employees].
  repeat split. by apply validate_dataset_true.
Qed.

End report.

Lemma generate_comprehensive_report_schema_witness :
  generate_comprehensive_report (fl := exact_arithmetic) no_other_sum no_float_of_str (Some ex_15) =
    Raise (ValueError "Dataset validation failed").
Proof.
  apply (generate_comprehensive_report_schema _ _ (fl := exact_arithmetic) ex_15 "left"); by_compute.
Defined.

Lemma generate_comprehensive_report_Ok_witness :
  ∃ rep,
    generate_comprehensive_report (fl := exact_arithmetic) no_other_sum no_float_of_str (Some ex_u) = Ok rep ∧
    total_projects_it_low_salary no_other_sum ex_u = Ok (it_projects_total rep).
Proof.
  eexists. split; [reflexivity|].
  eapply (generate_comprehensive_report_Ok no_other_sum no_float_of_str (fl := exact_arithmetic) ex_u).
  reflexivity.
Defined.
Section prepare.
Variable float_str : Q → string.
Variable load_sources : result project_dataframes.

(** X9. The preparation raises what loading the sources raises; with the
    sources loaded it raises [KeyError] when an identifier column is
    missing, and otherwise it keeps the reindexed sources and stores their
    unified table, so that the report finds a table. *)
Theorem prepare_project_structure_result :
  (∀ e, load_sources = Raise e →
        prepare_project_structure float_str load_sources = Raise e) ∧
  (∀ sources, load_sources = Ok sources →
     (("employee_office_id" ∉ columns (a_office_data sources)) ∨
      ("employee_office_id" ∉ columns (b_office_data sources)) ∨
      ("employee_id" ∉ columns (hr_data sources)) →
      prepare_project_structure float_str load_sources = Raise KeyError) ∧
     ("employee_office_id" ∈ columns (a_office_data sources) →
      "employee_office_id" ∈ columns (b_office_data sources) →
      "employee_id" ∈ columns (hr_data sources) →
      ∃ reindexed unified,
        reindex_dataframes float_str sources = Ok reindexed ∧
        generate_unified_dataset reindexed = Ok unified ∧
        prepare_project_structure float_str load_sources =
          Ok (mkPrepared reindexed (Some unified)))).
Proof.
  unfold prepare_project_structure. split; [by intros e ->|].
  intros sources ->. unfold mbind at 1, result_bind at 1. cbn beta iota. split.
  - intros Hmiss. unfold reindex_dataframes, set_index.
    destruct (get_column_cases "employee_office_id" (a_office_data sources))
      as [[Ha [a_ids ->]]|[Ha ->]]; [|done].
    destruct (get_column_cases "employee_office_id" (b_office_data sources))
      as [[Hb [b_ids ->]]|[Hb ->]]; [|done].
    destruct (get_column_cases "employee_id" (hr_data sources))
      as [[Hhr [hr_ids ->]]|[Hhr ->]]; [|done].
    by destruct Hmiss as [?|[?|?]].
  - intros Ha Hb Hhr.
    destruct (get_column_is_Ok _ _ Ha) as [a_ids Ha'].
    destruct (get_column_is_Ok _ _ Hb) as [b_ids Hb'].
    destruct (get_column_is_Ok _ _ Hhr) as [hr_ids Hhr'].
    unfold mbind, result_bind. cbn beta iota.
    rewrite (reindex_dataframes_Ok _ _ _ _ _ Ha' Hb' Hhr').
    set (reindexed := mkPD _ _ _).
    destruct (generate_unified_dataset_Ok reindexed) as (unified & Hu & _).
    exists reindexed, unified. by rewrite Hu.
Qed.

End prepare.
(** ** Strings in a numeric column *)

Lemma mapM_Raise_inv {A B} (f : A → result B) l e :
  mapM f l = Raise e → ∃ x, x ∈ l ∧ f x = Raise e.
Proof.
  induction l as [|x l IH]; [done|]. cbn [mapM].
  destruct (f x) as [y|e'] eqn:Hx.
  - destruct (mapM f l) as [ys|e'']; [done|].
    intros [= <-]. destruct IH as (z & ? & ?); [done|]. exists z. split; [by right|done].
  - intros [= <-]. exists x. split; [by left|done].
Qed.

Lemma mapM_Ok_inv {A B} (f : A → result B) l ys :
  mapM f l = Ok ys → ∀ x, x ∈ l → ∃ y, f x = Ok y.
Proof.
  revert ys. induction l as [|x l IH]; intros ys; [by intros _ z ?%elem_of_nil|].
  cbn [mapM]. destruct (f x) as [y|] eqn:Hx; [|done].
  destruct (mapM f l) as [ys'|]; [|done]. intros _ z [->|Hz]%elem_of_cons; [by exists y|].
  by eapply IH.
Qed.

Lemma to_numeric_cases v :
  (is_strb v = false ∧ ∃ o, to_numeric v = Ok o) ∨
  (is_strb v = true ∧ to_numeric v = Raise TypeError).
Proof. destruct v; (by right) || (left; split; [done|by eexists]). Qed.

(** A column is numeric when it is present and holds no string; a string
    in it makes the numeric operations raise [TypeError]. *)
Lemma numeric_column_cases c df :
  c ∈ columns df →
  ∃ vs, get_column c df = Ok vs ∧
    ((Forall (λ v, is_strb v = false) vs ∧ ∃ os, numeric_column c df = Ok os) ∨
     (Exists (λ v, is_strb v = true) vs ∧ numeric_column c df = Raise TypeError)).
Proof.
  intros [vs Hvs]%get_column_is_Ok. exists vs. split; [done|].
  unfold numeric_column. rewrite Hvs. unfold mbind, result_bind.
  destruct (mapM to_numeric vs) as [os|e] eqn:Hm.
  - left. split; [|by eexists]. apply Forall_forall. intros v Hv.
    destruct (mapM_Ok_inv _ _ _ Hm v Hv) as [o Ho].
    by destruct (to_numeric_cases v) as [[? _]|[_ ?]]; [|congruence].
  - right. apply mapM_Raise_inv in Hm as (v & Hv & He).
    destruct (to_numeric_cases v) as [[_ [o ?]]|[Hs ?]]; [congruence|].
    split; [|congruence]. apply Exists_exists. by exists v.
Qed.

(** X10. The ranking by hours raises [KeyError] without the hours column,
    [TypeError] when that column holds a string, whether or not there is a
    department column, and [KeyError] when the hours are numeric and the
    department column is missing; in every other case it returns a list. *)
Theorem top_10_departments_by_hours_errors dataset :
  ("average_monthly_hours" ∉ columns dataset →
   top_10_departments_by_hours dataset = Raise KeyError) ∧
  (∀ hours, get_column "average_monthly_hours" dataset = Ok hours →
     (Exists (λ v, is_strb v = true) hours →
      top_10_departments_by_hours dataset = Raise TypeError) ∧
     (Forall (λ v, is_strb v = false) hours →
      ("Department" ∉ columns dataset →
       top_10_departments_by_hours dataset = Raise KeyError) ∧
      ("Department" ∈ columns dataset →
       ∃ departments, top_10_departments_by_hours dataset = Ok departments))).
Proof.
  unfold top_10_departments_by_hours, nlargest. split.
  - intros Hc. unfold numeric_column. by rewrite get_column_KeyError.
  - intros hours Hh.
    assert ("average_monthly_hours" ∈ columns dataset) as Hc.
    { by destruct (get_column_cases "average_monthly_hours" dataset)
        as [[? _]|[_ ?]]; [|congruence]. }
    destruct (numeric_column_cases _ _ Hc) as (vs & Hvs & Hcases).
    assert (vs = hours) as -> by congruence.
    split.
    + intros Hex. destruct Hcases as [[Hall _]|[_ ->]]; [|done].
      apply Exists_exists in Hex as (v & Hv & Hs).
      apply (proj1 (Forall_forall _ _) Hall) in Hv. congruence.
    + intros Hall. destruct Hcases as [[_ [os ->]]|[Hex _]].
      * unfold mbind at 2, result_bind at 2. cbn beta iota.
        unfold mbind, result_bind, mret, result_ret.
        split; intros Hd.
        -- apply get_column_KeyError. by unfold take_rows.
        -- apply get_column_is_Ok. by unfold take_rows.
      * apply Exists_exists in Hex as (v & Hv & Hs).
        apply (proj1 (Forall_forall _ _) Hall) in Hv. congruence.
Qed.
Section metrics_errors.
Context {fl : Float64}.

(** X11. On a table that passes the schema check, the metrics are returned
    exactly when none of the four aggregated columns holds a string, and
    the only exception they raise is [TypeError]; the grouping column
    [left] may hold strings. *)
Theorem employees_metrics_errors dataset :
  validate_dataset dataset = true →
  ((∃ result, employees_metrics dataset = Ok result) ↔
   ∀ c vs, c ∈ ["number_project"; "time_spend_company"; "Work_accident"; "last_evaluation"] →
           get_column c dataset = Ok vs → Forall (λ v, is_strb v = false) vs) ∧
  (∀ e, employees_metrics dataset = Raise e → e = TypeError).
Proof.
  intros Hv. pose proof (proj1 (validate_dataset_true _) Hv) as Hcols.
  unfold employees_metrics, groupby_agg. rewrite Hv. cbn [negb].
  destruct (get_column_is_Ok "left" dataset) as [ls ->]; [apply Hcols; by_compute|].
  rewrite bind_Ok. cbn beta.
  match goal with |- context [mapM ?f ?l] => set (F := f); set (spec := l) end.
  assert (Hspec : ∀ cs : string * list (string * agg_fun),
            cs ∈ spec → cs.1 ∈ columns dataset).
  { intros cs Hcs. apply Hcols.
    assert (Forall (λ cs : string * list (string * agg_fun), cs.1 ∈ required_columns) spec)
      as Hall by by_compute.
    by apply (proj1 (Forall_forall _ _) Hall). }
  assert (HF : ∀ cs : string * list (string * agg_fun), cs ∈ spec →
            (∃ y, F cs = Ok y) ∨ F cs = Raise TypeError).
  { intros cs Hcs. unfold F. cbn beta.
    destruct (numeric_column_cases _ _ (Hspec cs Hcs)) as (vs & _ & [[_ [os ->]]|[_ ->]]);
      [left; by eexists|by right]. }
  split; [split|].
  - intros [result Hres] c vs Hc Hvs.
    destruct (mapM F spec) as [cols|] eqn:Hm; [|done].
    assert (∃ fs, (c, fs) ∈ spec) as [fs Hfs].
    { unfold spec. clear -Hc.
      repeat (apply elem_of_cons in Hc as [->|Hc];
        [eexists; repeat first [by left | right]|]).
      by apply elem_of_nil in Hc. }
    destruct (mapM_Ok_inv _ _ _ Hm _ Hfs) as [y Hy]. unfold F in Hy. cbn beta in Hy. cbn [fst] in Hy.
    destruct (numeric_column_cases c dataset) as (vs' & Hvs' & [[? _]|[_ Hr]]).
    + by apply (Hspec _ Hfs).
    + congruence.
    + by rewrite Hr in Hy.
  - intros Hall.
    destruct (mapM_Forall2 F (λ _ _, True) spec) as (cols & -> & _); [|by eexists].
    intros cs Hcs. unfold F. cbn beta.
    destruct (numeric_column_cases _ _ (Hspec cs Hcs)) as (vs & Hvs & [[_ [os ->]]|[Hex _]]);
      [by eexists|].
    apply Exists_exists in Hex as (v & Hin & Hs).
    assert (Forall (λ v, is_strb v = false) vs) as Hno.
    { apply (Hall cs.1); [|done]. clear -Hcs. revert cs Hcs.
      apply (proj1 (Forall_forall _ _)). by_compute. }
    apply (proj1 (Forall_forall _ _) Hno) in Hin. congruence.
  - intros e He. destruct (mapM F spec) as [cols|e'] eqn:Hm; [done|].
    injection He as <-. apply mapM_Raise_inv in Hm as (cs & Hcs & He).
    destruct (HF cs Hcs) as [[y ?]|?]; congruence.
Qed.

End metrics_errors.

Lemma employees_metrics_errors_witness :
  ∃ result, employees_metrics (fl := exact_arithmetic) ex_u = Ok result.
Proof.
  apply (employees_metrics_errors (fl := exact_arithmetic) ex_u); [reflexivity|].
  intros c vs Hc Hvs.
  repeat (apply elem_of_cons in Hc as [->|Hc];
          [injection Hvs as <-; repeat constructor|]).
  by apply elem_of_nil in Hc.
Defined.
(** ** The cells of the unified dataset *)

Lemma col_pos_lookup c cols i : col_pos c cols = Some i → cols !! i = Some c.
Proof.
  revert i. induction cols as [|c' cols IH]; intros i; [done|]. cbn [col_pos].
  destruct (decide (c = c')) as [->|]; [by intros [= <-]|].
  destruct (col_pos c cols) as [j|]; [|done]. intros [= <-]. by apply IH.
Qed.

Lemma col_pos_app_l c l1 l2 : c ∈ l1 → col_pos c (l1 ++ l2) = col_pos c l1.
Proof.
  induction l1 as [|c' l1 IH]; [by intros ?%elem_of_nil|].
  cbn [app col_pos]. destruct (decide (c = c')); [done|].
  intros [?|Hin]%elem_of_cons; [done|]. by rewrite IH.
Qed.

Lemma col_pos_app_r c l1 l2 :
  c ∉ l1 → col_pos c (l1 ++ l2) = (λ j, length l1 + j)%nat <$> col_pos c l2.
Proof.
  induction l1 as [|c' l1 IH]; intros Hc.
  - cbn [app length]. by destruct (col_pos c l2).
  - apply not_elem_of_cons in Hc as [? ?]. cbn [app col_pos length].
    rewrite decide_False by done. rewrite IH by done. by destruct (col_pos c l2).
Qed.

Lemma reproject_length src dst r : length (reproject src dst r) = length dst.
Proof. unfold reproject. by rewrite length_fmap. Qed.

Lemma field_sort_index c df r : field c (sort_index df) r = field c df r.
Proof. done. Qed.

Lemma field_drop_columns cs c df r :
  c ∉ cs →
  field c (drop_columns cs df) (prod_map id (drop_cells cs (columns df)) r) = field c df r.
Proof.
  intros Hc. unfold field, drop_columns. cbn [columns].
  pose proof (col_pos_drop_cells cs c (columns df) r.2 Hc) as Hpos.
  destruct (col_pos c (columns df)) as [i|].
  - destruct Hpos as (j & -> & Hcell). destruct r as [k x]. simpl in *. by rewrite Hcell.
  - by rewrite Hpos.
Qed.

(** A cell of a concatenated row: the cell of the row in its own frame, NaN
    for a column that frame does not have. *)
Lemma field_concat c df dfs r :
  c ∈ union_columns dfs →
  field c (concat dfs) (prod_map id (reproject (columns df) (union_columns dfs)) r) =
    Some (default VNaN (field c df r)).
Proof.
  intros [i Hi]%col_pos_Some. unfold field, concat. cbn [columns]. rewrite Hi.
  destruct r as [k x]. cbn [prod_map snd mbind option_bind]. f_equal.
  unfold cell at 1, reproject. rewrite list_lookup_fmap, (col_pos_lookup _ _ _ Hi).
  cbn [fmap option_fmap option_map default]. by destruct (col_pos c (columns df)).
Qed.

(** A cell of a merged row, when the two frames share no column. *)
Lemma field_merge_l c left right (l r : value * list value) :
  (∀ c', c' ∈ columns left → c' ∉ columns right) →
  length l.2 = length (columns left) → c ∈ columns left →
  field c (merge left right) (l.1, l.2 ++ r.2) = field c left l.
Proof.
  intros Hd Hlen Hc. unfold field, merge. cbn [columns snd].
  rewrite !suffixed_disjoint by (done || intros c' ? ?; by apply (Hd c')).
  rewrite col_pos_app_l by done.
  destruct (col_pos c (columns left)) as [i|] eqn:Hi; [|done]. simpl. f_equal.
  unfold cell. rewrite lookup_app_l; [done|].
  rewrite Hlen. by eapply lookup_lt_Some, col_pos_lookup.
Qed.

Lemma field_merge_r c left right (l r : value * list value) :
  (∀ c', c' ∈ columns left → c' ∉ columns right) →
  length l.2 = length (columns left) → c ∉ columns left →
  field c (merge left right) (l.1, l.2 ++ r.2) = field c right r.
Proof.
  intros Hd Hlen Hc. unfold field, merge. cbn [columns snd].
  rewrite !suffixed_disjoint by (done || intros c' ? ?; by apply (Hd c')).
  rewrite col_pos_app_r by done. rewrite <-Hlen.
  destruct (col_pos c (columns right)) as [i|] eqn:Hi; [|done].
  cbn [fmap option_fmap option_map mbind option_bind]. f_equal.
  unfold cell. rewrite lookup_app_r by lia. do 2 f_equal. lia.
Qed.

Lemma elem_of_rows_merge left right r :
  r ∈ rows (merge left right) ↔
  ∃ l rr, l ∈ rows left ∧ rr ∈ rows right ∧ value_eqb l.1 rr.1 = true ∧
          r = (l.1, l.2 ++ rr.2).
Proof.
  unfold merge. cbn [rows]. rewrite list_elem_of_bind. split.
  - intros (l & (rr & -> & [Heq Hrr]%list_elem_of_filter)%list_elem_of_fmap & Hl).
    exists l, rr. by rewrite <-Is_true_true.
  - intros (l & rr & Hl & Hrr & Heq & ->). exists l. split; [|done].
    apply list_elem_of_fmap. exists rr. split; [done|].
    apply list_elem_of_filter. by rewrite Is_true_true.
Qed.

Lemma elem_of_rows_concat dfs l :
  l ∈ rows (concat dfs) ↔
  ∃ df ro, df ∈ dfs ∧ ro ∈ rows df ∧
           l = prod_map id (reproject (columns df) (union_columns dfs)) ro.
Proof.
  unfold concat. cbn [rows]. rewrite list_elem_of_bind. split.
  - intros (df & (ro & -> & Hro)%list_elem_of_fmap & Hdf). by exists df, ro.
  - intros (df & ro & Hdf & Hro & ->). exists df. split; [|done].
    apply list_elem_of_fmap. by exists ro.
Qed.
Lemma joins_unified_row p office ro rh :
  (∀ c, c ∈ columns (a_office_data p) ∨ c ∈ columns (b_office_data p) →
        c ∉ columns (hr_data p)) →
  let offices := [a_office_data p; b_office_data p] in
  let merged := merge (concat offices) (hr_data p) in
  let dropped := filter (λ col, col ∈ columns merged) ["employee_office_id"; "employee_id"] in
  let l := prod_map id (reproject (columns office) (union_columns offices)) ro in
  joins p (sort_index (drop_columns dropped merged)) office ro rh
        (prod_map id (drop_cells dropped (columns merged)) (l.1, l.2 ++ rh.2)).
Proof.
  intros Hdisj offices merged dropped l.
  assert (Hu : ∀ c, c ∈ union_columns offices ↔
                    c ∈ columns (a_office_data p) ∨ c ∈ columns (b_office_data p)).
  { intros c. unfold offices. rewrite union_columns2, elem_of_app, list_elem_of_filter.
    destruct (decide (c ∈ columns (a_office_data p))); tauto. }
  assert (Hd : ∀ c, c ∈ columns (concat offices) → c ∉ columns (hr_data p)).
  { intros c Hc. apply Hdisj. by apply Hu. }
  assert (Hlen : length l.2 = length (columns (concat offices))).
  { unfold l. destruct ro. cbn [prod_map snd]. apply reproject_length. }
  split; [by destruct ro|].
  intros c Hc.
  assert (c ∉ dropped) as Hc'.
  { unfold dropped. rewrite list_elem_of_filter. tauto. }
  rewrite field_sort_index, field_drop_columns by done. split.
  - intros Hin%Hu. unfold merged. rewrite field_merge_l by done.
    unfold l. by apply field_concat.
  - intros Hin. unfold merged. rewrite field_merge_r; [done..|].
    intros Hin'. by apply (Hd c).
Qed.

(** X12. When no office column is also an HR column, the rows of the
    unified table are the joins of an office row and an HR row with the
    same label: every row of the table is such a join, and every pair of
    an office row and an HR row with equal labels has its row. *)
Theorem unified_dataset_cells p u :
  generate_unified_dataset p = Ok u →
  (∀ c, c ∈ columns (a_office_data p) ∨ c ∈ columns (b_office_data p) →
        c ∉ columns (hr_data p)) →
  (∀ r, r ∈ rows u →
     ∃ office ro rh,
       office ∈ [a_office_data p; b_office_data p] ∧ ro ∈ rows office ∧
       rh ∈ rows (hr_data p) ∧ value_eqb ro.1 rh.1 = true ∧
       joins p u office ro rh r) ∧
  (∀ office ro rh,
     office ∈ [a_office_data p; b_office_data p] → ro ∈ rows office →
     rh ∈ rows (hr_data p) → value_eqb ro.1 rh.1 = true →
     ∃ r, r ∈ rows u ∧ joins p u office ro rh r).
Proof.
  intros Hgen Hdisj. injection Hgen as <-.
  pose proof (λ office ro rh, joins_unified_row p office ro rh Hdisj) as Hjoin.
  cbv zeta in Hjoin. split.
  - intros r Hr. unfold sort_index in Hr. cbn [rows] in Hr.
    apply elem_of_sort_by in Hr. unfold drop_columns in Hr. cbn [rows] in Hr.
    apply list_elem_of_fmap in Hr as (rm & -> & Hrm).
    apply elem_of_rows_merge in Hrm as (l & rh & Hl & Hrh & Heq & ->).
    apply elem_of_rows_concat in Hl as (office & ro & Hoff & Hro & ->).
    exists office, ro, rh. do 3 (split; [done|]).
    split; [by destruct ro|apply Hjoin].
  - intros office ro rh Hoff Hro Hrh Heq.
    eexists. split; [|apply (Hjoin office ro rh)].
    unfold sort_index. cbn [rows]. apply elem_of_sort_by.
    unfold drop_columns. cbn [rows]. apply list_elem_of_fmap. eexists. split; [done|].
    apply elem_of_rows_merge. eexists _, rh.
    split; [apply elem_of_rows_concat; by exists office, ro|].
    split; [done|]. split; [by destruct ro|done].
Qed.

Lemma unified_dataset_cells_witness :
  ∃ u, generate_unified_dataset ex_reindexed = Ok u ∧
       ∀ r, r ∈ rows u →
         ∃ office ro rh,
           office ∈ [a_office_data ex_reindexed; b_office_data ex_reindexed] ∧
           ro ∈ rows office ∧ rh ∈ rows (hr_data ex_reindexed) ∧
           value_eqb ro.1 rh.1 = true ∧ joins ex_reindexed u office ro rh r.
Proof.
  eexists. split; [reflexivity|].
  apply (unified_dataset_cells ex_reindexed); [reflexivity|].
  intros c Hc.
  assert (c ∈ ["employee_office_id"; "x"]) as Hin by (by destruct Hc).
  clear Hc. revert c Hin. apply Forall_forall. by_compute.
Defined.
(** ** The time analysis *)

Lemma agg_get_Ok_by {K} (eqb : K → K → bool) (G : K → list value) key idx cols :
  (∀ c, eqb key c = true → G c = G key) →
  Exists (λ c, eqb key c) cols →
  agg_get eqb key (mkAgg idx ((λ c, (c, G c)) <$> cols)) = Ok (G key).
Proof.
  intros HG. unfold agg_get. cbn [agg_columns].
  induction cols as [|c cols IH]; [by intros ?%Exists_nil|].
  intros Hex. cbn [fmap list_fmap]. rewrite filter_cons. cbn [fst].
  destruct (decide (eqb key c)) as [E|E].
  - cbn [snd]. rewrite HG; [done|]. by apply Is_true_true.
  - apply IH. by apply Exists_cons in Hex as [?|?].
Qed.

Lemma agg_get_KeyError_by {K} (eqb : K → K → bool) (G : K → list value) key idx cols :
  ¬ Exists (λ c, eqb key c) cols →
  agg_get eqb key (mkAgg idx ((λ c, (c, G c)) <$> cols)) = Raise KeyError.
Proof.
  unfold agg_get. cbn [agg_columns].
  induction cols as [|c cols IH]; [done|].
  intros Hex. cbn [fmap list_fmap]. rewrite filter_cons. cbn [fst].
  destruct (decide (eqb key c)) as [E|E].
  - destruct Hex. by left.
  - apply IH. intros ?. apply Hex. by right.
Qed.

Section time_facts.

Context {fl : Float64}.

Lemma agg_round_cells {K} (cellf : K → value → option Q) idx (cols : list K) :
  agg_round (mkAgg idx ((λ c, (c, (λ d, of_float (cellf c d)) <$> idx)) <$> cols)) =
  mkAgg idx ((λ c, (c, (λ d, of_float (round2 <$> cellf c d)) <$> idx)) <$> cols).
Proof.
  unfold agg_round. cbn [agg_index agg_columns]. f_equal.
  rewrite <-list_fmap_compose. apply list_fmap_ext. intros _ c _. simpl. f_equal.
  rewrite <-list_fmap_compose. apply list_fmap_ext. intros _ d _. simpl.
  apply round_value_of_float.
Qed.

Lemma to_dict_loc_by {K} (G : K → value → value) (b : value → bool) idx (cols : list K) :
  to_dict (agg_loc (b <$> idx) (mkAgg idx ((λ c, (c, G c <$> idx)) <$> cols))) =
  (λ c, (c, (λ d, (d, G c d)) <$> filter (λ d, b d) idx)) <$> cols.
Proof.
  unfold to_dict, agg_loc. cbn [agg_index agg_columns].
  rewrite <-!list_fmap_compose. apply list_fmap_ext. intros _ c _. simpl. f_equal.
  by rewrite select_self, select_fmap, zip_fmap_self.
Qed.

Lemma group_mask_congr ts ps t p p' :
  value_eqb p p' = true → group_mask ts ps t p' = group_mask ts ps t p.
Proof.
  intros Hp. unfold group_mask.
  revert ps. induction ts as [|i ts IH]; intros [|k ps]; simpl; try done.
  by rewrite IH, (value_eqb_congr _ _ _ Hp).
Qed.

Lemma group_cell_rows ts ps vals f t p :
  group_cell ts ps vals f t p = f (time_rows_of ts ps vals t p).
Proof.
  unfold group_cell, group_mask, time_rows_of, select. f_equal.
  revert ps vals. induction ts as [|i ts IH]; intros [|k ps] [|v vals]; try done.
  cbn [zip_with]. rewrite !filter_cons. cbn [fst snd].
  destruct (value_eqb t i && value_eqb p k).
  - rewrite !decide_True by done. cbn [fmap list_fmap snd]. f_equal. apply IH.
  - rewrite !decide_False by done. apply IH.
Qed.

Lemma has_value_time_row ts ps vals g :
  has_value ts ps vals g = true ↔ time_row ts ps vals g.1 g.2.
Proof.
  unfold has_value, time_row. rewrite bool_decide_eq_true. split.
  - intros Hne. destruct (dropna _) as [|h l] eqn:Hd; [done|].
    assert (h ∈ dropna (select (group_mask ts ps g.1 g.2) vals)) as Hin
      by (rewrite Hd; by left).
    apply elem_of_dropna, elem_of_select in Hin as (j & Hm & Hv).
    apply lookup_zip_with_Some in Hm as (tj & pj & Hb & Ht & Hp).
    symmetry in Hb. apply andb_true_iff in Hb as [? ?].
    by exists j, tj, pj, h.
  - intros (j & tj & pj & h & Ht & Hp & Hv & H1 & H2) Hnil.
    assert (h ∈ dropna (select (group_mask ts ps g.1 g.2) vals)) as Hin.
    { apply elem_of_dropna, elem_of_select. exists j. split; [|done].
      apply lookup_zip_with_Some. exists tj, pj. by rewrite H1, H2. }
    rewrite Hnil in Hin. by apply elem_of_nil in Hin.
Qed.

Lemma time_row_self ts ps vals t p :
  time_row ts ps vals t p →
  ∃ t' p', (t', p') ∈ zip ts ps ∧ time_row ts ps vals t' p' ∧
           value_eqb t t' = true ∧ value_eqb p p' = true.
Proof.
  intros (j & tj & pj & h & Ht & Hp & Hv & H1 & H2).
  exists tj, pj. split; [|split; [|done]].
  - by apply (elem_of_lookup_zip_with_2 pair _ _ tj pj (tj, pj) j).
  - exists j, tj, pj, h. repeat split; try done.
    + eapply value_eqb_refl_l, value_eqb_sym, H1.
    + eapply value_eqb_refl_l, value_eqb_sym, H2.
Qed.

Lemma time_row_congr ts ps vals t t' p p' :
  value_eqb t t' = true → value_eqb p p' = true →
  time_row ts ps vals t' p' → time_row ts ps vals t p.
Proof.
  intros Ht Hp (j & tj & pj & h & ? & ? & ? & ? & ?).
  exists j, tj, pj, h. repeat split; try done; by eapply value_eqb_trans.
Qed.

Lemma multi_columns_has ts ps vals p :
  Exists (λ p', value_eqb p p') (multi_columns ts ps vals) ↔ ∃ t, time_row ts ps vals t p.
Proof.
  unfold multi_columns. rewrite Exists_exists. split.
  - intros (p' & Hin & Hp%Is_true_true).
    apply elem_of_sort_by, elem_of_unique_by, list_elem_of_fmap in Hin
      as ([t p''] & -> & [Hv _]%list_elem_of_filter).
    apply Is_true_true, has_value_time_row in Hv. exists t.
    destruct Hv as (j & tj & pj & h & ? & ? & ? & H1 & H2). cbn [fst snd] in *.
    exists j, tj, pj, h. repeat split; try done. by eapply value_eqb_trans.
  - intros (t & (t' & p' & Hin & Hrow & Ht & Hp)%time_row_self).
    destruct (unique_by_covers value_eqb p'
                (filter (λ g : value * value, has_value ts ps vals g) (zip ts ps)).*2)
      as (p'' & Hin' & Hpp); [apply value_eqb_trans| |..].
    + apply list_elem_of_fmap. exists (t', p'). split; [done|].
      apply list_elem_of_filter. split; [|done].
      by apply Is_true_true, has_value_time_row.
    + eapply value_eqb_refl_l, value_eqb_sym, Hp.
    + exists p''. split; [by apply elem_of_sort_by|]. apply Is_true_true.
      eapply value_eqb_trans; [done|]. by apply value_eqb_sym.
Qed.

Lemma multi_index_has ts ps valss t :
  Exists (λ t', value_eqb t t') (multi_index ts ps valss) ↔
  ∃ p vals, vals ∈ valss ∧ time_row ts ps vals t p.
Proof.
  unfold multi_index. rewrite Exists_exists. split.
  - intros (t' & Hin & Ht%Is_true_true).
    apply elem_of_sort_by, elem_of_unique_by, list_elem_of_fmap in Hin
      as ([t'' p] & -> & [Hv _]%list_elem_of_filter).
    apply Is_true_true, existsb_exists in Hv as (vals & Hvals & Hv).
    apply has_value_time_row in Hv. exists p, vals. split; [by apply list_elem_of_In|].
    destruct Hv as (j & tj & pj & h & ? & ? & ? & H1 & H2). cbn [fst snd] in *.
    exists j, tj, pj, h. repeat split; try done. by eapply value_eqb_trans.
  - intros (p & vals & Hvals & (t' & p' & Hin & Hrow & Ht & Hp)%time_row_self).
    destruct (unique_by_covers value_eqb t'
                (filter (λ g : value * value,
                           existsb (λ vals, has_value ts ps vals g) valss) (zip ts ps)).*1)
      as (t'' & Hin' & Htt); [apply value_eqb_trans| |..].
    + apply list_elem_of_fmap. exists (t', p'). split; [done|].
      apply list_elem_of_filter. split; [|done].
      apply Is_true_true, existsb_exists. exists vals.
      split; [by apply list_elem_of_In|]. by apply has_value_time_row.
    + eapply value_eqb_refl_l, value_eqb_sym, Ht.
    + exists t''. split; [by apply elem_of_sort_by|]. apply Is_true_true.
      eapply value_eqb_trans; [done|]. by apply value_eqb_sym.
Qed.
Lemma triple_eqb_true (a b : string * string * value) :
  triple_eqb a b = true ↔ a.1 = b.1 ∧ value_eqb a.2 b.2 = true.
Proof. unfold triple_eqb. by rewrite andb_true_iff, bool_decide_eq_true. Qed.

(** The column keys of the time pivot and its cells. *)
Lemma elem_of_time_keys (fs vs : list string) (M : string → list value)
    (k : string * string * value) :
  k ∈ (fs ≫= λ f, vs ≫= λ v, (λ p, (f, v, p)) <$> M v) ↔
  k.1.1 ∈ fs ∧ k.1.2 ∈ vs ∧ k.2 ∈ M k.1.2.
Proof.
  rewrite list_elem_of_bind. split.
  - intros (f & (v & (p & -> & Hp)%list_elem_of_fmap & Hv)%list_elem_of_bind & Hf). done.
  - destruct k as [[f v] p]. intros (Hf & Hv & Hp). exists f. split; [|done].
    apply list_elem_of_bind. exists v. split; [|done]. apply list_elem_of_fmap. by exists p.
Qed.

Lemma pivot_table_multi_time dataset ts ps sl le :
  get_column "time_spend_company" dataset = Ok ts →
  get_column "promotion_last_5years" dataset = Ok ps →
  numeric_column "satisfaction_level" dataset = Ok sl →
  numeric_column "last_evaluation" dataset = Ok le →
  let values_of name := if decide (name = "last_evaluation") then le else sl in
  let idx := multi_index ts ps [sl; le] in
  let keys := ["min"; "max"; "mean"] ≫= λ f,
              ["last_evaluation"; "satisfaction_level"] ≫= λ v,
              (λ p, (f, v, p)) <$> multi_columns ts ps (values_of v) in
  pivot_table_multi "time_spend_company" "promotion_last_5years"
      ["satisfaction_level"; "last_evaluation"]
      [("min", agg_min); ("max", agg_max); ("mean", mean)] dataset =
    Ok (mkAgg idx
          ((λ k : string * string * value,
              (k, (λ t, of_float (group_cell ts ps (values_of k.1.2) (aggregate k.1.1) t k.2))
                  <$> idx)) <$> keys)).
Proof.
  intros Hts Hps (vsl & Hvsl & Hsl)%numeric_column_inv (vle & Hvle & Hle)%numeric_column_inv.
  intros values_of idx keys.
  unfold pivot_table_multi. cbn [mapM]. rewrite Hvsl, Hvle, Hts, Hps.
  rewrite !bind_Ok. cbn [mapM]. rewrite Hsl, Hle. rewrite !bind_Ok.
  unfold mret, result_ret. f_equal. f_equal.
  assert (sort_by (λ a b : string * list (option Q), String.leb a.1 b.1)
            (zip ["satisfaction_level"; "last_evaluation"] [sl; le]) =
          [("last_evaluation", le); ("satisfaction_level", sl)]) as -> by reflexivity.
  unfold keys. cbn [mbind list_bind app].
  rewrite !fmap_app, <-!list_fmap_compose. reflexivity.
Qed.
Lemma time_keys_has ts ps (values_of : string → list (option Q)) fs vs
    (k : string * string * value) :
  Exists (λ k', triple_eqb k k')
    (fs ≫= λ f, vs ≫= λ v, (λ p, (f, v, p)) <$> multi_columns ts ps (values_of v)) ↔
  k.1.1 ∈ fs ∧ k.1.2 ∈ vs ∧ ∃ t, time_row ts ps (values_of k.1.2) t k.2.
Proof.
  rewrite <-multi_columns_has, !Exists_exists. split.
  - intros (k' & (Hf & Hv & Hp)%elem_of_time_keys & [Hk Heq]%Is_true_true%triple_eqb_true).
    rewrite Hk. repeat split; try done. exists k'.2. split; [done|]. by apply Is_true_true.
  - intros (Hf & Hv & p' & Hp & Heq%Is_true_true).
    exists (k.1, p'). split.
    + apply elem_of_time_keys. by destruct k as [[f v] p].
    + apply Is_true_true, triple_eqb_true. by destruct k as [[f v] p].
Qed.

Lemma foldl_min_spec (x : Q) l :
  let m := foldl (λ a b, if Qle_bool b a then b else a) x l in
  m ∈ x :: l ∧ Forall (λ y, (m <= y)%Q) (x :: l).
Proof.
  revert x. induction l as [|y l IH]; intros x; cbn [foldl].
  - split; [by left|]. constructor; [apply Qle_refl|constructor].
  - destruct (Qle_bool y x) eqn:E.
    + destruct (IH y) as [Hin Hall]. apply Qle_bool_iff in E. split.
      * apply elem_of_cons in Hin as [->|Hin]; [right; by left|by do 2 right].
      * apply Forall_cons in Hall as [Hy Hall].
        constructor; [by eapply Qle_trans|by constructor].
    + destruct (IH x) as [Hin Hall].
      assert (x <= y)%Q as Hxy.
      { apply Qlt_le_weak, Qnot_le_lt. intros ?%Qle_bool_iff. congruence. }
      split.
      * apply elem_of_cons in Hin as [->|Hin]; [by left|by do 2 right].
      * apply Forall_cons in Hall as [Hx Hall].
        constructor; [done|]. constructor; [by eapply Qle_trans|done].
Qed.

Lemma foldl_max_spec (x : Q) l :
  let m := foldl (λ a b, if Qle_bool a b then b else a) x l in
  m ∈ x :: l ∧ Forall (λ y, (y <= m)%Q) (x :: l).
Proof.
  revert x. induction l as [|y l IH]; intros x; cbn [foldl].
  - split; [by left|]. constructor; [apply Qle_refl|constructor].
  - destruct (Qle_bool x y) eqn:E.
    + destruct (IH y) as [Hin Hall]. apply Qle_bool_iff in E. split.
      * apply elem_of_cons in Hin as [->|Hin]; [right; by left|by do 2 right].
      * apply Forall_cons in Hall as [Hy Hall].
        constructor; [by eapply Qle_trans|by constructor].
    + destruct (IH x) as [Hin Hall].
      assert (y <= x)%Q as Hxy.
      { apply Qlt_le_weak, Qnot_le_lt. intros ?%Qle_bool_iff. congruence. }
      split.
      * apply elem_of_cons in Hin as [->|Hin]; [by left|by do 2 right].
      * apply Forall_cons in Hall as [Hx Hall].
        constructor; [done|]. constructor; [by eapply Qle_trans|done].
Qed.

Lemma aggregate_time_cell name s :
  name ∈ ["min"; "max"; "mean"] →
  time_cell name (dropna s) (round2 <$> aggregate name s).
Proof.
  intros Hname. unfold aggregate.
  repeat (apply elem_of_cons in Hname as [->|Hname]);
    [..|by apply elem_of_nil in Hname].
  - rewrite decide_True by done. unfold agg_min.
    destruct (dropna s) as [|x l]; [done|]. cbn.
    eexists. split; [done|]. left. split; [done|]. apply foldl_min_spec.
  - rewrite decide_False by done. rewrite decide_True by done. unfold agg_max.
    destruct (dropna s) as [|x l]; [done|]. cbn.
    eexists. split; [done|]. right; left. split; [done|]. apply foldl_max_spec.
  - rewrite !decide_False by done. unfold mean.
    destruct (dropna s) as [|x l]; [done|]. rewrite decide_False by done. cbn.
    eexists. split; [done|]. right; right. by split.
Qed.

(** X13. On a table with the four columns whose two score columns hold
    floats within the range that float64 holds exactly: each cell of the
    pivot is the smallest value, the largest value or the float mean of a
    score over the rows of its time and promotion, rounded by [round(2)],
    NaN where there is no such row.  When some row with promotion 0 and
    some row with promotion 1 have a last evaluation, the time analysis
    returns, under every key of an aggregate, a score column and a
    promotion value that occurs with that score, exactly the times for
    which the cell of the mean evaluation of the promoted is less than
    that of the others.  When promotion 0 or promotion 1 has no row with a
    last evaluation, the query raises [KeyError]. *)
Theorem employees_time_spend_company_filter dataset ts ps sl le :
  get_column "time_spend_company" dataset = Ok ts →
  get_column "promotion_last_5years" dataset = Ok ps →
  numeric_column "satisfaction_level" dataset = Ok sl →
  numeric_column "last_evaluation" dataset = Ok le →
  float_column "satisfaction_level" dataset → float_column "last_evaluation" dataset →
  in_float_range sl → in_float_range le →
  let values_of name := if decide (name = "last_evaluation") then le else sl in
  let cellm (k : string * string * value) t :=
    round2 <$> aggregate k.1.1 (time_rows_of ts ps (values_of k.1.2) t k.2) in
  let occurs p := ∃ t, time_row ts ps le t p in
  let keep t :=
    cell_lt (cellm ("mean", "last_evaluation", VInt 1) t)
            (cellm ("mean", "last_evaluation", VInt 0) t) in
  (∀ k t, k.1.1 ∈ ["min"; "max"; "mean"] →
          time_cell k.1.1 (dropna (time_rows_of ts ps (values_of k.1.2) t k.2))
                    (cellm k t)) ∧
  (occurs (VInt 0) ∧ occurs (VInt 1) →
   ∃ times keys,
     employees_time_spend_company dataset =
       Ok ((λ k, (k, (λ t, (t, of_float (cellm k t))) <$> filter keep times)) <$> keys) ∧
     (∀ t, Exists (λ t', value_eqb t t') times ↔
           ∃ p, time_row ts ps sl t p ∨ time_row ts ps le t p) ∧
     (∀ k, Exists (λ k', triple_eqb k k') keys ↔
           k.1.1 ∈ ["min"; "max"; "mean"] ∧
           k.1.2 ∈ ["last_evaluation"; "satisfaction_level"] ∧
           ∃ t, time_row ts ps (values_of k.1.2) t k.2)) ∧
  (¬ (occurs (VInt 0) ∧ occurs (VInt 1)) →
   employees_time_spend_company dataset = Raise KeyError).
Proof.
  intros Hts Hps Hsl Hle _ _ _ _ values_of cellm occurs keep.
  split; [intros k t Hk; by apply aggregate_time_cell|].
  pose proof (pivot_table_multi_time _ _ _ _ _ Hts Hps Hsl Hle) as Htable.
  cbv zeta in Htable. fold values_of in Htable.
  set (idx := multi_index ts ps [sl; le]) in Htable.
  set (keys := _ ≫= _) in Htable.
  unfold employees_time_spend_company. rewrite Htable, bind_Ok. clear Htable.
  rewrite agg_round_cells.
  set (G := λ k : string * string * value, (λ t, of_float (cellm k t)) <$> idx).
  assert (Hcell : ∀ k t, round2 <$> group_cell ts ps (values_of k.1.2) (aggregate k.1.1) t k.2
                         = cellm k t).
  { intros k t. unfold cellm. by rewrite group_cell_rows. }
  assert (Hcols : (λ k : string * string * value,
             (k, (λ t, of_float (round2 <$> group_cell ts ps (values_of k.1.2)
                                              (aggregate k.1.1) t k.2)) <$> idx)) <$> keys
          = (λ k, (k, G k)) <$> keys).
  { apply list_fmap_ext. intros _ k _. unfold G. f_equal.
    apply list_fmap_ext. intros _ t _. by rewrite Hcell. }
  rewrite Hcols. clear Hcols.
  assert (HG : ∀ key c, triple_eqb key c = true → G c = G key).
  { intros key c [Hk Hp]%triple_eqb_true. unfold G. apply list_fmap_ext. intros _ t _.
    rewrite <-!Hcell, <-Hk. unfold group_cell.
    by rewrite (group_mask_congr ts ps t key.2 c.2). }
  assert (Hhas : ∀ p, Exists (λ k', triple_eqb ("mean", "last_evaluation", p) k') keys ↔
                      occurs p).
  { intros p. unfold keys. rewrite (time_keys_has ts ps values_of). cbn [fst snd].
    split; [by intros (_ & _ & ?)|]. intros ?. split; [by_compute|]. split; [by_compute|done]. }
  split.
  - intros [H0 H1].
    rewrite !agg_get_Ok_by by ((intros; by apply HG) || by apply Hhas).
    rewrite !bind_Ok. unfold mret, result_ret.
    exists idx, keys. split; [|split].
    + f_equal. unfold series_gt, G. rewrite zip_with_fmap_diag. unfold flip.
      rewrite (to_dict_loc_by (λ k t, of_float (cellm k t))).
      apply list_fmap_ext. intros _ k _. f_equal. f_equal.
      apply list_filter_iff. intros t. by rewrite Is_true_true, value_ltb_of_float.
    + intros t. unfold idx. rewrite multi_index_has. split.
      * intros (p & vals & Hin & Hrow). exists p.
        apply elem_of_cons in Hin as [->|Hin]; [by left|].
        apply elem_of_cons in Hin as [->|Hin]; [by right|]. by apply elem_of_nil in Hin.
      * intros (p & [Hr|Hr]); [exists p, sl|exists p, le]; (split; [|done]).
        -- by left.
        -- right; by left.
    + intros k. apply time_keys_has.
  - intros Hnot.
    destruct (decide (Exists (λ k', triple_eqb ("mean", "last_evaluation", VInt 0) k') keys))
      as [H0|H0].
    + rewrite (agg_get_Ok_by triple_eqb G ("mean", "last_evaluation", VInt 0))
        by ((intros; by apply HG) || done).
      rewrite bind_Ok.
      rewrite agg_get_KeyError_by; [done|].
      intros H1. apply Hnot. split; by apply Hhas.
    + by rewrite (agg_get_KeyError_by triple_eqb G ("mean", "last_evaluation", VInt 0)).
Qed.

End time_facts.

Lemma employees_time_spend_company_filter_witness :
  ∃ r, employees_time_spend_company (fl := exact_arithmetic) ex_u = Ok r.
Proof.
  destruct (employees_time_spend_company_filter (fl := exact_arithmetic) ex_u
              (VInt <$> [3; 4; 5; 2; 3; 6; 6])
              (VInt <$> [0; 0; 0; 0; 1; 0; 0])
              (Some <$> [0.5; 0.4; 0.3; 0.2; 0.6; 0.7; 0.7]%Q)
              (Some <$> [0.6; 0.7; 0.8; 0.9; 0.5; 0.4; 0.4]%Q))
    as (_ & Hok & _); [reflexivity..| | |by_compute|by_compute|].
  1,2: eexists; split; [reflexivity|by_compute].
  destruct Hok as (times & keys & Hr & _).
  - split.
    + exists (VInt 3), 0%nat, (VInt 3), (VInt 0), 0.6%Q. by repeat split.
    + exists (VInt 3), 4%nat, (VInt 3), (VInt 1), 0.5%Q. by repeat split.
  - eexists. exact Hr.
Defined.
(** ** The order of the source rows *)

Lemma bind_Permutation_ext {A B} (f g : A → list B) l :
  (∀ x, f x ≡ₚ g x) → l ≫= f ≡ₚ l ≫= g.
Proof.
  intros Hfg. induction l as [|x l IH]; [done|]. csimpl. by rewrite (Hfg x), IH.
Qed.

Lemma rows_merge_Permutation left left' right right' :
  rows left' ≡ₚ rows left → rows right' ≡ₚ rows right →
  rows (merge left' right') ≡ₚ rows (merge left right).
Proof.
  intros Hl Hr. unfold merge. cbn [rows]. rewrite Hl.
  apply bind_Permutation_ext. intros l. by rewrite Hr.
Qed.

Lemma rows_concat2_Permutation a a' b b' :
  columns a' = columns a → columns b' = columns b →
  rows a' ≡ₚ rows a → rows b' ≡ₚ rows b →
  columns (concat [a'; b']) = columns (concat [a; b]) ∧
  rows (concat [a'; b']) ≡ₚ rows (concat [a; b]).
Proof.
  intros Ha Hb Hra Hrb. unfold concat. cbn [columns rows].
  rewrite !union_columns2, Ha, Hb. split; [done|].
  cbn [mbind list_bind]. rewrite !app_nil_r, ?Ha, ?Hb.
  apply Permutation_app; by apply fmap_Permutation.
Qed.

Lemma sort_by_Permutation {A} (leb : A → A → bool) l l' :
  (∀ x y, leb x y = true ∨ leb y x = true) →
  (∀ x y z, leb x y = true → leb y z = true → leb x z = true) →
  (∀ x y, x ∈ l → y ∈ l → leb x y = true → leb y x = true → x = y) →
  l ≡ₚ l' → sort_by leb l = sort_by leb l'.
Proof.
  intros Htotal Htrans Hanti Hperm.
  apply (StronglySorted_unique_strong (λ a b, leb a b = true)).
  - intros x y Hx%elem_of_sort_by Hy%elem_of_sort_by ? ?. rewrite <-Hperm in Hy.
    by apply Hanti.
  - by apply sort_by_sorted.
  - by apply sort_by_sorted.
  - by rewrite !sort_by_perm.
Qed.

Lemma value_leb_total a b : value_leb a b = true ∨ value_leb b a = true.
Proof.
  destruct a, b; simpl; rewrite ?bool_decide_eq_true, ?Qle_bool_iff;
    try (left; lia); try (right; lia); try apply String.leb_total;
    match goal with |- (?x <= ?y)%Q ∨ _ =>
      destruct (Qlt_le_dec y x); [right; by apply Qlt_le_weak|by left] end.
Qed.

Lemma value_leb_trans a b c :
  value_leb a b = true → value_leb b c = true → value_leb a c = true.
Proof.
  destruct a, b, c; simpl; rewrite ?bool_decide_eq_true, ?Qle_bool_iff;
    try done; try lia; try apply string_leb_trans; apply Qle_trans.
Qed.
Lemma NoDup_labels_inj {A B} (l : list (A * B)) x y :
  NoDup l.*1 → x ∈ l → y ∈ l → x.1 = y.1 → x = y.
Proof.
  induction l as [|z l IH]; [by intros _ ?%elem_of_nil|].
  rewrite fmap_cons, NoDup_cons. intros [Hz Hnd] Hx Hy Heq.
  apply elem_of_cons in Hx as [->|Hx]; apply elem_of_cons in Hy as [->|Hy]; try done.
  - destruct Hz. rewrite Heq. apply list_elem_of_fmap. by exists y.
  - destruct Hz. rewrite <-Heq. apply list_elem_of_fmap. by exists x.
  - by apply IH.
Qed.

(** X14. With string labels that are unique over the two offices, and
    unique labels in the HR table, the unified table does not depend on
    the order of the rows in the three sources. *)
Theorem unified_dataset_row_order p p' :
  columns (a_office_data p') = columns (a_office_data p) →
  columns (b_office_data p') = columns (b_office_data p) →
  columns (hr_data p') = columns (hr_data p) →
  rows (a_office_data p') ≡ₚ rows (a_office_data p) →
  rows (b_office_data p') ≡ₚ rows (b_office_data p) →
  rows (hr_data p') ≡ₚ rows (hr_data p) →
  Forall is_str (index (a_office_data p) ++ index (b_office_data p)) →
  NoDup (index (a_office_data p) ++ index (b_office_data p)) →
  NoDup (index (hr_data p)) →
  generate_unified_dataset p' = generate_unified_dataset p.
Proof.
  intros Hca Hcb Hch Hra Hrb Hrh Hstr Hnd Hndh.
  unfold generate_unified_dataset. cbv zeta. unfold mret, result_ret. f_equal.
  destruct (rows_concat2_Permutation _ _ _ _ Hca Hcb Hra Hrb) as [Hcc Hrc].
  set (m := merge (concat [a_office_data p; b_office_data p]) (hr_data p)).
  set (m' := merge (concat [a_office_data p'; b_office_data p']) (hr_data p')).
  assert (columns m' = columns m) as Hcm.
  { unfold m, m', merge. cbn [columns]. by rewrite Hcc, Hch. }
  assert (rows m' ≡ₚ rows m) as Hrm by by apply rows_merge_Permutation.
  rewrite <-index_concat2 in Hstr, Hnd.
  assert (index m = filter (λ k, k ∈ index (hr_data p))
                      (index (concat [a_office_data p; b_office_data p]))) as Him.
  { by apply index_merge_filter. }
  unfold sort_index, drop_columns. cbn [columns rows]. rewrite Hcm. f_equal.
  symmetry. apply sort_by_Permutation.
  - intros x y. apply value_leb_total.
  - intros x y z. apply value_leb_trans.
  - set (l := _ <$> rows m).
    assert (l.*1 = index m) as Hl.
    { unfold l, index. rewrite <-!list_fmap_compose. apply list_fmap_ext. by intros _ [] _. }
    assert (NoDup l.*1) as Hndl by (rewrite Hl, Him; by apply NoDup_filter).
    assert (Forall is_str l.*1) as Hsl.
    { rewrite Hl, Him. apply Forall_forall. intros k [_ Hk]%list_elem_of_filter.
      by apply (proj1 (Forall_forall _ _) Hstr). }
    intros x y Hx Hy Hxy Hyx. apply (NoDup_labels_inj l); try done.
    assert (is_str x.1) as [s Hs].
    { apply (proj1 (Forall_forall _ _) Hsl). apply list_elem_of_fmap. by exists x. }
    assert (is_str y.1) as [t Ht].
    { apply (proj1 (Forall_forall _ _) Hsl). apply list_elem_of_fmap. by exists y. }
    rewrite Hs, Ht in *. simpl in Hxy, Hyx. f_equal. by apply String.leb_antisym.
  - by apply fmap_Permutation.
Qed.

Lemma unified_dataset_row_order_witness :
  generate_unified_dataset
    (mkPD (mkDF (columns (a_office_data ex_reindexed))
                (reverse (rows (a_office_data ex_reindexed))))
          (b_office_data ex_reindexed) (hr_data ex_reindexed)) =
  generate_unified_dataset ex_reindexed.
Proof.
  apply unified_dataset_row_order; try reflexivity; try by_compute.
  repeat constructor; by eexists.
Defined.
(** X15. Without one of the three columns it reads, the count of IT
    projects raises [KeyError], whatever the rows hold. *)
Theorem total_projects_it_low_salary_KeyError
    (int_of_other_sum : list value → result Z) dataset :
  ("Department" ∉ columns dataset) ∨ ("salary" ∉ columns dataset) ∨
  ("number_project" ∉ columns dataset) →
  total_projects_it_low_salary int_of_other_sum dataset = Raise KeyError.
Proof.
  intros Hmiss. unfold total_projects_it_low_salary.
  destruct (get_column_cases "Department" dataset) as [[Hd [ds ->]]|[_ ->]]; [|done].
  destruct (get_column_cases "salary" dataset) as [[Hs [ss ->]]|[_ ->]]; [|done].
  rewrite !bind_Ok. rewrite get_column_KeyError; [done|].
  unfold loc_rows. cbn [columns]. by destruct Hmiss as [?|[?|?]].
Qed.

Lemma total_projects_it_low_salary_KeyError_witness :
  total_projects_it_low_salary no_other_sum ex_15 = Raise KeyError.
Proof.
  apply total_projects_it_low_salary_KeyError. right; left. by_compute.
Defined.
(** ** Exceptions of the two pivots *)

Lemma mapM_to_numeric_cases vs :
  (Forall (λ v, is_strb v = false) vs ∧ ∃ os, mapM to_numeric vs = Ok os) ∨
  (Exists (λ v, is_strb v = true) vs ∧ mapM to_numeric vs = Raise TypeError).
Proof.
  destruct (mapM to_numeric vs) as [os|e] eqn:Hm.
  - left. split; [|by eexists]. apply Forall_forall. intros v Hv.
    destruct (mapM_Ok_inv _ _ _ Hm v Hv) as [o Ho].
    by destruct (to_numeric_cases v) as [[? _]|[_ ?]]; [|congruence].
  - right. apply mapM_Raise_inv in Hm as (v & Hv & He).
    destruct (to_numeric_cases v) as [[_ [o ?]]|[Hs ?]]; [congruence|].
    split; [|congruence]. apply Exists_exists. by exists v.
Qed.

(** X16. The department pivot raises [KeyError] when one of the four
    columns it reads is missing, and [TypeError] when they are all there
    and the hours hold a string. *)
Theorem median_salaries_by_department_errors {fl : Float64} dataset :
  (("average_monthly_hours" ∉ columns dataset) ∨ ("Department" ∉ columns dataset) ∨
   ("left" ∉ columns dataset) ∨ ("salary" ∉ columns dataset) →
   median_salaries_by_department dataset = Raise KeyError) ∧
  (∀ hours, "Department" ∈ columns dataset → "left" ∈ columns dataset →
     "salary" ∈ columns dataset →
     get_column "average_monthly_hours" dataset = Ok hours →
     Exists (λ v, is_strb v = true) hours →
     median_salaries_by_department dataset = Raise TypeError).
Proof.
  unfold median_salaries_by_department, pivot_table. cbn [fst snd]. split.
  - intros Hmiss.
    destruct (get_column_cases "average_monthly_hours" dataset) as [[? [hs ->]]|[_ ->]]; [|done].
    destruct (get_column_cases "Department" dataset) as [[? [ds ->]]|[_ ->]]; [|done].
    destruct (get_column_cases "left" dataset) as [[? [ls ->]]|[_ ->]]; [|done].
    destruct (get_column_cases "salary" dataset) as [[? [ss ->]]|[_ ->]]; [|done].
    by destruct Hmiss as [?|[?|[?|?]]].
  - intros hours [ds ->]%get_column_is_Ok [ls ->]%get_column_is_Ok [ss ->]%get_column_is_Ok
           -> Hex.
    rewrite !bind_Ok.
    destruct (mapM_to_numeric_cases hours) as [[Hall _]|[_ ->]]; [|done].
    apply Exists_exists in Hex as (v & Hv & Hs).
    apply (proj1 (Forall_forall _ _) Hall) in Hv. congruence.
Qed.

(** X17. The time analysis raises [KeyError] when one of the four columns
    it reads is missing, and [TypeError] when they are all there and one of
    the two score columns holds a string. *)
Theorem employees_time_spend_company_errors {fl : Float64} dataset :
  (("satisfaction_level" ∉ columns dataset) ∨ ("last_evaluation" ∉ columns dataset) ∨
   ("time_spend_company" ∉ columns dataset) ∨
   ("promotion_last_5years" ∉ columns dataset) →
   employees_time_spend_company dataset = Raise KeyError) ∧
  (∀ sl le, "time_spend_company" ∈ columns dataset →
     "promotion_last_5years" ∈ columns dataset →
     get_column "satisfaction_level" dataset = Ok sl →
     get_column "last_evaluation" dataset = Ok le →
     Exists (λ v, is_strb v = true) (sl ++ le) →
     employees_time_spend_company dataset = Raise TypeError).
Proof.
  unfold employees_time_spend_company, pivot_table_multi. cbn [mapM]. split.
  - intros Hmiss.
    destruct (get_column_cases "satisfaction_level" dataset) as [[? [sl ->]]|[_ ->]]; [|done].
    destruct (get_column_cases "last_evaluation" dataset) as [[? [le ->]]|[_ ->]]; [|done].
    rewrite !bind_Ok.
    destruct (get_column_cases "time_spend_company" dataset) as [[? [ts ->]]|[_ ->]]; [|done].
    destruct (get_column_cases "promotion_last_5years" dataset) as [[? [ps ->]]|[_ ->]];
      [|done].
    by destruct Hmiss as [?|[?|[?|?]]].
  - intros sl le [ts ->]%get_column_is_Ok [ps ->]%get_column_is_Ok -> -> Hex.
    rewrite !bind_Ok. cbn [mapM].
    destruct (mapM_to_numeric_cases sl) as [[Hsl [osl ->]]|[_ ->]]; [|done].
    destruct (mapM_to_numeric_cases le) as [[Hle _]|[_ ->]]; [|done].
    apply Exists_app in Hex as [Hex|Hex]; apply Exists_exists in Hex as (v & Hv & Hs).
    + apply (proj1 (Forall_forall _ _) Hsl) in Hv. congruence.
    + apply (proj1 (Forall_forall _ _) Hle) in Hv. congruence.
Qed.
